(** * The website audit engine of restaurant-grader

    A shallow embedding of the server of the restaurant grader
    ([isValidUrl], [generateAIInsights], [gradeWebsite] and the
    [POST /grade] handler) and the properties of its specification.

    Conventions of the embedding.
    - A JavaScript string is a [string]: a sequence of code units, here
      restricted to the code units below 256.  [String.length] is the
      JavaScript [length].
    - A JavaScript number is a [number]: a binary64 value kept as an exact
      dyadic rational [m * 2^e], or an infinity, or NaN.  Division and
      multiplication round to 53 bits, to nearest, ties to even.  The
      exponent range is not bounded: every operand of the program is an
      integer below 2^53, far from overflow and from the subnormal range.
    - The cheerio handle [$] is the record of the elements the program
      selects from it.
    - The network, the clock, the generative models and the console are a
      [world]: oracles that answer the calls, and a trace of the calls
      made. *)

From Stdlib Require Import ZArith String Ascii List Bool Lia.
From Stdlib Require Import DecimalString Sorted Permutation.
Import ListNotations.

Local Open Scope string_scope.
Local Open Scope list_scope.
Local Open Scope Z_scope.

(** ** JavaScript strings *)

Module JsString.

(** The double quote character, and a string in double quotes. *)
Definition dquote : string := String "034" "".
Definition quoted (s : string) : string := dquote ++ s ++ dquote.

(** [s.startsWith(p)] *)
Definition startsWith (s p : string) : bool := String.prefix p s.

(** [s.includes(sub)] *)
Fixpoint includes (s sub : string) : bool :=
  String.prefix sub s ||
  match s with
  | EmptyString => false
  | String _ s' => includes s' sub
  end.

(** [s.endsWith(p)] *)
Fixpoint endsWith (s p : string) : bool :=
  String.eqb s p ||
  match s with
  | EmptyString => false
  | String _ s' => endsWith s' p
  end.

(** [s.substring(a, b)] for [a <= b] *)
Definition substring (s : string) (a b : nat) : string :=
  String.substring a (b - a) s.

(** The lower case of a code unit below 256: A-Z, and the Latin-1
    capitals but the multiplication sign. *)
Definition lower (c : ascii) : ascii :=
  let n := nat_of_ascii c in
  if ((65 <=? n) && (n <=? 90))%nat then ascii_of_nat (n + 32)
  else if ((192 <=? n) && (n <=? 222) && negb (n =? 215))%nat
       then ascii_of_nat (n + 32)
  else c.

(** [s.toLowerCase()] *)
Fixpoint toLowerCase (s : string) : string :=
  match s with
  | EmptyString => EmptyString
  | String c s' => String (lower c) (toLowerCase s')
  end.

(** White space and line terminators below 256: TAB, LF, VT, FF, CR,
    SP and NBSP. *)
Definition isWhiteSpace (c : ascii) : bool :=
  let n := nat_of_ascii c in
  (((9 <=? n) && (n <=? 13)) || (n =? 32) || (n =? 160))%nat.

Fixpoint trimStart (s : string) : string :=
  match s with
  | EmptyString => EmptyString
  | String c s' => if isWhiteSpace c then trimStart s' else s
  end.

(** [trimEnd] keeps a character when it is not white space or when
    something is left after it. *)
Fixpoint trimEnd (s : string) : string :=
  match s with
  | EmptyString => EmptyString
  | String c s' =>
      match trimEnd s' with
      | EmptyString => if isWhiteSpace c then EmptyString else String c EmptyString
      | t => String c t
      end
  end.

(** [s.trim()] *)
Definition trim (s : string) : string := trimEnd (trimStart s).

(** A string is truthy when it is not empty. *)
Definition truthy (s : string) : bool :=
  match s with EmptyString => false | _ => true end.

(** [s.toUpperCase()] on the letters a-z. *)
Definition upper (c : ascii) : ascii :=
  let n := nat_of_ascii c in
  if ((97 <=? n) && (n <=? 122))%nat then ascii_of_nat (n - 32) else c.

Fixpoint toUpperCase (s : string) : string :=
  match s with
  | EmptyString => EmptyString
  | String c s' => String (upper c) (toUpperCase s')
  end.

(** [s.replaceAll(pat ++ opt?, "")] for a literal [pat] followed by an
    optional character [opt]: the two [replace] calls of the program,
    whose patterns are a literal, an optional line feed and the flag g.
    [drop n s] removes [n] characters. *)
Fixpoint drop (n : nat) (s : string) : string :=
  match n, s with
  | O, _ => s
  | S n', String _ s' => drop n' s'
  | S _, EmptyString => EmptyString
  end.

Fixpoint removeAll (fuel : nat) (pat : string) (opt : ascii) (s : string) : string :=
  match fuel with
  | O => s
  | S fuel' =>
      match s with
      | EmptyString => EmptyString
      | String c s' =>
          if String.prefix pat s then
            let rest := drop (String.length pat) s in
            let rest' := match rest with
                         | String d r => if Ascii.eqb d opt then r else rest
                         | EmptyString => rest
                         end in
            removeAll fuel' pat opt rest'
          else String c (removeAll fuel' pat opt s')
      end
  end.

(** Decimal digits of a natural number. *)
Definition ofNat (n : nat) : string := NilEmpty.string_of_uint (Nat.to_uint n).

(** Decimal digits of an integer. *)
Definition ofZ (z : Z) : string :=
  if z <? 0 then "-" ++ NilEmpty.string_of_uint (N.to_uint (Z.to_N (- z)))
  else NilEmpty.string_of_uint (N.to_uint (Z.to_N z)).

End JsString.

(** ** JavaScript numbers *)

Module Number.

(** A number: the dyadic rational [m * 2^e], an infinity (negative when
    the flag is set), or NaN. *)
Inductive number : Type :=
| Finite (m e : Z)
| Infinity (negative : bool)
| NaN.

(** The integer nearest to [n / d], for [d > 0]; a tie goes to the even
    one. *)
Definition nearestEven (n d : Z) : Z :=
  let q := n / d in
  let r := n mod d in
  match 2 * r ?= d with
  | Lt => q
  | Gt => q + 1
  | Eq => if Z.even q then q else q + 1
  end.

(** [n / d] times [2^(-e)] as a fraction. *)
Definition scaled (n d e : Z) : Z * Z :=
  if 0 <=? e then (n, d * 2 ^ e) else (n * 2 ^ (- e), d).

(** The exponent [e] with [2^52 <= (n / d) * 2^(-e) < 2^53], for
    [n > 0] and [d > 0]. *)
Definition binade (n d : Z) : Z :=
  let e0 := Z.log2 n - Z.log2 d - 52 in
  let '(n', d') := scaled n d e0 in
  if 2 ^ 52 * d' <=? n' then e0 else e0 - 1.

(** The binary64 value nearest to [n / d], for [n > 0] and [d > 0]:
    mantissa and exponent. *)
Definition round53 (n d : Z) : Z * Z :=
  let e := binade n d in
  let '(n', d') := scaled n d e in
  (nearestEven n' d', e).

(** [a / b] on integers. *)
Definition div (a b : Z) : number :=
  if b =? 0 then
    if a =? 0 then NaN else Infinity (a <? 0)
  else if a =? 0 then Finite 0 0
  else
    let '(m, e) := round53 (Z.abs a) (Z.abs b) in
    Finite (Z.sgn a * Z.sgn b * m) e.

(** [x * k] for an integer [k]. *)
Definition mul (x : number) (k : Z) : number :=
  match x with
  | NaN => NaN
  | Infinity s => if k =? 0 then NaN else Infinity (xorb s (k <? 0))
  | Finite m e =>
      if m * k =? 0 then Finite 0 0
      else
        let p := Z.abs (m * k) in
        let '(m', e') :=
          if 0 <=? e then round53 (p * 2 ^ e) 1 else round53 p (2 ^ (- e)) in
        Finite (Z.sgn (m * k) * m') e'
  end.

(** [x < y] *)
Definition lt (x y : number) : bool :=
  match x, y with
  | NaN, _ | _, NaN => false
  | Infinity s, Infinity s' => s && negb s'
  | Infinity s, Finite _ _ => s
  | Finite _ _, Infinity s => negb s
  | Finite m e, Finite m' e' =>
      let c := Z.min e e' in
      m * 2 ^ (e - c) <? m' * 2 ^ (e' - c)
  end.

(** [floor (m * 2^e + 1/2)] *)
Definition roundHalfUp (m e : Z) : Z :=
  if 0 <=? e then m * 2 ^ e
  else (2 * m + 2 ^ (- e)) / 2 ^ (1 - e).

(** [Math.round(x)]: the nearest integer, a tie goes up. *)
Definition round (x : number) : number :=
  match x with
  | Finite m e => Finite (roundHalfUp m e) 0
  | _ => x
  end.

(** [x.toFixed(1)], for [|x| < 10^21]: the integer [n] with [n / 10]
    nearest to [|x|], the larger one on a tie, printed with one
    decimal. *)
Definition tenths (m e : Z) : Z := roundHalfUp (10 * Z.abs m) e.

Definition toFixed1 (x : number) : string :=
  match x with
  | NaN => "NaN"
  | Infinity s => if s then "-Infinity" else "Infinity"
  | Finite m e =>
      let n := tenths m e in
      let sign := if m <? 0 then "-" else "" in
      (sign ++ JsString.ofZ (n / 10) ++ "." ++ JsString.ofZ (n mod 10))%string
  end.

(** [String(x)] when [x] is an integer, an infinity or NaN. *)
Definition toString (x : number) : string :=
  match x with
  | NaN => "NaN"
  | Infinity s => if s then "-Infinity" else "Infinity"
  | Finite m e => JsString.ofZ (m * 2 ^ e)
  end.

End Number.

Import Number (number, Finite, Infinity, NaN).

(** ** Regular expressions

    The fragment the program's phone pattern needs: character classes,
    optional parts and sequences, matched with a continuation so that an
    optional part can be taken or left. *)

Module RegExp.

Inductive regex : Type :=
| Class (p : ascii -> bool)
| Opt (r : regex)
| Seq (r1 r2 : regex)
| Eps.

Fixpoint matchFrom (r : regex) (s : string) (k : string -> bool) : bool :=
  match r with
  | Eps => k s
  | Class p =>
      match s with
      | String c s' => p c && k s'
      | EmptyString => false
      end
  | Opt r' => matchFrom r' s k || k s
  | Seq r1 r2 => matchFrom r1 s (fun s' => matchFrom r2 s' k)
  end.

(** [r.test(s)]: a match starting at some position of [s]. *)
Fixpoint test (r : regex) (s : string) : bool :=
  matchFrom r s (fun _ => true) ||
  match s with
  | EmptyString => false
  | String _ s' => test r s'
  end.

Definition seq (rs : list regex) : regex := fold_right Seq Eps rs.

Definition char (c : ascii) : regex := Class (Ascii.eqb c).

(** [\d] *)
Definition digit : regex :=
  Class (fun c => let n := nat_of_ascii c in ((48 <=? n) && (n <=? 57))%nat).

(** [[-.\s]] *)
Definition separator : regex :=
  Class (fun c => Ascii.eqb c "-" || Ascii.eqb c "." || JsString.isWhiteSpace c).

(** [/(\+?1?[-.\s]?\(?\d{3}\)?[-.\s]?\d{3}[-.\s]?\d{4})/] *)
Definition phone : regex :=
  seq [ Opt (char "+"); Opt (char "1"); Opt separator;
        Opt (char "("); digit; digit; digit; Opt (char ")");
        Opt separator; digit; digit; digit;
        Opt separator; digit; digit; digit; digit ].

End RegExp.

(** ** The rule engine: [gradeWebsite] *)

Inductive severity : Type := error | warning | info.

Inductive category : Type := SEO | Content | Usability | Technical.

(** An issue as a category evaluator pushes it: [{ type, text }]. *)
Record finding : Type := { type : severity; text : string }.

(** An issue of the report: [{ ...i, category }]. *)
Record issue : Type :=
  { i_type : severity; i_text : string; i_category : category }.

(** An entry of [results]: [{ score, maxScore, issues }]. *)
Record bucket : Type :=
  { score : nat; maxScore : nat; issues : list finding }.

(** [results.c.score += n] *)
Definition award (n : nat) (b : bucket) : bucket :=
  {| score := score b + n; maxScore := maxScore b; issues := issues b |}.

(** [results.c.issues.push({ type: t, text: x })] *)
Definition push (t : severity) (x : string) (b : bucket) : bucket :=
  {| score := score b; maxScore := maxScore b;
     issues := issues b ++ [ {| type := t; text := x |} ] |}.

(** What the program selects from the cheerio handle [$].  An element
    list is in document order. *)
Record cheerio : Type :=
  { (** [$("title").text()] *)
    title_text : string;
    (** the [content] attribute of each [meta[name="description"]] *)
    meta_description : list (option string);
    (** the number of [h1], [link[rel="canonical"]],
        [meta[property="og:title"]], [meta[name="viewport"]],
        [link[rel="icon"]], [link[rel="shortcut icon"]] and
        [script[type="application/ld+json"]] elements *)
    h1 : nat;
    link_canonical : nat;
    meta_og_title : nat;
    meta_viewport : nat;
    link_icon : nat;
    link_shortcut_icon : nat;
    script_ld_json : nat;
    (** the [href] of each [a] element that has one *)
    a_href : list string;
    (** the [alt] attribute of each [img] element *)
    img_alt : list (option string);
    (** the [src] of each [iframe] element that has one *)
    iframe_src : list string }.

(** [$(sel).attr("content")] of the description: the attribute of the
    first element selected, [|| ""]. *)
Definition description_of (q : cheerio) : string :=
  match meta_description q with
  | Some c :: _ => c
  | _ => ""
  end.

(** [$('a[href*="x"]').length > 0], and the same with [^=] and [$=]. *)
Definition a_href_contains (q : cheerio) (x : string) : bool :=
  existsb (fun h => JsString.includes h x) (a_href q).

Definition a_href_starts (q : cheerio) (x : string) : bool :=
  existsb (fun h => JsString.startsWith h x) (a_href q).

Definition a_href_ends (q : cheerio) (x : string) : bool :=
  existsb (fun h => JsString.endsWith h x) (a_href q).

(** [$('img[alt*="x"]').length > 0] *)
Definition img_alt_contains (q : cheerio) (x : string) : bool :=
  existsb (fun a => match a with
                    | Some s => JsString.includes s x
                    | None => false
                    end) (img_alt q).

(** [$('iframe[src*="x"]').length > 0] *)
Definition iframe_src_contains (q : cheerio) (x : string) : bool :=
  existsb (fun h => JsString.includes h x) (iframe_src q).

(** [$("img").length] *)
Definition imageCount_of (q : cheerio) : nat := List.length (img_alt q).

(** [$("img[alt]").filter((_, el) => $(el).attr("alt")?.trim()).length] *)
Definition altKept (a : option string) : bool :=
  match a with
  | Some s => JsString.truthy (JsString.trim s)
  | None => false
  end.

Definition imagesWithAlt_of (q : cheerio) : nat :=
  List.length (filter altKept (img_alt q)).

Definition present (n : nat) : bool := (0 <? n)%nat.

(** *** SEO checks (30 points) *)

Definition checkTitle (title : string) (b : bucket) : bucket :=
  let n := String.length title in
  if ((30 <=? n) && (n <=? 60))%nat then award 8 b
  else if (0 <? n)%nat then
    push warning
      ("Title length (" ++ JsString.ofNat n ++ " chars) should be 30-60 characters")
      (award 4 b)
  else push error "Missing page title" b.

Definition checkDescription (description : string) (b : bucket) : bucket :=
  let n := String.length description in
  if ((120 <=? n) && (n <=? 160))%nat then award 8 b
  else if (0 <? n)%nat then
    push warning
      ("Meta description (" ++ JsString.ofNat n ++ " chars) should be 120-160 characters")
      (award 4 b)
  else push error "Missing meta description - hurts Google rankings" b.

Definition checkH1 (h1Count : nat) (b : bucket) : bucket :=
  if (h1Count =? 1)%nat then award 6 b
  else if (h1Count =? 0)%nat then push error "Missing H1 heading" b
  else
    push warning
      ("Multiple H1 tags found (" ++ JsString.ofNat h1Count ++ ") - should have exactly 1")
      (award 3 b).

Definition checkCanonical (hasCanonical : bool) (b : bucket) : bucket :=
  if hasCanonical then award 4 b
  else push info "No canonical URL set" b.

Definition checkOgTags (hasOgTags : bool) (b : bucket) : bucket :=
  if hasOgTags then award 4 b
  else push warning "Missing Open Graph tags - social sharing won't look good" b.

Definition seoChecks (q : cheerio) (b : bucket) : bucket :=
  let description := description_of q in
  let title := title_text q in
  let h1Count := h1 q in
  let hasCanonical := present (link_canonical q) in
  let hasOgTags := present (meta_og_title q) in
  checkOgTags hasOgTags
    (checkCanonical hasCanonical
       (checkH1 h1Count
          (checkDescription description
             (checkTitle title b)))).

(** *** Content checks (25 points) *)

Definition hasPdf_of (q : cheerio) : bool := a_href_ends q ".pdf".

Definition hasMenu_of (q : cheerio) (bodyText : string) : bool :=
  JsString.includes bodyText "menu" ||
  a_href_contains q "menu" ||
  img_alt_contains q "menu".

Definition hasHours_of (bodyText : string) : bool :=
  JsString.includes bodyText "hours" ||
  JsString.includes bodyText "open" ||
  JsString.includes bodyText "am" ||
  JsString.includes bodyText "pm".

Definition hasAddress_of (bodyText : string) : bool :=
  JsString.includes bodyText "address" ||
  JsString.includes bodyText "location" ||
  JsString.includes bodyText "street".

Definition hasPhone_of (q : cheerio) (bodyText : string) : bool :=
  RegExp.test RegExp.phone bodyText || a_href_starts q "tel:".

Definition checkMenu (hasPdf hasMenu : bool) (b : bucket) : bucket :=
  if hasPdf then
    push error "PDF menu detected - hard for Google to read, bad on mobile"
      (award 2 b)
  else if hasMenu then award 8 b
  else push warning "No menu found on homepage" b.

Definition hoursMissing : string :=
  "Business hours not found - customers need this!".

Definition checkHours (hasHours : bool) (b : bucket) : bucket :=
  if hasHours then award 5 b
  else push error hoursMissing b.

Definition checkAddress (hasAddress : bool) (b : bucket) : bucket :=
  if hasAddress then award 4 b
  else push warning "Address/location not clearly visible" b.

Definition checkPhone (hasPhone : bool) (b : bucket) : bucket :=
  if hasPhone then award 4 b
  else push warning "Phone number not found" b.

(** [Math.round((imagesWithAlt / imageCount) * 100)] *)
Definition altPercent (imagesWithAlt imageCount : nat) : number :=
  Number.round
    (Number.mul (Number.div (Z.of_nat imagesWithAlt) (Z.of_nat imageCount)) 100).

Definition altWarning (imagesWithAlt imageCount : nat) : string :=
  "Only " ++ Number.toString (altPercent imagesWithAlt imageCount) ++
  "% of images have alt text".

Definition checkImages (imageCount imagesWithAlt : nat) (b : bucket) : bucket :=
  if (5 <=? imageCount)%nat then
    let b' := award 4 b in
    if Number.lt (Number.div (Z.of_nat imagesWithAlt) (Z.of_nat imageCount))
                 (Finite 1 (-1))
    then push warning (altWarning imagesWithAlt imageCount) b'
    else b'
  else push info "Consider adding more food photos" b.

Definition contentChecks (q : cheerio) (bodyText : string) (b : bucket) : bucket :=
  let hasPdf := hasPdf_of q in
  let hasMenu := hasMenu_of q bodyText in
  let hasHours := hasHours_of bodyText in
  let hasAddress := hasAddress_of bodyText in
  let hasPhone := hasPhone_of q bodyText in
  let imageCount := imageCount_of q in
  let imagesWithAlt := imagesWithAlt_of q in
  checkImages imageCount imagesWithAlt
    (checkPhone hasPhone
       (checkAddress hasAddress
          (checkHours hasHours
             (checkMenu hasPdf hasMenu b)))).

(** *** Usability checks (25 points) *)

Definition hasOrdering_of (q : cheerio) (bodyText : string) : bool :=
  JsString.includes bodyText "order online" ||
  JsString.includes bodyText "order now" ||
  a_href_contains q "order" ||
  a_href_contains q "doordash" ||
  a_href_contains q "ubereats" ||
  a_href_contains q "grubhub".

Definition hasReservation_of (q : cheerio) (bodyText : string) : bool :=
  JsString.includes bodyText "reserv" ||
  JsString.includes bodyText "book a table" ||
  a_href_contains q "opentable" ||
  a_href_contains q "resy".

Definition hasSocialLinks_of (q : cheerio) : bool :=
  a_href_contains q "facebook.com" ||
  a_href_contains q "instagram.com" ||
  a_href_contains q "twitter.com" ||
  a_href_contains q "tiktok.com".

Definition hasClickablePhone_of (q : cheerio) : bool := a_href_starts q "tel:".

Definition hasGoogleMaps_of (q : cheerio) : bool :=
  iframe_src_contains q "google.com/maps" ||
  a_href_contains q "maps.google" ||
  a_href_contains q "goo.gl/maps".

Definition checkOrdering (hasOrdering : bool) (b : bucket) : bucket :=
  if hasOrdering then award 8 b
  else push error "No online ordering option found - you're losing sales!" b.

Definition checkReservation (hasReservation : bool) (b : bucket) : bucket :=
  if hasReservation then award 5 b
  else push info "No reservation system detected" b.

Definition checkSocialLinks (hasSocialLinks : bool) (b : bucket) : bucket :=
  if hasSocialLinks then award 4 b
  else push warning "No social media links found" b.

Definition checkClickablePhone (hasClickablePhone hasPhone : bool) (b : bucket)
  : bucket :=
  if hasClickablePhone then award 4 b
  else if hasPhone then push warning "Phone number not clickable on mobile" b
  else b.

Definition checkGoogleMaps (hasGoogleMaps : bool) (b : bucket) : bucket :=
  if hasGoogleMaps then award 4 b
  else push info "Consider embedding Google Maps" b.

Definition usabilityChecks (q : cheerio) (bodyText : string) (b : bucket) : bucket :=
  let hasPhone := hasPhone_of q bodyText in
  let hasOrdering := hasOrdering_of q bodyText in
  let hasReservation := hasReservation_of q bodyText in
  let hasSocialLinks := hasSocialLinks_of q in
  let hasClickablePhone := hasClickablePhone_of q in
  let hasGoogleMaps := hasGoogleMaps_of q in
  checkGoogleMaps hasGoogleMaps
    (checkClickablePhone hasClickablePhone hasPhone
       (checkSocialLinks hasSocialLinks
          (checkReservation hasReservation
             (checkOrdering hasOrdering b)))).

(** *** Technical checks (20 points) *)

Definition checkViewport (hasViewport : bool) (b : bucket) : bucket :=
  if hasViewport then award 6 b
  else push error "Not mobile-friendly - missing viewport meta tag" b.

Definition checkHttps (hasHttps : bool) (b : bucket) : bucket :=
  if hasHttps then award 5 b
  else push error "Site not secure (no HTTPS) - Google penalizes this" b.

Definition checkFavicon (hasFavicon : bool) (b : bucket) : bucket :=
  if hasFavicon then award 3 b
  else push info "Missing favicon" b.

Definition checkStructuredData (hasStructuredData : bool) (b : bucket) : bucket :=
  if hasStructuredData then award 6 b
  else
    push warning
      "No structured data (Schema.org) - missing rich snippets in Google" b.

(** The text of the slow load warning:
    [`Slow load time (${(loadTime / 1000).toFixed(1)}s) - aim for under 3 seconds`] *)
Definition slowLoad (loadTime : Z) : string :=
  "Slow load time (" ++ Number.toFixed1 (Number.div loadTime 1000) ++
  "s) - aim for under 3 seconds".

(** A number is truthy when it is not zero (and not NaN); [loadTime] is
    an integer. *)
Definition truthyZ (z : Z) : bool := negb (z =? 0).

Definition checkLoadTime (loadTime : Z) (b : bucket) : bucket :=
  if truthyZ loadTime && (loadTime <? 2000) then award 2 b
  else if truthyZ loadTime && (5000 <? loadTime) then
    push warning (slowLoad loadTime) b
  else b.

Definition technicalChecks (q : cheerio) (url : string) (loadTime : Z) (b : bucket)
  : bucket :=
  let hasViewport := present (meta_viewport q) in
  let hasHttps := JsString.startsWith url "https" in
  let hasFavicon := present (link_icon q) || present (link_shortcut_icon q) in
  let hasStructuredData := present (script_ld_json q) in
  checkLoadTime loadTime
    (checkStructuredData hasStructuredData
       (checkFavicon hasFavicon
          (checkHttps hasHttps
             (checkViewport hasViewport b)))).

(** *** The report *)

(** [results] *)
Record results : Type :=
  { seo : bucket; content : bucket; usability : bucket; technical : bucket }.

Definition initial : results :=
  {| seo := {| score := 0; maxScore := 30; issues := [] |};
     content := {| score := 0; maxScore := 25; issues := [] |};
     usability := {| score := 0; maxScore := 25; issues := [] |};
     technical := {| score := 0; maxScore := 20; issues := [] |} |}.

(** The four blocks of checks, in the order of the program. *)
Definition evaluate (q : cheerio) (bodyText url : string) (loadTime : Z) : results :=
  {| seo := seoChecks q (seo initial);
     content := contentChecks q bodyText (content initial);
     usability := usabilityChecks q bodyText (usability initial);
     technical := technicalChecks q url loadTime (technical initial) |}.

(** [issues.map((i) => ({ ...i, category: c }))] *)
Definition tagged (c : category) (l : list finding) : list issue :=
  map (fun i => {| i_type := type i; i_text := text i; i_category := c |}) l.

(** [allIssues], before it is sorted. *)
Definition collected (r : results) : list issue :=
  tagged SEO (issues (seo r)) ++
  tagged Content (issues (content r)) ++
  tagged Usability (issues (usability r)) ++
  tagged Technical (issues (technical r)).

(** [priority] *)
Definition priority (t : severity) : Z :=
  match t with error => 0 | warning => 1 | info => 2 end.

(** [Array.prototype.sort] with a comparator: the sort of ECMAScript is
    stable, and the result is the stable sorted arrangement whatever the
    algorithm; here by insertion, an element going before the first one
    it does not exceed. *)
Fixpoint insert {A : Type} (cmp : A -> A -> Z) (x : A) (l : list A) : list A :=
  match l with
  | [] => [x]
  | y :: l' => if cmp x y <=? 0 then x :: l else y :: insert cmp x l'
  end.

Fixpoint sort {A : Type} (cmp : A -> A -> Z) (l : list A) : list A :=
  match l with
  | [] => []
  | x :: l' => insert cmp x (sort cmp l')
  end.

(** [(a, b) => priority[a.type] - priority[b.type]] *)
Definition bySeverity (a b : issue) : Z :=
  priority (i_type a) - priority (i_type b).

(** The issues of one severity, and the place of a category in the order
    of evaluation. *)
Definition hasSeverity (t : severity) (i : issue) : bool :=
  match i_type i, t with
  | error, error | warning, warning | info, info => true
  | _, _ => false
  end.

Definition categoryRank (c : category) : nat :=
  match c with SEO => 0 | Content => 1 | Usability => 2 | Technical => 3 end.

(** [Math.round((score / maxScore) * 100)] *)
Definition percent (score maxScore : nat) : number :=
  Number.round (Number.mul (Number.div (Z.of_nat score) (Z.of_nat maxScore)) 100).

(** An entry of [breakdown]. *)
Record categoryScore : Type :=
  { cs_score : nat; cs_maxScore : nat; cs_percentage : number }.

Definition summary (b : bucket) : categoryScore :=
  {| cs_score := score b; cs_maxScore := maxScore b;
     cs_percentage := percent (score b) (maxScore b) |}.

Record breakdown : Type :=
  { bd_seo : categoryScore; bd_content : categoryScore;
    bd_usability : categoryScore; bd_technical : categoryScore }.

(** What [gradeWebsite] returns: [{ score, breakdown, issues }]. *)
Record grade : Type :=
  { g_score : number; g_breakdown : breakdown; g_issues : list issue }.

Definition totalScore_of (r : results) : nat :=
  (score (seo r) + score (content r) + score (usability r) + score (technical r))%nat.

Definition maxScore_of (r : results) : nat :=
  (maxScore (seo r) + maxScore (content r) + maxScore (usability r)
   + maxScore (technical r))%nat.

Definition gradeWebsite (q : cheerio) (bodyText url : string) (loadTime : Z) : grade :=
  let r := evaluate q bodyText url loadTime in
  let totalScore := totalScore_of r in
  let maxScore := maxScore_of r in
  let allIssues := sort bySeverity (collected r) in
  {| g_score := percent totalScore maxScore;
     g_breakdown :=
       {| bd_seo := summary (seo r);
          bd_content := summary (content r);
          bd_usability := summary (usability r);
          bd_technical := summary (technical r) |};
     g_issues := allIssues |}.

(** ** JSON

    [JSON.parse] on the grammar of ECMA-404.  A string value is a list of
    code units, since an escape can denote any 16-bit unit; a number is
    kept as its lexeme.  An object keeps its members in source order; a
    later member of the same name shadows an earlier one. *)

Module Json.

#[local] Set Warnings "-register-all".

Inductive json : Type :=
| JNull
| JBool (b : bool)
| JNumber (lexeme : string)
| JString (units : list N)
| JArray (items : list json)
| JObject (members : list (list N * json)).

Definition unit (c : ascii) : N := N_of_ascii c.

Fixpoint units (s : string) : list N :=
  match s with
  | EmptyString => []
  | String c s' => unit c :: units s'
  end.

Definition isWs (c : ascii) : bool :=
  Ascii.eqb c " " || Ascii.eqb c "009" || Ascii.eqb c "010" || Ascii.eqb c "013".

Fixpoint skipWs (s : string) : string :=
  match s with
  | String c s' => if isWs c then skipWs s' else s
  | EmptyString => s
  end.

Definition isDigit (c : ascii) : bool :=
  let n := nat_of_ascii c in ((48 <=? n) && (n <=? 57))%nat.

Definition hexValue (c : ascii) : option N :=
  let n := nat_of_ascii c in
  if ((48 <=? n) && (n <=? 57))%nat then Some (N.of_nat (n - 48))
  else if ((65 <=? n) && (n <=? 70))%nat then Some (N.of_nat (n - 55))
  else if ((97 <=? n) && (n <=? 102))%nat then Some (N.of_nat (n - 87))
  else None.

Definition hex4 (a b c d : ascii) : option N :=
  match hexValue a, hexValue b, hexValue c, hexValue d with
  | Some x, Some y, Some z, Some t =>
      Some (((x * 16 + y) * 16 + z) * 16 + t)%N
  | _, _, _, _ => None
  end.

(** The characters of a string after its opening quote, up to the
    closing one. *)
Fixpoint chars (s : string) (acc : list N) : option (list N * string) :=
  match s with
  | EmptyString => None
  | String c r =>
      if Ascii.eqb c "034" then Some (rev acc, r)
      else if Ascii.eqb c "\" then
        match r with
        | String e r' =>
            if Ascii.eqb e "034" then chars r' (34%N :: acc)
            else if Ascii.eqb e "\" then chars r' (92%N :: acc)
            else if Ascii.eqb e "/" then chars r' (47%N :: acc)
            else if Ascii.eqb e "b" then chars r' (8%N :: acc)
            else if Ascii.eqb e "f" then chars r' (12%N :: acc)
            else if Ascii.eqb e "n" then chars r' (10%N :: acc)
            else if Ascii.eqb e "r" then chars r' (13%N :: acc)
            else if Ascii.eqb e "t" then chars r' (9%N :: acc)
            else if Ascii.eqb e "u" then
              match r' with
              | String h1 (String h2 (String h3 (String h4 r''))) =>
                  match hex4 h1 h2 h3 h4 with
                  | Some u => chars r'' (u :: acc)
                  | None => None
                  end
              | _ => None
              end
            else None
        | EmptyString => None
        end
      else if (nat_of_ascii c <? 32)%nat then None
      else chars r (unit c :: acc)
  end.

(** The longest run of digits at the head of a string. *)
Fixpoint digits (s : string) : string * string :=
  match s with
  | String c r =>
      if isDigit c then let '(d, r') := digits r in (String c d, r')
      else (EmptyString, s)
  | EmptyString => (EmptyString, s)
  end.

(** The integer part: [0], or a digit from 1 to 9 and digits. *)
Definition intPart (s : string) : option (string * string) :=
  match s with
  | String c r =>
      if Ascii.eqb c "0" then Some ("0"%string, r)
      else if isDigit c then let '(d, r') := digits r in Some (String c d, r')
      else None
  | EmptyString => None
  end.

Definition fracPart (s : string) : option (string * string) :=
  match s with
  | String "." r =>
      match digits r with
      | (EmptyString, _) => None
      | (d, r') => Some (String "." d, r')
      end
  | _ => Some (EmptyString, s)
  end.

Definition expPart (s : string) : option (string * string) :=
  match s with
  | String c r =>
      if Ascii.eqb c "e" || Ascii.eqb c "E" then
        let '(sign, r1) :=
          match r with
          | String "+" r1 => ("+"%string, r1)
          | String "-" r1 => ("-"%string, r1)
          | _ => (EmptyString, r)
          end in
        match digits r1 with
        | (EmptyString, _) => None
        | (d, r') => Some ((String c sign ++ d)%string, r')
        end
      else Some (EmptyString, s)
  | EmptyString => Some (EmptyString, s)
  end.

Definition numberLexeme (s : string) : option (string * string) :=
  let '(sign, r0) :=
    match s with
    | String "-" r0 => ("-"%string, r0)
    | _ => (EmptyString, s)
    end in
  match intPart r0 with
  | None => None
  | Some (i, r1) =>
      match fracPart r1 with
      | None => None
      | Some (f, r2) =>
          match expPart r2 with
          | None => None
          | Some (x, r3) => Some ((sign ++ i ++ f ++ x)%string, r3)
          end
      end
  end.

Definition literal (word : string) (v : json) (s : string) : option (json * string) :=
  if String.prefix word s
  then Some (v, JsString.drop (String.length word) s)
  else None.

(** A value, the elements of an array after the first bracket, and the
    members of an object after the first brace.  Each call takes one
    unit of fuel. *)
Fixpoint value (fuel : nat) (s : string) : option (json * string) :=
  match fuel with
  | O => None
  | S fuel' =>
      match skipWs s with
      | String c r =>
          if Ascii.eqb c "[" then
            match skipWs r with
            | String "]" r' => Some (JArray [], r')
            | r1 =>
                match elements fuel' r1 [] with
                | Some (l, r') => Some (JArray l, r')
                | None => None
                end
            end
          else if Ascii.eqb c "{" then
            match skipWs r with
            | String "}" r' => Some (JObject [], r')
            | r1 =>
                match members fuel' r1 [] with
                | Some (l, r') => Some (JObject l, r')
                | None => None
                end
            end
          else if Ascii.eqb c "034" then
            match chars r [] with
            | Some (u, r') => Some (JString u, r')
            | None => None
            end
          else if Ascii.eqb c "t" then literal "true" (JBool true) (String c r)
          else if Ascii.eqb c "f" then literal "false" (JBool false) (String c r)
          else if Ascii.eqb c "n" then literal "null" JNull (String c r)
          else
            match numberLexeme (String c r) with
            | Some (x, r') => Some (JNumber x, r')
            | None => None
            end
      | EmptyString => None
      end
  end

with elements (fuel : nat) (s : string) (acc : list json)
  : option (list json * string) :=
  match fuel with
  | O => None
  | S fuel' =>
      match value fuel' s with
      | Some (v, r) =>
          match skipWs r with
          | String "," r' => elements fuel' r' (v :: acc)
          | String "]" r' => Some (rev (v :: acc), r')
          | _ => None
          end
      | None => None
      end
  end

with members (fuel : nat) (s : string) (acc : list (list N * json))
  : option (list (list N * json) * string) :=
  match fuel with
  | O => None
  | S fuel' =>
      match skipWs s with
      | String "034" r =>
          match chars r [] with
          | Some (k, r1) =>
              match skipWs r1 with
              | String ":" r2 =>
                  match value fuel' r2 with
                  | Some (v, r3) =>
                      match skipWs r3 with
                      | String "," r' => members fuel' r' ((k, v) :: acc)
                      | String "}" r' => Some (rev ((k, v) :: acc), r')
                      | _ => None
                      end
                  | None => None
                  end
              | _ => None
              end
          | None => None
          end
      | _ => None
      end
  end.

(** [JSON.parse(text)]: [None] when it throws a [SyntaxError].  Every
    call of the parser but the first comes after a character of the
    text was read, so twice the length is fuel enough. *)
Definition parse (text : string) : option json :=
  match value (2 * String.length text + 2) text with
  | Some (v, r) =>
      match skipWs r with
      | EmptyString => Some v
      | _ => None
      end
  | None => None
  end.

Definition eqUnits (k k' : list N) : bool :=
  if list_eq_dec N.eq_dec k k' then true else false.

(** [v[name]] on an object: the last member of that name. *)
Fixpoint lookup (name : list N) (ms : list (list N * json)) : option json :=
  match ms with
  | [] => None
  | (k, v) :: ms' =>
      match lookup name ms' with
      | Some v' => Some v'
      | None => if eqUnits k name then Some v else None
      end
  end.

Definition field (name : string) (v : json) : option json :=
  match v with
  | JObject ms => lookup (units name) ms
  | _ => None
  end.

Definition isString (v : json) : bool :=
  match v with JString _ => true | _ => false end.

End Json.

Import Json (json, JNull, JBool, JNumber, JString, JArray, JObject).

(** ** The world of a request

    What the handler does not compute: the URL parser of the platform,
    the answer of the page fetch, and the generative models.  A call is
    recorded in a trace; the console is left out. *)

(** The outcome of [axios.get(url, ...)], [Date.now()] around it and
    [cheerio.load]: an error with its message, or the page loaded, its
    visible body text and the milliseconds elapsed. *)
Inductive fetched : Type :=
| Failed (message : string)
| Loaded (q : cheerio) (body_text : string) (loadTime : Z).

(** The outcome of [model.generateContent(prompt)] and
    [response.text()]: an [Error] with its message, or the reply. *)
Inductive generated : Type :=
| Refused (message : string)
| Replied (reply : string).

Record world : Type :=
  { (** [new URL(s)] returns *)
    URL_parses : string -> bool;
    (** the fetch of a URL *)
    axios_get : string -> fetched;
    (** [genAI]: the client when [GEMINI_API_KEY] is set, by model name
        and prompt *)
    genAI : option (string -> string -> generated) }.

Inductive event : Type :=
| Fetch (url : string)
| Generate (modelName prompt : string).

(** A computation returns a value or throws an error with a message,
    and extends the trace. *)
Inductive result (A : Type) : Type :=
| Ok (a : A)
| Throw (message : string).

Arguments Ok {A} a.
Arguments Throw {A} message.

Definition M (A : Type) : Type := list event -> result A * list event.

Definition ret {A : Type} (a : A) : M A := fun t => (Ok a, t).

Definition throw {A : Type} (message : string) : M A := fun t => (Throw message, t).

Definition bind {A B : Type} (c : M A) (k : A -> M B) : M B :=
  fun t =>
    match c t with
    | (Ok a, t') => k a t'
    | (Throw message, t') => (Throw message, t')
    end.

(** [try { c } catch (error) { handler(error.message) }] *)
Definition tryCatch {A : Type} (c : M A) (handler : string -> M A) : M A :=
  fun t =>
    match c t with
    | (Ok a, t') => (Ok a, t')
    | (Throw message, t') => handler message t'
    end.

Definition emit (e : event) : M unit := fun t => (Ok tt, t ++ [e]).

Declare Scope js_scope.
Delimit Scope js_scope with js.
Notation "x <- c ;; k" := (bind c (fun x => k))
  (at level 61, c at next level, right associativity) : js_scope.
Notation "c ;; k" := (bind c (fun _ => k))
  (at level 61, right associativity) : js_scope.

(** [isValidUrl] *)
Definition isValidUrl (w : world) (s : string) : bool :=
  URL_parses w (if JsString.startsWith s "http" then s else "https://" ++ s).

(** *** The insight generator: [generateAIInsights] *)

Record websiteData : Type :=
  { wd_url : string; wd_title : string; wd_score : number; wd_loadTime : Z }.

(** [modelNames] *)
Definition modelNames : list string :=
  [ "gemini-2.5-flash"; "gemini-2.0-flash"; "gemini-1.5-flash-latest"; "gemini-pro" ].

Definition typeName (t : severity) : string :=
  match t with error => "error" | warning => "warning" | info => "info" end.

Definition categoryName (c : category) : string :=
  match c with
  | SEO => "SEO" | Content => "Content"
  | Usability => "Usability" | Technical => "Technical"
  end.

Definition newline : string := String "010" "".

(** [`- [${i.type.toUpperCase()}] ${i.text} (${i.category})`] *)
Definition issueLine (i : issue) : string :=
  "- [" ++ JsString.toUpperCase (typeName (i_type i)) ++ "] " ++ i_text i ++
  " (" ++ categoryName (i_category i) ++ ")".

(** [prompt] *)
Definition prompt_of (d : websiteData) (issues : list issue) : string :=
  "You are a restaurant marketing expert. Analyze this restaurant website audit and provide actionable insights.

Website: " ++ wd_title d ++ " (" ++ wd_url d ++ ")
Score: " ++ Number.toString (wd_score d) ++ "/100
Load Time: " ++ JsString.ofZ (wd_loadTime d) ++ "ms

Issues Found:
" ++ String.concat newline (map issueLine issues) ++ "

Provide a JSON response with ONLY these fields (no markdown, no code blocks, just raw JSON):
{
  " ++ JsString.quoted "summary" ++ ": " ++
  JsString.quoted "A 2-sentence summary of the website's online presence" ++ ",
  " ++ JsString.quoted "topPriority" ++ ": " ++
  JsString.quoted "The single most important thing to fix and why (1-2 sentences)" ++ ",
  " ++ JsString.quoted "quickWins" ++ ": [" ++ JsString.quoted "Easy fix 1" ++ ", " ++
  JsString.quoted "Easy fix 2" ++ ", " ++ JsString.quoted "Easy fix 3" ++ "],
  " ++ JsString.quoted "competitorTip" ++ ": " ++
  JsString.quoted "One tip about what successful restaurants do differently" ++ ",
  " ++ JsString.quoted "estimatedImpact" ++ ": " ++ JsString.quoted "20-30%" ++ "
}

Respond ONLY with valid JSON. No explanation, no markdown.".

(** [model.generateContent(prompt)] and [response.text()] *)
Definition generateContent (client : string -> string -> generated)
  (modelName prompt : string) : M string :=
  (emit (Generate modelName prompt) ;;
   match client modelName prompt with
   | Replied reply => ret reply
   | Refused message => throw message
   end)%js.

(** [text.replace(/```json\n?/g, "").replace(/```\n?/g, "").trim()] *)
Definition unfence (text : string) : string :=
  let n := S (String.length text) in
  JsString.trim
    (JsString.removeAll n "```" "010" (JsString.removeAll n "```json" "010" text)).

(** [JSON.parse(text)] *)
Definition JSON_parse (text : string) : M json :=
  match Json.parse text with
  | Some v => ret v
  | None => throw "Unexpected token in JSON"
  end.

(** How the body of the loop ends: [return parsed] or [continue]. *)
Inductive completion : Type :=
| Return (parsed : json)
| Continue.

(** The body of the loop over [modelNames]. *)
Definition attempt (client : string -> string -> generated)
  (prompt modelName : string) : M completion :=
  tryCatch
    (text <- generateContent client modelName prompt ;;
     parsed <- JSON_parse (unfence text) ;;
     ret (Return parsed))%js
    (fun _ => ret Continue).

(** [for (const modelName of names) { ... }], then [return null]. *)
Fixpoint tryModels (client : string -> string -> generated)
  (prompt : string) (names : list string) : M json :=
  match names with
  | [] => ret JNull
  | modelName :: rest =>
      (c <- attempt client prompt modelName ;;
       match c with
       | Return parsed => ret parsed
       | Continue => tryModels client prompt rest
       end)%js
  end.

Definition generateAIInsights (w : world) (d : websiteData) (issues : list issue)
  : M json :=
  match genAI w with
  | None => ret JNull
  | Some client => tryModels client (prompt_of d issues) modelNames
  end.

(** *** The handler of [POST /grade] *)

(** The value of the property [url] of the body of a request. *)
Inductive jsval : Type :=
| JsUndefined
| JsNull
| JsBoolean (b : bool)
| JsNumber (x : number)
| JsString (s : string)
| JsObject.

(** [!url || typeof url !== "string"] is false: a string that is not
    empty. *)
Definition requiredUrl (url : jsval) : option string :=
  match url with
  | JsString s => if JsString.truthy s then Some s else None
  | _ => None
  end.

(** The body of the response of a scan. *)
Record report : Type :=
  { r_url : string;
    r_score : number;
    r_breakdown : breakdown;
    r_issues : list issue;
    r_title : string;
    r_loadTime : Z;
    r_aiInsights : json }.

Inductive payload : Type :=
| ErrorBody (error : string)
| ReportBody (r : report).

Record response : Type := { status : nat; body : payload }.

(** [url = "https://" + url] unless [url.startsWith("http")] *)
Definition normalized (url : string) : string :=
  if JsString.startsWith url "http" then url else "https://" ++ url.

(** [title.substring(0, 60) + (title.length > 60 ? "..." : "")] *)
Definition shownTitle (title : string) : string :=
  JsString.substring title 0 60 ++
  (if (60 <? String.length title)%nat then "..." else "").

(** [axios.get(url, ...)], the clock and [cheerio.load] *)
Definition fetchPage (w : world) (url : string) : M (cheerio * string * Z) :=
  (emit (Fetch url) ;;
   match axios_get w url with
   | Loaded q body_text loadTime => ret (q, body_text, loadTime)
   | Failed message => throw message
   end)%js.

Definition scan (w : world) (url : string) : M response :=
  (page <- fetchPage w url ;;
   let '(q, body_text, loadTime) := page in
   let title := title_text q in
   let bodyText := JsString.toLowerCase body_text in
   let g := gradeWebsite q bodyText url loadTime in
   let d := {| wd_url := url; wd_title := JsString.substring title 0 60;
               wd_score := g_score g; wd_loadTime := loadTime |} in
   aiInsights <- generateAIInsights w d (g_issues g) ;;
   ret {| status := 200;
          body := ReportBody
                    {| r_url := url;
                       r_score := g_score g;
                       r_breakdown := g_breakdown g;
                       r_issues := g_issues g;
                       r_title := shownTitle title;
                       r_loadTime := loadTime;
                       r_aiInsights := aiInsights |} |})%js.

(** The handler from its first guard on (l. 449-514), [url] being what
    the destructuring of [req.body] gave. *)
Definition postGrade (w : world) (url : jsval) : M response :=
  match requiredUrl url with
  | None => ret {| status := 400; body := ErrorBody "URL is required" |}
  | Some url =>
      if negb (isValidUrl w url) then
        ret {| status := 400; body := ErrorBody "Invalid URL format" |}
      else
        let url := normalized url in
        tryCatch (scan w url)
          (fun message =>
             ret {| status := 500;
                    body := ErrorBody ("Could not scan site: " ++ message) |})
  end.

(** [req.body] as [express.json()] leaves it: [undefined] when the
    request brought no body that the middleware parses, as Express 5
    has it; else the value parsed, an object or an array, given here by
    the value of its property [url], [undefined] when it has none. *)
Inductive reqBody : Type :=
| BodyUndefined
| BodyParsed (url : jsval).

(** [let { url } = req.body]: destructuring [undefined] throws a
    TypeError. *)
Definition destructureUrl (body : reqBody) : M jsval :=
  match body with
  | BodyUndefined =>
      throw "Cannot destructure property 'url' of 'req.body' as it is undefined."
  | BodyParsed url => ret url
  end.

(** [app.post("/grade", async (req, res) => { ... })].  The
    destructuring stands before the guards and outside the [try]: what
    it throws leaves the handler, and is for Express to answer. *)
Definition app_post_grade (w : world) (body : reqBody) : M response :=
  (url <- destructureUrl body ;;
   postGrade w url)%js.

(** A request runs from the empty trace. *)
Definition run {A : Type} (c : M A) : result A * list event := c [].

(** ** Words of the specification *)

(** A bucket without the issue of the missing hours. *)
Definition silent (b : bucket) : Prop :=
  Forall (fun i => text i <> hoursMissing) (issues b).

(** The value a model yields at [prompt]: what [JSON.parse] makes of its
    reply without the code fences, when it replies and the reply parses. *)
Definition parsedReply (client : string -> string -> generated)
  (prompt modelName : string) : option json :=
  match client modelName prompt with
  | Replied reply => Json.parse (unfence reply)
  | Refused _ => None
  end.

(** The calls of the models [names], in order. *)
Definition calls (prompt : string) (names : list string) : list event :=
  map (fun m => Generate m prompt) names.

(** A trace without a fetch. *)
Definition noFetch (t : list event) : Prop := forall u, ~ In (Fetch u) t.

(** An insight whose [quickWins] is an array of exactly three strings. *)
Definition threeQuickWins (v : json) : bool :=
  match Json.field "quickWins" v with
  | Some (JArray [a; b; c]) => Json.isString a && Json.isString b && Json.isString c
  | _ => false
  end.

(** A string that begins with a scheme, as the URL parser of the platform
    reads it: leading C0 controls and spaces are dropped and tabs and
    line breaks removed, then come a letter, any letters, digits, [+],
    [-] and [.], and a colon. *)
Fixpoint dropLeading (s : string) : string :=
  match s with
  | String c r => if (nat_of_ascii c <=? 32)%nat then dropLeading r else s
  | EmptyString => s
  end.

Fixpoint removeTabNewline (s : string) : string :=
  match s with
  | String c r =>
      if Ascii.eqb c "009" || Ascii.eqb c "010" || Ascii.eqb c "013"
      then removeTabNewline r
      else String c (removeTabNewline r)
  | EmptyString => s
  end.

Definition isAlpha (c : ascii) : bool :=
  let n := nat_of_ascii c in
  (((65 <=? n) && (n <=? 90)) || ((97 <=? n) && (n <=? 122)))%nat.

Definition isSchemeChar (c : ascii) : bool :=
  isAlpha c || Json.isDigit c || Ascii.eqb c "+" || Ascii.eqb c "-" || Ascii.eqb c ".".

Fixpoint schemeEnds (s : string) : bool :=
  match s with
  | String c r =>
      if Ascii.eqb c ":" then true
      else if isSchemeChar c then schemeEnds r
      else false
  | EmptyString => false
  end.

Definition hasScheme (s : string) : bool :=
  match removeTabNewline (dropLeading s) with
  | String c r => isAlpha c && schemeEnds r
  | EmptyString => false
  end.

(** ** Pages and worlds of the examples *)

(** A page that passes every check. *)
Definition fullMarks : cheerio :=
  {| title_text := "Trattoria Roma - Italian Restaurant in Boston";
     meta_description :=
       [ Some "Family-run Italian restaurant in Boston serving handmade pasta, wood-fired pizza and seasonal dishes. Open daily for lunch and dinner." ];
     h1 := 1; link_canonical := 1; meta_og_title := 1; meta_viewport := 1;
     link_icon := 1; link_shortcut_icon := 0; script_ld_json := 1;
     a_href := [ "/menu"; "https://www.doordash.com/store/roma";
                 "https://www.opentable.com/roma";
                 "https://www.instagram.com/trattoriaroma";
                 "tel:+16175550100"; "https://maps.google.com/?q=roma" ];
     img_alt := [ Some "pasta"; Some "pizza"; Some "dining room";
                  Some "terrace"; Some "tiramisu" ];
     iframe_src := [] |}.

Definition fullMarksText : string := "our menu opening hours address".

(** A page with nothing on it. *)
Definition blank : cheerio :=
  {| title_text := ""; meta_description := [];
     h1 := 0; link_canonical := 0; meta_og_title := 0; meta_viewport := 0;
     link_icon := 0; link_shortcut_icon := 0; script_ld_json := 0;
     a_href := []; img_alt := []; iframe_src := [] |}.

(** Six pictures, one of them described. *)
Definition gallery : cheerio :=
  {| title_text := "Roma"; meta_description := [];
     h1 := 1; link_canonical := 0; meta_og_title := 0; meta_viewport := 0;
     link_icon := 0; link_shortcut_icon := 0; script_ld_json := 0;
     a_href := [];
     img_alt := [ Some "pasta"; None; Some " "; Some ""; None; None ];
     iframe_src := [] |}.

(** A platform that takes any string with a scheme for a URL; the page
    served at every URL and the models are those given. *)
Definition serving (page : fetched)
  (models : option (string -> string -> generated)) : world :=
  {| URL_parses := hasScheme; axios_get := fun _ => page; genAI := models |}.

(** A model that wraps one quick win in a code fence. *)
Definition oneQuickWin : string :=
  "```json
{" ++ JsString.quoted "summary" ++ ": " ++ JsString.quoted "A warm site." ++ ", " ++
  JsString.quoted "quickWins" ++ ": [" ++ JsString.quoted "Add opening hours" ++ "]}
```".

(** The host of the page cannot be resolved. *)
Definition unreachable : world :=
  serving (Failed "getaddrinfo ENOTFOUND nowhere.example") None.

(** No credential: the client of the models is [null]. *)
Definition noCredential : world :=
  serving (Loaded fullMarks "Our MENU, opening hours and address" 1500) None.

(** Every model replies with one quick win. *)
Definition modest : world :=
  serving (Loaded gallery "Family camp" 800) (Some (fun _ _ => Replied oneQuickWin)).

(** The first two models are down, the third replies. *)
Definition thirdAnswers : world :=
  serving (Loaded gallery "Family camp" 800)
    (Some (fun m _ =>
             if String.eqb m "gemini-1.5-flash-latest" then Replied oneQuickWin
             else Refused "503 Service Unavailable")).

Definition someSite : websiteData :=
  {| wd_url := "https://roma.example"; wd_title := "Roma";
     wd_score := Finite 40 0; wd_loadTime := 800 |}.

(** A title of 61 characters. *)
Definition longTitle : string :=
  "Trattoria Roma - Handmade Pasta and Wood-Fired Pizza - Boston".

(** A page with that title, served without a credential. *)
Definition wordy : world :=
  serving
    (Loaded
       {| title_text := longTitle; meta_description := [];
          h1 := 1; link_canonical := 0; meta_og_title := 0; meta_viewport := 1;
          link_icon := 0; link_shortcut_icon := 0; script_ld_json := 0;
          a_href := []; img_alt := []; iframe_src := [] |}
       "Welcome" 900)
    None.

(** A page with a link to its wine list. *)
Definition wineList : cheerio :=
  {| title_text := "Roma"; meta_description := [];
     h1 := 1; link_canonical := 0; meta_og_title := 0;
     meta_viewport := 0; link_icon := 0; link_shortcut_icon := 0;
     script_ld_json := 0; a_href := ["/files/wine-list.pdf"%string];
     img_alt := []; iframe_src := [] |}.

(** ** The texts of the issues *)

(** The texts a category has pushed, and those of a report. *)
Definition texts (b : bucket) : list string := map text (issues b).

Definition reportTexts (g : grade) : list string := map i_text (g_issues g).

Definition httpsMissing : string :=
  "Site not secure (no HTTPS) - Google penalizes this".

Definition phoneMissing : string := "Phone number not found".

Definition phoneNotClickable : string := "Phone number not clickable on mobile".

Definition pdfMenu : string :=
  "PDF menu detected - hard for Google to read, bad on mobile".

Definition menuMissing : string := "No menu found on homepage".

(** The bucket of a category in [results]. *)
Definition bucketOf (c : category) (r : results) : bucket :=
  match c with
  | SEO => seo r
  | Content => content r
  | Usability => usability r
  | Technical => technical r
  end.

(** ** The start of the server and the self-test [GET /test-ai] *)

(** [genAI] at the start: the client built from [GEMINI_API_KEY] when the
    variable is set and not empty and the constructor returns, [null]
    otherwise. *)
Definition initialize (GEMINI_API_KEY : option string)
  (construct : string -> option (string -> string -> generated))
  : option (string -> string -> generated) :=
  match GEMINI_API_KEY with
  | Some key => if JsString.truthy key then construct key else None
  | None => None
  end.

(** [!!process.env.GEMINI_API_KEY] *)
Definition apiKeyFound (GEMINI_API_KEY : option string) : bool :=
  match GEMINI_API_KEY with
  | Some key => JsString.truthy key
  | None => false
  end.

Inductive testStatus : Type := TestSuccess | TestError.

(** An entry of [results]: [{ model, status, response }] or
    [{ model, status, message }]. *)
Record testResult : Type :=
  { tr_model : string; tr_status : testStatus; tr_text : string }.

(** The body of the answer of the self-test. *)
Inductive selfTest : Type :=
| NotInitialized (keyFound : bool)
| TestResults (results : list testResult).

(** ['Say "Hello" in JSON: {"message": "Hello"}'] *)
Definition testPrompt : string :=
  "Say " ++ JsString.quoted "Hello" ++ " in JSON: {" ++
  JsString.quoted "message" ++ ": " ++ JsString.quoted "Hello" ++ "}".

(** The body of the loop of the self-test: the results with the new
    entry, and whether the loop breaks. *)
Definition probe (client : string -> string -> generated) (modelName : string)
  (results : list testResult) : M (list testResult * bool) :=
  tryCatch
    (text <- generateContent client modelName testPrompt ;;
     ret (results ++ [ {| tr_model := modelName; tr_status := TestSuccess;
                          tr_text := JsString.substring text 0 100 |} ],
          true))%js
    (fun message =>
       ret (results ++ [ {| tr_model := modelName; tr_status := TestError;
                            tr_text := JsString.substring message 0 100 |} ],
            false)).

Fixpoint probeModels (client : string -> string -> generated)
  (names : list string) (results : list testResult) : M (list testResult) :=
  match names with
  | [] => ret results
  | modelName :: rest =>
      (p <- probe client modelName results ;;
       let '(results', stop) := p in
       if stop then ret results' else probeModels client rest results')%js
  end.

Definition testAi (w : world) (GEMINI_API_KEY : option string) : M selfTest :=
  match genAI w with
  | None => ret (NotInitialized (apiKeyFound GEMINI_API_KEY))
  | Some client =>
      (results <- probeModels client modelNames [] ;;
       ret (TestResults results))%js
  end.

(** ** The client: the bands of the score *)

(** [x >= y] *)
Definition number_ge (x y : number) : bool :=
  match x, y with
  | NaN, _ | _, NaN => false
  | Infinity s, Infinity s' => negb s || s'
  | Infinity s, Finite _ _ => negb s
  | Finite _ _, Infinity s => s
  | Finite m e, Finite m' e' =>
      let c := Z.min e e' in
      m' * 2 ^ (e' - c) <=? m * 2 ^ (e - c)
  end.

Record scoreColor : Type :=
  { sc_bg : string; sc_text : string; sc_light : string; sc_stroke : string }.

(** [getScoreColor] *)
Definition getScoreColor (score : number) : scoreColor :=
  if number_ge score (Finite 80 0) then
    {| sc_bg := "bg-green-500"; sc_text := "text-green-500";
       sc_light := "bg-green-100"; sc_stroke := "#22c55e" |}
  else if number_ge score (Finite 50 0) then
    {| sc_bg := "bg-yellow-500"; sc_text := "text-yellow-500";
       sc_light := "bg-yellow-100"; sc_stroke := "#eab308" |}
  else
    {| sc_bg := "bg-red-500"; sc_text := "text-red-500";
       sc_light := "bg-red-100"; sc_stroke := "#ef4444" |}.

(** [getScoreLabel] *)
Definition getScoreLabel (score : number) : string :=
  if number_ge score (Finite 80 0) then "Great"
  else if number_ge score (Finite 50 0) then "Fair"
  else "Poor".

(** Below a bound, a property of the natural numbers that computes is
    checked number by number. *)
Fixpoint below (n : nat) (p : nat -> bool) : bool :=
  match n with
  | O => p O
  | S n' => p n && below n' p
  end.

Definition sameNumber (x : number) (z : Z) : bool :=
  match x with
  | Finite m e => (m =? z) && (e =? 0)
  | _ => false
  end.

(** An entry of the self-test agrees with the answer of its model. *)
Definition agrees (client : string -> string -> generated) (e : testResult)
  : Prop :=
  match tr_status e, client (tr_model e) testPrompt with
  | TestSuccess, Replied reply => tr_text e = JsString.substring reply 0 100
  | TestError, Refused message => tr_text e = JsString.substring message 0 100
  | _, _ => False
  end.

(** The reply of [oneQuickWin] without its fence. *)
Definition oneQuickWinBody : string :=
  "{" ++ JsString.quoted "summary" ++ ": " ++ JsString.quoted "A warm site." ++ ", " ++
  JsString.quoted "quickWins" ++ ": [" ++ JsString.quoted "Add opening hours" ++ "]}".

Definition reservationMissing : string := "No reservation system detected".

(** [`Title length (${title.length} chars) should be 30-60 characters`] *)
Definition titleLength (n : nat) : string :=
  "Title length (" ++ JsString.ofNat n ++ " chars) should be 30-60 characters".

(** * Properties *)

(** ** Strings *)

Section StringFacts.

Lemma prefix_app (p s : string) : String.prefix p (p ++ s) = true.
Proof.
  induction p as [|c p IH]; simpl.
  - now destruct s.
  - destruct (ascii_dec c c) as [_|n]; [exact IH | now destruct n].
Qed.

Lemma includes_prefix (s sub : string) :
  String.prefix sub s = true -> JsString.includes s sub = true.
Proof. intros H. destruct s; cbn [JsString.includes]; now rewrite H. Qed.

Lemma includes_app (pre sub post : string) :
  JsString.includes (pre ++ sub ++ post) sub = true.
Proof.
  induction pre as [|c pre IH].
  - cbn [append]. apply includes_prefix, prefix_app.
  - cbn [append JsString.includes]. rewrite IH. apply orb_true_r.
Qed.

Lemma length_app (s t : string) :
  String.length (s ++ t) = (String.length s + String.length t)%nat.
Proof. induction s as [|c s IH]; simpl; [reflexivity | now rewrite IH]. Qed.

Lemma length_substring_0 (n : nat) (s : string) :
  String.length (String.substring 0 n s) = Nat.min n (String.length s).
Proof.
  revert s. induction n as [|n IH]; intros [|c s]; simpl; try reflexivity.
  now rewrite IH.
Qed.

Lemma substring_0_all (n : nat) (s : string) :
  (String.length s <= n)%nat -> String.substring 0 n s = s.
Proof.
  revert s. induction n as [|n IH]; intros [|c s] H; simpl in *;
    try reflexivity; try lia.
  f_equal. apply IH. lia.
Qed.

Lemma append_assoc (s t u : string) : ((s ++ t) ++ u = s ++ t ++ u)%string.
Proof. induction s as [|c s IH]; simpl; [reflexivity | now rewrite IH]. Qed.

Lemma append_empty_r (s : string) : (s ++ "")%string = s.
Proof. induction s as [|c s IH]; simpl; [reflexivity | now rewrite IH]. Qed.

End StringFacts.

(** ** The stable sort *)

Section StableSort.

Context {A : Type}.
Variables (key : A -> Z) (cmp : A -> A -> Z).
Hypothesis cmp_key : forall a b, cmp a b = key a - key b.

Lemma insert_perm (x : A) (l : list A) : Permutation (x :: l) (insert cmp x l).
Proof.
  induction l as [|y l IH]; simpl.
  - apply Permutation_refl.
  - destruct (cmp x y <=? 0).
    + apply Permutation_refl.
    + eapply perm_trans; [apply perm_swap|]. now apply perm_skip.
Qed.

Lemma sort_perm (l : list A) : Permutation l (sort cmp l).
Proof.
  induction l as [|x l IH]; simpl.
  - apply perm_nil.
  - eapply perm_trans; [apply perm_skip, IH | apply insert_perm].
Qed.

Lemma insert_Forall (P : A -> Prop) (x : A) (l : list A) :
  P x -> Forall P l -> Forall P (insert cmp x l).
Proof.
  intros Hx Hl. eapply Permutation_Forall; [apply insert_perm|].
  now constructor.
Qed.

Lemma insert_sorted (x : A) (l : list A) :
  StronglySorted (fun a b => key a <= key b) l -> StronglySorted (fun a b => key a <= key b) (insert cmp x l).
Proof.
  induction 1 as [|y l Hs IH Hy]; simpl.
  - repeat constructor.
  - destruct (Z.leb_spec (cmp x y) 0) as [Hc|Hc]; rewrite cmp_key in Hc.
    + constructor; [now constructor|].
      constructor; [lia|].
      eapply Forall_impl; [|exact Hy]. intros a Ha. cbv beta in Ha. lia.
    + constructor; [exact IH|].
      apply insert_Forall; [lia | exact Hy].
Qed.

Lemma sort_sorted (l : list A) : StronglySorted (fun a b => key a <= key b) (sort cmp l).
Proof.
  induction l as [|x l IH]; simpl; [constructor | now apply insert_sorted].
Qed.

Lemma insert_stable (k : Z) (x : A) (l : list A) :
  filter (fun a => key a =? k) (insert cmp x l) = filter (fun a => key a =? k) (x :: l).
Proof.
  induction l as [|y l IH]; [reflexivity|].
  cbn [insert]. destruct (Z.leb_spec (cmp x y) 0) as [Hc|Hc]; [reflexivity|].
  rewrite cmp_key in Hc. cbn [filter] in *. rewrite IH.
  destruct (Z.eqb_spec (key x) k), (Z.eqb_spec (key y) k); try reflexivity.
  lia.
Qed.

Lemma sort_stable (k : Z) (l : list A) :
  filter (fun a => key a =? k) (sort cmp l) = filter (fun a => key a =? k) l.
Proof.
  induction l as [|x l IH]; [reflexivity|].
  cbn [sort]. rewrite insert_stable. cbn [filter]. now rewrite IH.
Qed.

End StableSort.

(** ** The points of each block of checks *)

Ltac split_ifs :=
  repeat match goal with
         | |- context [if ?c then _ else _] => destruct c
         end.

(** A check adds at most its points to a bucket. *)
Ltac check_points f :=
  intros; unfold f; split_ifs; cbn [score award push]; lia.

Section Points.

Variables (b : bucket) (n : nat).
Hypothesis within : (score b <= n)%nat.

Lemma checkTitle_points t : (score (checkTitle t b) <= 8 + n)%nat.
Proof. revert within. check_points checkTitle. Qed.

Lemma checkDescription_points d : (score (checkDescription d b) <= 8 + n)%nat.
Proof. revert within. check_points checkDescription. Qed.

Lemma checkH1_points h : (score (checkH1 h b) <= 6 + n)%nat.
Proof. revert within. check_points checkH1. Qed.

Lemma checkCanonical_points c : (score (checkCanonical c b) <= 4 + n)%nat.
Proof. revert within. check_points checkCanonical. Qed.

Lemma checkOgTags_points c : (score (checkOgTags c b) <= 4 + n)%nat.
Proof. revert within. check_points checkOgTags. Qed.

Lemma checkMenu_points p m : (score (checkMenu p m b) <= 8 + n)%nat.
Proof. revert within. check_points checkMenu. Qed.

Lemma checkHours_points h : (score (checkHours h b) <= 5 + n)%nat.
Proof. revert within. check_points checkHours. Qed.

Lemma checkAddress_points a : (score (checkAddress a b) <= 4 + n)%nat.
Proof. revert within. check_points checkAddress. Qed.

Lemma checkPhone_points p : (score (checkPhone p b) <= 4 + n)%nat.
Proof. revert within. check_points checkPhone. Qed.

Lemma checkImages_points c a : (score (checkImages c a b) <= 4 + n)%nat.
Proof. revert within. check_points checkImages. Qed.

Lemma checkOrdering_points o : (score (checkOrdering o b) <= 8 + n)%nat.
Proof. revert within. check_points checkOrdering. Qed.

Lemma checkReservation_points r : (score (checkReservation r b) <= 5 + n)%nat.
Proof. revert within. check_points checkReservation. Qed.

Lemma checkSocialLinks_points s : (score (checkSocialLinks s b) <= 4 + n)%nat.
Proof. revert within. check_points checkSocialLinks. Qed.

Lemma checkClickablePhone_points c p : (score (checkClickablePhone c p b) <= 4 + n)%nat.
Proof. revert within. check_points checkClickablePhone. Qed.

Lemma checkGoogleMaps_points g : (score (checkGoogleMaps g b) <= 4 + n)%nat.
Proof. revert within. check_points checkGoogleMaps. Qed.

Lemma checkViewport_points v : (score (checkViewport v b) <= 6 + n)%nat.
Proof. revert within. check_points checkViewport. Qed.

Lemma checkHttps_points h : (score (checkHttps h b) <= 5 + n)%nat.
Proof. revert within. check_points checkHttps. Qed.

Lemma checkFavicon_points f : (score (checkFavicon f b) <= 3 + n)%nat.
Proof. revert within. check_points checkFavicon. Qed.

Lemma checkStructuredData_points s : (score (checkStructuredData s b) <= 6 + n)%nat.
Proof. revert within. check_points checkStructuredData. Qed.

Lemma checkLoadTime_points t : (score (checkLoadTime t b) <= 2 + n)%nat.
Proof. revert within. check_points checkLoadTime. Qed.

End Points.

Ltac block_points :=
  repeat first
    [ eapply checkTitle_points | eapply checkDescription_points
    | eapply checkH1_points | eapply checkCanonical_points
    | eapply checkOgTags_points | eapply checkMenu_points
    | eapply checkHours_points | eapply checkAddress_points
    | eapply checkPhone_points | eapply checkImages_points
    | eapply checkOrdering_points | eapply checkReservation_points
    | eapply checkSocialLinks_points | eapply checkClickablePhone_points
    | eapply checkGoogleMaps_points | eapply checkViewport_points
    | eapply checkHttps_points | eapply checkFavicon_points
    | eapply checkStructuredData_points | eapply checkLoadTime_points ];
  cbn [initial seo content usability technical score]; lia.

(** The blocks of SEO, content and usability checks stay within their
    maximum; the technical checks can add up to 22 points. *)
Lemma seo_within_max q bodyText url loadTime :
  (score (seo (evaluate q bodyText url loadTime)) <= 30)%nat.
Proof. cbn [evaluate seo]. unfold seoChecks. block_points. Qed.

Lemma content_within_max q bodyText url loadTime :
  (score (content (evaluate q bodyText url loadTime)) <= 25)%nat.
Proof. cbn [evaluate content]. unfold contentChecks. block_points. Qed.

Lemma usability_within_max q bodyText url loadTime :
  (score (usability (evaluate q bodyText url loadTime)) <= 25)%nat.
Proof. cbn [evaluate usability]. unfold usabilityChecks. block_points. Qed.

Lemma technical_within_22 q bodyText url loadTime :
  (score (technical (evaluate q bodyText url loadTime)) <= 22)%nat.
Proof. cbn [evaluate technical]. unfold technicalChecks. block_points. Qed.

(** ** Which check says what *)

Lemma i_text_tagged (c : category) (l : list finding) :
  map i_text (tagged c l) = map text l.
Proof. unfold tagged. rewrite map_map. reflexivity. Qed.

(** A text is in the report when one of the four categories pushed it. *)
Lemma reportTexts_In (q : cheerio) (bodyText url : string) (loadTime : Z)
  (x : string) :
  let r := evaluate q bodyText url loadTime in
  In x (reportTexts (gradeWebsite q bodyText url loadTime))
  <-> In x (texts (seo r)) \/ In x (texts (content r))
      \/ In x (texts (usability r)) \/ In x (texts (technical r)).
Proof.
  intros r. unfold reportTexts. cbn [gradeWebsite g_issues]. fold r.
  assert (P : Permutation (map i_text (collected r))
                (map i_text (sort bySeverity (collected r))))
    by apply Permutation_map, (sort_perm bySeverity).
  assert (E : map i_text (collected r)
              = texts (seo r) ++ texts (content r) ++ texts (usability r)
                ++ texts (technical r)).
  { unfold collected, texts. now rewrite !map_app, !i_text_tagged. }
  split.
  - intros H. apply (Permutation_in _ (Permutation_sym P)) in H.
    rewrite E in H. rewrite !in_app_iff in H. exact H.
  - intros H. apply (Permutation_in _ P). rewrite E, !in_app_iff. exact H.
Qed.

Ltac show_texts :=
  unfold hoursMissing;
  cbn [texts issues push award map app initial seo content usability technical
       text append In].

(** The texts are told apart by their first characters. *)
Ltac refute H :=
  repeat match type of H with
         | _ \/ _ => destruct H as [H|H]; [discriminate H|]
         end;
  first [destruct H | discriminate H].

Ltac says :=
  show_texts; repeat split;
  first [ solve [ let H := fresh in intros H; refute H ]
        | solve [ match goal with H : _ \/ _ |- _ => refute H end ]
        | solve [ match goal with H : False |- _ => destruct H end ]
        | solve [ intros [? ?]; congruence ]
        | solve [ intros; first [ congruence | auto 8 | split; congruence ] ] ].

(** The points of the content, the usability and the technical checks,
    check by check. *)
Ltac block_score :=
  split_ifs; cbn [score award push initial content usability technical];
  reflexivity.

Lemma content_score (q : cheerio) (bodyText : string) :
  score (contentChecks q bodyText (content initial))
  = ((if hasPdf_of q then 2 else if hasMenu_of q bodyText then 8 else 0)
     + (if hasHours_of bodyText then 5 else 0)
     + (if hasAddress_of bodyText then 4 else 0)
     + (if hasPhone_of q bodyText then 4 else 0)
     + (if (5 <=? imageCount_of q)%nat then 4 else 0))%nat.
Proof.
  unfold contentChecks, checkImages, checkPhone, checkAddress, checkHours,
    checkMenu.
  block_score.
Qed.

Lemma usability_score (q : cheerio) (bodyText : string) :
  score (usabilityChecks q bodyText (usability initial))
  = ((if hasOrdering_of q bodyText then 8 else 0)
     + (if hasReservation_of q bodyText then 5 else 0)
     + (if hasSocialLinks_of q then 4 else 0)
     + (if hasClickablePhone_of q then 4 else 0)
     + (if hasGoogleMaps_of q then 4 else 0))%nat.
Proof.
  unfold usabilityChecks, checkGoogleMaps, checkClickablePhone,
    checkSocialLinks, checkReservation, checkOrdering.
  block_score.
Qed.

Lemma technical_score (q : cheerio) (url : string) (loadTime : Z) :
  score (technicalChecks q url loadTime (technical initial))
  = ((if present (meta_viewport q) then 6 else 0)
     + (if JsString.startsWith url "https" then 5 else 0)
     + (if present (link_icon q) || present (link_shortcut_icon q) then 3 else 0)
     + (if present (script_ld_json q) then 6 else 0)
     + (if truthyZ loadTime && (loadTime <? 2000)%Z then 2 else 0))%nat.
Proof.
  unfold technicalChecks, checkLoadTime, checkStructuredData, checkFavicon,
    checkHttps, checkViewport.
  block_score.
Qed.

(** C1. The claim bounds every category by its [maxScore] and the total
    by 100.  The technical checks are worth 6 + 5 + 3 + 6 + 2 = 22 points
    against a [maxScore] of 20: on a page that passes every check, fetched
    over https in 1500 ms, the technical score is 22 of 20, its percentage
    110 and the total 102. *)
Theorem technical_score_exceeds_maxScore :
  let r := evaluate fullMarks fullMarksText "https://roma.example" 1500 in
  let g := gradeWebsite fullMarks fullMarksText "https://roma.example" 1500 in
  score (technical r) = 22%nat
  /\ maxScore (technical r) = 20%nat
  /\ cs_percentage (bd_technical (g_breakdown g)) = Finite 110 0
  /\ totalScore_of r = 102%nat
  /\ g_score g = Finite 102 0.
Proof. vm_compute. repeat split. Qed.

(** ** The order of the issues *)

Lemma hasSeverity_priority (t : severity) (i : issue) :
  hasSeverity t i = (priority (i_type i) =? priority t).
Proof. unfold hasSeverity. now destruct (i_type i), t. Qed.

Lemma sorted_app {A : Type} (R : A -> A -> Prop) (l1 l2 : list A) :
  StronglySorted R l1 -> StronglySorted R l2 ->
  (forall a b, In a l1 -> In b l2 -> R a b) ->
  StronglySorted R (l1 ++ l2).
Proof.
  induction 1 as [|x l1 Hs IH Hx]; intros H2 Hc; simpl; [exact H2|].
  constructor.
  - apply IH; [exact H2 | intros; apply Hc; simpl; auto].
  - apply Forall_app. split; [exact Hx|].
    apply Forall_forall. intros b Hb. apply Hc; simpl; auto.
Qed.

(** The issues of one severity that a category contributes all carry that
    category. *)
Lemma tagged_category (t : severity) (c : category) (l : list finding) :
  Forall (eq c) (map i_category (filter (hasSeverity t) (tagged c l))).
Proof.
  induction l as [|x l IH]; simpl; [constructor|].
  destruct (hasSeverity t _); simpl; [constructor; [reflexivity | exact IH] | exact IH].
Qed.

Lemma constant_sorted (c : category) (l : list category) :
  Forall (eq c) l ->
  StronglySorted (fun a b => (categoryRank a <= categoryRank b)%nat) l.
Proof.
  induction 1 as [|x l Hx Hl IH]; constructor; [exact IH|].
  subst x. eapply Forall_impl; [|exact Hl]. intros a <-. lia.
Qed.

Lemma collected_category_order (t : severity) (r : results) :
  StronglySorted (fun a b => (categoryRank a <= categoryRank b)%nat)
    (map i_category (filter (hasSeverity t) (collected r))).
Proof.
  unfold collected. rewrite !filter_app, !map_app.
  pose proof (tagged_category t SEO (issues (seo r))) as H1.
  pose proof (tagged_category t Content (issues (content r))) as H2.
  pose proof (tagged_category t Usability (issues (usability r))) as H3.
  pose proof (tagged_category t Technical (issues (technical r))) as H4.
  repeat apply sorted_app; eauto using constant_sorted;
    intros a b Ha Hb;
    repeat match goal with
           | H : In _ (_ ++ _) |- _ => apply in_app_or in H; destruct H
           end;
    repeat match goal with
           | H : Forall _ ?l, H' : In _ ?l |- _ =>
               apply (proj1 (Forall_forall _ _) H) in H'; subst
           end;
    simpl; lia.
Qed.

(** In a sorted list an element is related to every later one. *)
Lemma sorted_pair {A : Type} (R : A -> A -> Prop) (pre mid post : list A) (a b : A) :
  StronglySorted R (pre ++ a :: mid ++ b :: post) -> R a b.
Proof.
  induction pre as [|x pre IH]; cbn [app]; intros H.
  - apply StronglySorted_inv in H. destruct H as [_ H].
    apply (proj1 (Forall_forall _ _) H). apply in_elt.
  - apply StronglySorted_inv in H. now apply IH.
Qed.

(** C2. The issues of the report are sorted by severity rank, error 0,
    warning 1, info 2: no warning and no info stands before an error, and
    no info before a warning.  They are the issues collected from the
    four categories, and those of one severity stand in the order in
    which they were collected: SEO, Content, Usability, Technical, and
    the order of the checks within a category. *)
Theorem issues_sorted_by_severity_stable :
  forall (q : cheerio) (bodyText url : string) (loadTime : Z),
    let r := evaluate q bodyText url loadTime in
    let l := g_issues (gradeWebsite q bodyText url loadTime) in
    let rank (t : severity) : Z :=
      match t with error => 0 | warning => 1 | info => 2 end in
    StronglySorted (fun a b => rank (i_type a) <= rank (i_type b)) l
    /\ (forall pre a mid b post,
          l = pre ++ a :: mid ++ b :: post ->
          (i_type b = error -> i_type a = error)
          /\ (i_type b = warning -> i_type a <> info))
    /\ Permutation (collected r) l
    /\ (forall t, filter (hasSeverity t) l = filter (hasSeverity t) (collected r))
    /\ (forall t,
          StronglySorted (fun a b => (categoryRank a <= categoryRank b)%nat)
            (map i_category (filter (hasSeverity t) l))).
Proof.
  intros q bodyText url loadTime r l rank. subst l. cbn [gradeWebsite g_issues].
  fold r.
  assert (K : forall a b, bySeverity a b = priority (i_type a) - priority (i_type b))
    by reflexivity.
  assert (K' : forall a b, bySeverity a b = rank (i_type a) - rank (i_type b))
    by (intros a b; unfold bySeverity; now destruct (i_type a), (i_type b)).
  assert (S : forall t, filter (hasSeverity t) (sort bySeverity (collected r))
                        = filter (hasSeverity t) (collected r)).
  { intros t.
    rewrite (filter_ext _ _ (hasSeverity_priority t)).
    rewrite (filter_ext _ _ (hasSeverity_priority t) (collected r)).
    apply (sort_stable (fun i => priority (i_type i)) bySeverity K). }
  pose proof (sort_sorted (fun i => rank (i_type i)) bySeverity K' (collected r))
    as O.
  split; [exact O|]. split; [|split; [|split]].
  - intros pre a mid b post E. rewrite E in O.
    apply sorted_pair in O. cbv beta in O. subst rank.
    split; intros Hb; rewrite Hb in O; destruct (i_type a);
      first [reflexivity | discriminate | lia].
  - apply (sort_perm bySeverity).
  - exact S.
  - intros t. rewrite S. apply collected_category_order.
Qed.

(** ** The business hours *)

Ltac keeps_silent f :=
  intros; unfold f; split_ifs; unfold silent, push, award in *;
  cbn [issues] in *; try assumption;
  (apply Forall_app; split;
   [ assumption
   | constructor; [unfold hoursMissing; cbn [text append]; discriminate | constructor] ]).

Section Silent.

Variable b : bucket.
Hypothesis quiet : silent b.

Lemma checkTitle_silent t : silent (checkTitle t b).
Proof. revert quiet. keeps_silent checkTitle. Qed.

Lemma checkDescription_silent d : silent (checkDescription d b).
Proof. revert quiet. keeps_silent checkDescription. Qed.

Lemma checkH1_silent n : silent (checkH1 n b).
Proof. revert quiet. keeps_silent checkH1. Qed.

Lemma checkCanonical_silent c : silent (checkCanonical c b).
Proof. revert quiet. keeps_silent checkCanonical. Qed.

Lemma checkOgTags_silent c : silent (checkOgTags c b).
Proof. revert quiet. keeps_silent checkOgTags. Qed.

Lemma checkMenu_silent p m : silent (checkMenu p m b).
Proof. revert quiet. keeps_silent checkMenu. Qed.

Lemma checkHours_silent : silent (checkHours true b).
Proof. exact quiet. Qed.

Lemma checkAddress_silent a : silent (checkAddress a b).
Proof. revert quiet. keeps_silent checkAddress. Qed.

Lemma checkPhone_silent p : silent (checkPhone p b).
Proof. revert quiet. keeps_silent checkPhone. Qed.

Lemma checkImages_silent n a : silent (checkImages n a b).
Proof. revert quiet. keeps_silent checkImages. Qed.

Lemma checkOrdering_silent o : silent (checkOrdering o b).
Proof. revert quiet. keeps_silent checkOrdering. Qed.

Lemma checkReservation_silent r : silent (checkReservation r b).
Proof. revert quiet. keeps_silent checkReservation. Qed.

Lemma checkSocialLinks_silent s : silent (checkSocialLinks s b).
Proof. revert quiet. keeps_silent checkSocialLinks. Qed.

Lemma checkClickablePhone_silent c p : silent (checkClickablePhone c p b).
Proof. revert quiet. keeps_silent checkClickablePhone. Qed.

Lemma checkGoogleMaps_silent g : silent (checkGoogleMaps g b).
Proof. revert quiet. keeps_silent checkGoogleMaps. Qed.

Lemma checkViewport_silent v : silent (checkViewport v b).
Proof. revert quiet. keeps_silent checkViewport. Qed.

Lemma checkHttps_silent h : silent (checkHttps h b).
Proof. revert quiet. keeps_silent checkHttps. Qed.

Lemma checkFavicon_silent f : silent (checkFavicon f b).
Proof. revert quiet. keeps_silent checkFavicon. Qed.

Lemma checkStructuredData_silent s : silent (checkStructuredData s b).
Proof. revert quiet. keeps_silent checkStructuredData. Qed.

Lemma checkLoadTime_silent t : silent (checkLoadTime t b).
Proof. revert quiet. keeps_silent checkLoadTime. Qed.

End Silent.

Lemma tagged_silent (c : category) (b : bucket) (i : issue) :
  silent b -> In i (tagged c (issues b)) -> i_text i <> hoursMissing.
Proof.
  unfold silent, tagged. intros H Hi.
  apply in_map_iff in Hi. destruct Hi as [x [<- Hx]]. cbn [i_text].
  exact (proj1 (Forall_forall _ _) H x Hx).
Qed.

Lemma hasHours_of_substring (pre word post : string) :
  In word ["hours"; "open"; "am"; "pm"] ->
  hasHours_of (pre ++ word ++ post) = true.
Proof.
  intros H. unfold hasHours_of.
  destruct H as [<-|[<-|[<-|[<-|[]]]]]; rewrite includes_app;
    rewrite ?orb_true_r; reflexivity.
Qed.

(** C9. When the lower-cased body text holds "hours", "open", "am" or
    "pm" anywhere, within a word or not, the hours check of the content
    evaluator adds 5 to the score and pushes nothing: the content score
    of the report is 5 and the points of the menu, the address, the
    phone and the pictures, and the report has no issue "Business hours
    not found". *)
Theorem hours_substring_awards_points :
  forall (q : cheerio) (bodyText pre word post : string),
    In word ["hours"; "open"; "am"; "pm"] ->
    bodyText = (pre ++ word ++ post)%string ->
    hasHours_of bodyText = true
    /\ (forall b,
          score (checkHours (hasHours_of bodyText) b) = (score b + 5)%nat
          /\ maxScore (checkHours (hasHours_of bodyText) b) = maxScore b
          /\ issues (checkHours (hasHours_of bodyText) b) = issues b)
    /\ (forall url loadTime,
          cs_score (bd_content (g_breakdown (gradeWebsite q bodyText url loadTime)))
          = ((if hasPdf_of q then 2 else if hasMenu_of q bodyText then 8 else 0)
             + 5
             + (if hasAddress_of bodyText then 4 else 0)
             + (if hasPhone_of q bodyText then 4 else 0)
             + (if (5 <=? imageCount_of q)%nat then 4 else 0))%nat)
    /\ (forall url loadTime i,
          In i (g_issues (gradeWebsite q bodyText url loadTime)) ->
          i_text i <> hoursMissing).
Proof.
  intros q bodyText pre word post Hw ->.
  pose proof (hasHours_of_substring pre word post Hw) as H.
  split; [exact H|]. split; [|split].
  - intros b. rewrite H. cbn [checkHours award score maxScore issues].
    now repeat split.
  - intros url loadTime.
    cbn [gradeWebsite g_breakdown bd_content summary cs_score evaluate content].
    rewrite content_score, H. reflexivity.
  - intros url loadTime i Hi. cbn [gradeWebsite g_issues] in Hi.
    apply (Permutation_in i (Permutation_sym (sort_perm bySeverity _))) in Hi.
    assert (Q0 : forall n m, silent {| score := n; maxScore := m; issues := [] |})
      by (intros; constructor).
    unfold collected in Hi.
    cbn [evaluate initial seo content usability technical] in Hi.
    repeat (apply in_app_or in Hi; destruct Hi as [Hi|Hi]);
      (eapply tagged_silent; [|exact Hi]).
    + unfold seoChecks.
      auto 7 using checkTitle_silent, checkDescription_silent, checkH1_silent,
        checkCanonical_silent, checkOgTags_silent.
    + unfold contentChecks. rewrite H.
      auto 7 using checkMenu_silent, checkHours_silent, checkAddress_silent,
        checkPhone_silent, checkImages_silent.
    + unfold usabilityChecks.
      auto 7 using checkOrdering_silent, checkReservation_silent,
        checkSocialLinks_silent, checkClickablePhone_silent, checkGoogleMaps_silent.
    + unfold technicalChecks.
      auto 7 using checkViewport_silent, checkHttps_silent, checkFavicon_silent,
        checkStructuredData_silent, checkLoadTime_silent.
Qed.

(** The words "family" and "camp" hold "am": a page that says no more
    than "family camp" gets the 5 points of the hours, and no other. *)
Lemma hours_substring_awards_points_witness :
  hasHours_of "family camp" = true
  /\ cs_score (bd_content (g_breakdown (gradeWebsite blank "family camp" "" 0)))
     = 5%nat
  /\ (forall url loadTime i,
        In i (g_issues (gradeWebsite blank "family camp" url loadTime)) ->
        i_text i <> hoursMissing).
Proof.
  destruct (hours_substring_awards_points blank "family camp" "f" "am" "ily camp")
    as [H1 [_ [H3 H4]]].
  - simpl. auto.
  - reflexivity.
  - exact (conj H1 (conj (H3 ""%string 0) H4)).
Defined.

(** ** Rounding *)

Section Rounding.

Import Number.

Lemma nearestEven_error (n d : Z) :
  0 < d -> - d <= 2 * (d * nearestEven n d - n) <= d.
Proof.
  intros Hd. unfold nearestEven.
  pose proof (Z.div_mod n d ltac:(lia)) as E.
  pose proof (Z.mod_pos_bound n d Hd) as B.
  destruct (Z.compare_spec (2 * (n mod d)) d); [destruct (Z.even (n / d))| |]; nia.
Qed.

Lemma nearestEven_upper (n d k : Z) :
  0 < d -> n <= k * d -> nearestEven n d <= k.
Proof.
  intros Hd Hk. unfold nearestEven.
  pose proof (Z.div_mod n d ltac:(lia)) as E.
  pose proof (Z.mod_pos_bound n d Hd) as B.
  destruct (Z.compare_spec (2 * (n mod d)) d); [destruct (Z.even (n / d))| |]; nia.
Qed.

Lemma nearestEven_lower (n d k : Z) :
  0 < d -> k * d <= n -> k <= nearestEven n d.
Proof.
  intros Hd Hk. unfold nearestEven.
  pose proof (Z.div_mod n d ltac:(lia)) as E.
  pose proof (Z.mod_pos_bound n d Hd) as B.
  destruct (Z.compare_spec (2 * (n mod d)) d); [destruct (Z.even (n / d))| |]; nia.
Qed.

Lemma binade_le (n d : Z) : binade n d <= Z.log2 n - Z.log2 d - 52.
Proof.
  unfold binade. destruct (scaled n d _) as [n' d'].
  destruct (2 ^ 52 * d' <=? n'); lia.
Qed.

(** Below 1 in the binade, the mantissa is the quotient of the numerator
    scaled up. *)
Lemma round53_small (n d : Z) :
  binade n d < 0 ->
  round53 n d = (nearestEven (n * 2 ^ (- binade n d)) d, binade n d).
Proof.
  intros H. unfold round53, scaled.
  destruct (Z.leb_spec 0 (binade n d)); [lia | reflexivity].
Qed.

(** A quotient of at most [c], for [c < 2^k] and [k <= 51]: the exponent is
    negative and the mantissa at most [c * 2^(-e)]. *)
Lemma round53_bounded (n d c k : Z) :
  0 < n -> 0 < d -> n <= c * d -> c < 2 ^ k -> 0 <= k <= 51 ->
  exists m e,
    round53 n d = (m, e) /\ e < 0 /\ 0 <= m <= c * 2 ^ (- e).
Proof.
  intros Hn Hd Hc Hk Hk'.
  assert (He : binade n d < 0).
  { pose proof (binade_le n d) as B.
    pose proof (Z.log2_spec d Hd) as [_ D].
    pose proof (Z.log2_nonneg d) as D0.
    rewrite Z.pow_succ_r in D by exact D0.
    assert (L : Z.log2 n < k + Z.log2 d + 1).
    { apply Z.log2_lt_pow2; [exact Hn|].
      rewrite !Z.pow_add_r by lia. change (2 ^ 1) with 2.
      assert (0 < 2 ^ k) by (apply Z.pow_pos_nonneg; lia).
      assert (0 < 2 ^ Z.log2 d) by (apply Z.pow_pos_nonneg; lia).
      nia. }
    lia. }
  exists (nearestEven (n * 2 ^ (- binade n d)) d), (binade n d).
  split; [now apply round53_small|]. split; [exact He|].
  assert (0 < 2 ^ (- binade n d)) by (apply Z.pow_pos_nonneg; lia).
  split.
  - apply nearestEven_lower; [exact Hd | nia].
  - apply nearestEven_upper; [exact Hd | nia].
Qed.

Lemma roundHalfUp_bounded (m e c : Z) :
  e < 0 -> 0 <= m <= c * 2 ^ (- e) -> 0 <= roundHalfUp m e <= c.
Proof.
  intros He Hm. unfold roundHalfUp.
  destruct (Z.leb_spec 0 e); [lia|].
  assert (P : 0 < 2 ^ (- e)) by (apply Z.pow_pos_nonneg; lia).
  replace (1 - e) with (1 + - e) by lia.
  rewrite Z.pow_add_r by lia. change (2 ^ 1) with 2.
  split.
  - apply Z.div_pos; nia.
  - apply Z.lt_succ_r, Z.div_lt_upper_bound; nia.
Qed.

End Rounding.

(** ** The pictures and their alt text *)

Lemma imagesWithAlt_le_imageCount (q : cheerio) :
  (imagesWithAlt_of q <= imageCount_of q)%nat.
Proof. unfold imagesWithAlt_of, imageCount_of. apply filter_length_le. Qed.

Lemma div_finite (a n : Z) : n <> 0 -> exists m e, Number.div a n = Finite m e.
Proof.
  intros Hn. unfold Number.div.
  destruct (Z.eqb_spec n 0); [contradiction|].
  destruct (a =? 0); [now exists 0, 0|].
  destruct (Number.round53 _ _) as [m e]. now eexists _, _.
Qed.

Lemma altPercent_range (a n : nat) :
  (0 < n)%nat -> (a <= n)%nat ->
  exists p, altPercent a n = Finite p 0 /\ 0 <= p <= 100.
Proof.
  intros Hn Ha. unfold altPercent, Number.div.
  destruct (Z.eqb_spec (Z.of_nat n) 0); [lia|].
  destruct (Z.eqb_spec (Z.of_nat a) 0) as [|Ha0].
  { exists 0. split; [reflexivity | lia]. }
  destruct (round53_bounded (Z.abs (Z.of_nat a)) (Z.abs (Z.of_nat n)) 1 1)
    as [m [e [E [He Hm]]]]; try lia.
  rewrite E. rewrite !Z.sgn_pos by lia. rewrite !Z.mul_1_l.
  unfold Number.mul.
  destruct (Z.eqb_spec (m * 100) 0) as [|Hm0].
  { exists 0. split; [reflexivity | lia]. }
  destruct (Z.leb_spec 0 e); [lia|].
  assert (P : 0 < 2 ^ (- e)) by (apply Z.pow_pos_nonneg; lia).
  destruct (round53_bounded (Z.abs (m * 100)) (2 ^ (- e)) 100 7)
    as [m' [e' [E' [He' Hm']]]]; try lia.
  rewrite E'. rewrite Z.sgn_pos by lia. rewrite Z.mul_1_l.
  cbn [Number.round]. eexists. split; [reflexivity|].
  now apply roundHalfUp_bounded.
Qed.

(** C10. The pictures with a kept alt text are among the pictures
    counted.  With fewer than 5 pictures the check pushes its hint and
    awards nothing, whatever the ratio; the ratio is taken with 5 pictures
    or more only, where it is a finite number, and the percentage of the
    warning is an integer from 0 to 100. *)
Theorem alt_ratio_guarded_and_percent_bounded :
  forall (q : cheerio) (b : bucket),
    let n := imageCount_of q in
    let a := imagesWithAlt_of q in
    (a <= n)%nat
    /\ ((n < 5)%nat ->
        checkImages n a b = push info "Consider adding more food photos" b)
    /\ ((5 <= n)%nat ->
        (exists m e, Number.div (Z.of_nat a) (Z.of_nat n) = Finite m e)
        /\ exists p,
            altPercent a n = Finite p 0 /\ 0 <= p <= 100
            /\ (checkImages n a b = award 4 b
                \/ checkImages n a b
                   = push warning
                       ("Only " ++ JsString.ofZ p ++ "% of images have alt text")
                       (award 4 b))).
Proof.
  intros q b n a.
  pose proof (imagesWithAlt_le_imageCount q) as Hle. fold n a in Hle.
  split; [exact Hle|]. split.
  - intros Hn. unfold checkImages.
    destruct (Nat.leb_spec 5 n); [lia | reflexivity].
  - intros Hn. split; [apply div_finite; lia|].
    destruct (altPercent_range a n) as [p [Hp Hr]]; try lia.
    exists p. split; [exact Hp|]. split; [exact Hr|].
    unfold checkImages. destruct (Nat.leb_spec 5 n); [|lia].
    destruct (Number.lt _ _); [right | left; reflexivity].
    unfold altWarning. rewrite Hp. cbn [Number.toString].
    now rewrite Z.pow_0_r, Z.mul_1_r.
Qed.

(** Six pictures and one alt text kept: 17%. *)
Lemma alt_ratio_guarded_and_percent_bounded_witness :
  exists p,
    altPercent (imagesWithAlt_of gallery) (imageCount_of gallery) = Finite p 0
    /\ 0 <= p <= 100.
Proof.
  destruct (alt_ratio_guarded_and_percent_bounded gallery (content initial))
    as [_ [_ H]].
  destruct H as [_ [p [Hp [Hr _]]]].
  - vm_compute. lia.
  - exists p. exact (conj Hp Hr).
Defined.

(** ** The load time *)

(** The block of technical checks ends with the check of the load
    time. *)
Lemma technicalChecks_loadTime (q : cheerio) (url : string) (loadTime : Z)
  (b : bucket) :
  technicalChecks q url loadTime b
  = checkLoadTime loadTime (technicalChecks q url 2000 b).
Proof. reflexivity. Qed.

(** The seconds of the slow load warning: the load time to the nearest
    tenth of a second. *)
Lemma slowLoad_tenths (loadTime : Z) :
  5000 < loadTime < 2 ^ 53 ->
  exists n,
    -50 <= 100 * n - loadTime <= 50
    /\ slowLoad loadTime
       = ("Slow load time (" ++ JsString.ofZ (n / 10) ++ "." ++
          JsString.ofZ (n mod 10) ++ "s) - aim for under 3 seconds")%string.
Proof.
  intros [Hlo Hhi]. unfold slowLoad, Number.div.
  change (1000 =? 0) with false. cbv iota.
  destruct (Z.eqb_spec loadTime 0) as [|_]; [lia|].
  rewrite (Z.abs_eq loadTime) by lia. change (Z.abs 1000) with 1000.
  rewrite Z.sgn_pos by lia. change (Z.sgn 1000) with 1. rewrite !Z.mul_1_l.
  assert (He : Number.binade loadTime 1000 <= -9).
  { pose proof (binade_le loadTime 1000) as B.
    change (Z.log2 1000) with 9 in B.
    assert (Z.log2 loadTime < 53) by (apply Z.log2_lt_pow2; lia).
    lia. }
  rewrite round53_small by lia. rewrite Z.mul_1_l.
  set (e := Number.binade loadTime 1000) in *.
  set (m := Number.nearestEven (loadTime * 2 ^ (- e)) 1000).
  assert (P : 2 ^ 9 <= 2 ^ (- e)) by (apply Z.pow_le_mono_r; lia).
  change (2 ^ 9) with 512 in P.
  pose proof (nearestEven_error (loadTime * 2 ^ (- e)) 1000 ltac:(lia)) as Q.
  fold m in Q.
  assert (Hm : 0 <= m) by (apply nearestEven_lower; nia).
  cbn [Number.toFixed1].
  destruct (Z.ltb_spec m 0); [lia|].
  exists (Number.tenths m e).
  split; [|cbn [append]; now rewrite !append_assoc].
  unfold Number.tenths, Number.roundHalfUp.
  destruct (Z.leb_spec 0 e); [lia|].
  rewrite (Z.abs_eq m) by lia.
  replace (1 - e) with (1 + - e) by lia.
  rewrite Z.pow_add_r by lia. change (2 ^ 1) with 2.
  set (E := 2 ^ (- e)) in *.
  set (n := (2 * (10 * m) + E) / (2 * E)).
  pose proof (Z.mul_div_le (2 * (10 * m) + E) (2 * E) ltac:(lia)) as D1.
  pose proof (Z.mul_succ_div_gt (2 * (10 * m) + E) (2 * E) ltac:(lia)) as D2.
  fold n in D1, D2.
  assert (U : E * (100 * n - loadTime - 50) <= 500) by nia.
  assert (L : E * (loadTime - 100 * n - 50) < 500) by nia.
  split; nia.
Qed.

(** The issues of the report are those collected. *)
Lemma g_issues_In (q : cheerio) (bodyText url : string) (loadTime : Z) (i : issue) :
  In i (g_issues (gradeWebsite q bodyText url loadTime))
  <-> In i (collected (evaluate q bodyText url loadTime)).
Proof.
  cbn [gradeWebsite g_issues]. split; intros H.
  - exact (Permutation_in i (Permutation_sym (sort_perm bySeverity _)) H).
  - exact (Permutation_in i (sort_perm bySeverity _) H).
Qed.

(** No check but that of the load time, above 5000 ms, gives a text of
    the slow load. *)
Lemma slow_load_says (q : cheerio) (bodyText url : string) (loadTime : Z)
  (x : string) :
  let slow := ("Slow load time (" ++ x ++ "s) - aim for under 3 seconds")%string in
  ~ In slow (texts (seoChecks q (seo initial)))
  /\ ~ In slow (texts (contentChecks q bodyText (content initial)))
  /\ ~ In slow (texts (usabilityChecks q bodyText (usability initial)))
  /\ (In slow (texts (technicalChecks q url loadTime (technical initial))) ->
      loadTime <> 0 /\ 5000 < loadTime).
Proof.
  intros slow. subst slow. split; [|split; [|split]].
  - unfold seoChecks, checkOgTags, checkCanonical, checkH1, checkDescription,
      checkTitle.
    split_ifs; says.
  - unfold contentChecks, checkImages, checkPhone, checkAddress, checkHours,
      checkMenu, altWarning.
    split_ifs; says.
  - unfold usabilityChecks, checkGoogleMaps, checkClickablePhone,
      checkSocialLinks, checkReservation, checkOrdering.
    split_ifs; says.
  - unfold technicalChecks, checkLoadTime, truthyZ.
    destruct (Z.eqb_spec loadTime 0) as [Z0|Z0];
      destruct (Z.ltb_spec loadTime 2000); destruct (Z.ltb_spec 5000 loadTime);
      cbn [negb andb]; try (intros _; split; [exact Z0 | assumption]);
      unfold checkStructuredData, checkFavicon, checkHttps, checkViewport;
      split_ifs; says.
Qed.

(** C6, as the program has it.  For a load time that is not 0 and below
    2000 ms the technical score of the report is 2 more than the points
    of the four other technical checks, and no issue is about the load
    time; above 5000 ms there are no such 2 points and the report has a
    warning of the category Technical that gives the seconds to one
    decimal place; from 2000 to 5000 ms there are neither the points nor
    an issue.  A load time of 0 is falsy, and is taken as no
    measurement: neither the points nor an issue. *)
Theorem load_time_bonus_and_warning :
  forall (q : cheerio) (bodyText url : string) (loadTime : Z),
    let g := gradeWebsite q bodyText url loadTime in
    let technicalScore := cs_score (bd_technical (g_breakdown g)) in
    let others :=
      ((if present (meta_viewport q) then 6 else 0)
       + (if JsString.startsWith url "https" then 5 else 0)
       + (if present (link_icon q) || present (link_shortcut_icon q) then 3 else 0)
       + (if present (script_ld_json q) then 6 else 0))%nat in
    let noLoadTimeIssue :=
      forall i x,
        In i (g_issues g) ->
        i_text i
        <> ("Slow load time (" ++ x ++ "s) - aim for under 3 seconds")%string in
    (loadTime <> 0 -> loadTime < 2000 ->
     technicalScore = (others + 2)%nat /\ noLoadTimeIssue)
    /\ (5000 < loadTime ->
        technicalScore = others
        /\ In {| i_type := warning; i_text := slowLoad loadTime;
                 i_category := Technical |} (g_issues g))
    /\ (5000 < loadTime < 2 ^ 53 ->
        exists n,
          -50 <= 100 * n - loadTime <= 50
          /\ In {| i_type := warning;
                   i_text := ("Slow load time (" ++ JsString.ofZ (n / 10) ++ "." ++
                              JsString.ofZ (n mod 10) ++
                              "s) - aim for under 3 seconds")%string;
                   i_category := Technical |} (g_issues g))
    /\ (2000 <= loadTime <= 5000 -> technicalScore = others /\ noLoadTimeIssue)
    /\ (loadTime = 0 -> technicalScore = others /\ noLoadTimeIssue).
Proof.
  intros q bodyText url loadTime g technicalScore others noLoadTimeIssue.
  assert (S : technicalScore
              = (others + if truthyZ loadTime && (loadTime <? 2000)%Z then 2 else 0)%nat).
  { subst technicalScore g others.
    cbn [gradeWebsite g_breakdown bd_technical summary cs_score evaluate technical].
    apply technical_score. }
  assert (N : ~ (loadTime <> 0 /\ 5000 < loadTime) -> noLoadTimeIssue).
  { intros C i x Hi E.
    assert (H : In ("Slow load time (" ++ x ++ "s) - aim for under 3 seconds")%string
                  (reportTexts g))
      by (unfold reportTexts; rewrite <- E; now apply in_map).
    apply reportTexts_In in H.
    cbn [evaluate seo content usability technical] in H.
    destruct (slow_load_says q bodyText url loadTime x) as [H1 [H2 [H3 H4]]].
    destruct H as [H|[H|[H|H]]]; [now apply H1 | now apply H2 | now apply H3 |].
    apply C. now apply H4. }
  assert (W : 5000 < loadTime ->
              In {| i_type := warning; i_text := slowLoad loadTime;
                    i_category := Technical |} (g_issues g)).
  { intros H. apply g_issues_In. unfold collected. rewrite !in_app_iff.
    right. right. right. unfold tagged. apply in_map_iff.
    exists {| type := warning; text := slowLoad loadTime |}.
    split; [reflexivity|].
    cbn [evaluate technical]. rewrite technicalChecks_loadTime.
    unfold checkLoadTime, truthyZ.
    destruct (Z.eqb_spec loadTime 0); [lia|].
    destruct (Z.ltb_spec loadTime 2000); [lia|].
    destruct (Z.ltb_spec 5000 loadTime); [|lia].
    cbn [negb andb push issues]. apply in_or_app. right. now left. }
  unfold truthyZ in S.
  split; [|split; [|split; [|split]]].
  - intros H0 H. split; [|apply N; lia].
    rewrite S. destruct (Z.eqb_spec loadTime 0); [contradiction|].
    destruct (Z.ltb_spec loadTime 2000); [reflexivity | lia].
  - intros H. split; [|now apply W].
    rewrite S. destruct (Z.ltb_spec loadTime 2000); [lia|].
    rewrite andb_false_r. lia.
  - intros H. destruct (slowLoad_tenths loadTime H) as [n [B E]].
    exists n. split; [exact B|]. rewrite <- E. apply W. lia.
  - intros H. split; [|apply N; lia].
    rewrite S. destruct (Z.ltb_spec loadTime 2000); [lia|].
    rewrite andb_false_r. lia.
  - intros ->. split; [|apply N; lia].
    rewrite S. cbn. lia.
Qed.

(** A page with nothing on it, fetched over https in 1500 ms, in 6000 ms,
    in 3000 ms and in 0 ms: 5 points for the https, and 2 more for the
    first only. *)
Lemma load_time_bonus_and_warning_witness :
  cs_score (bd_technical
              (g_breakdown (gradeWebsite blank "" "https://roma.example" 1500)))
  = 7%nat
  /\ cs_score (bd_technical
                 (g_breakdown (gradeWebsite blank "" "https://roma.example" 6000)))
     = 5%nat
  /\ In {| i_type := warning;
           i_text := "Slow load time (6.0s) - aim for under 3 seconds";
           i_category := Technical |}
        (g_issues (gradeWebsite blank "" "https://roma.example" 6000))
  /\ cs_score (bd_technical
                 (g_breakdown (gradeWebsite blank "" "https://roma.example" 3000)))
     = 5%nat
  /\ cs_score (bd_technical
                 (g_breakdown (gradeWebsite blank "" "https://roma.example" 0)))
     = 5%nat.
Proof.
  split; [|split; [|split; [|split]]].
  - destruct (load_time_bonus_and_warning blank "" "https://roma.example" 1500)
      as [H _].
    apply H; lia.
  - destruct (load_time_bonus_and_warning blank "" "https://roma.example" 6000)
      as [_ [H _]].
    apply H. lia.
  - destruct (load_time_bonus_and_warning blank "" "https://roma.example" 6000)
      as [_ [H _]].
    apply H. lia.
  - destruct (load_time_bonus_and_warning blank "" "https://roma.example" 3000)
      as [_ [_ [_ [H _]]]].
    apply H. lia.
  - destruct (load_time_bonus_and_warning blank "" "https://roma.example" 0)
      as [_ [_ [_ [_ H]]]].
    apply H. reflexivity.
Defined.

(** C6, as it is stated, fails at a load time of 0 ms: it is below 2000
    and no point is awarded. *)
Lemma load_time_zero_no_bonus :
  checkLoadTime 0 (technical initial) = technical initial
  /\ ~ (forall (loadTime : Z) (b : bucket),
          0 <= loadTime < 2000 ->
          score (checkLoadTime loadTime b) = (score b + 2)%nat).
Proof.
  split; [reflexivity|].
  intros H. specialize (H 0 (technical initial) ltac:(lia)).
  vm_compute in H. discriminate H.
Qed.

(** ** The insight generator *)

Section Generator.

Variables (client : string -> string -> generated) (prompt : string).

(** One turn of the loop calls the model once and never throws. *)
Lemma attempt_run (modelName : string) (t : list event) :
  attempt client prompt modelName t
  = (Ok match parsedReply client prompt modelName with
        | Some v => Return v
        | None => Continue
        end,
     t ++ [Generate modelName prompt]).
Proof.
  cbv [attempt tryCatch bind generateContent emit JSON_parse parsedReply ret throw].
  destruct (client modelName prompt) as [message|reply]; [reflexivity|].
  destruct (Json.parse (unfence reply)); reflexivity.
Qed.

Lemma tryModels_fail (names : list string) (t : list event) :
  Forall (fun m => parsedReply client prompt m = None) names ->
  tryModels client prompt names t = (Ok JNull, t ++ calls prompt names).
Proof.
  intros H. revert t. induction H as [|m names Hm _ IH]; intros t.
  - cbn. now rewrite app_nil_r.
  - cbn [tryModels]. unfold bind. rewrite attempt_run, Hm, IH.
    cbn [calls map]. now rewrite <- app_assoc.
Qed.

Lemma tryModels_first (pre : list string) (m : string) (post : list string)
  (v : json) (t : list event) :
  Forall (fun m' => parsedReply client prompt m' = None) pre ->
  parsedReply client prompt m = Some v ->
  tryModels client prompt (pre ++ m :: post) t
  = (Ok v, t ++ calls prompt (pre ++ [m])).
Proof.
  intros H Hv. revert t. induction H as [|m' pre Hm _ IH]; intros t.
  - cbn [app tryModels]. unfold bind. now rewrite attempt_run, Hv.
  - cbn [app tryModels]. unfold bind. rewrite attempt_run, Hm, IH.
    cbn [calls map app]. now rewrite <- app_assoc.
Qed.

(** The loop returns, having called a prefix of the names. *)
Lemma tryModels_returns (names : list string) (t : list event) :
  exists v tried rest,
    names = tried ++ rest
    /\ tryModels client prompt names t = (Ok v, t ++ calls prompt tried).
Proof.
  revert t. induction names as [|m names IH]; intros t.
  - exists JNull, [], []. cbn. now rewrite app_nil_r.
  - cbn [tryModels]. unfold bind. rewrite attempt_run.
    destruct (parsedReply client prompt m) as [v|].
    + now exists v, [m], names.
    + destruct (IH (t ++ [Generate m prompt])) as [v [tried [rest [E R]]]].
      exists v, (m :: tried), rest. split; [now rewrite E|].
      rewrite R. cbn [calls map]. now rewrite <- app_assoc.
Qed.

(** A value that is not [null] was parsed from the reply of a model. *)
Lemma tryModels_present (names : list string) (t t' : list event) (v : json) :
  tryModels client prompt names t = (Ok v, t') ->
  v <> JNull ->
  exists m, In m names /\ parsedReply client prompt m = Some v.
Proof.
  revert t. induction names as [|m names IH]; intros t R Hv.
  - cbn in R. inversion R. congruence.
  - cbn [tryModels] in R. unfold bind in R. rewrite attempt_run in R.
    destruct (parsedReply client prompt m) as [v'|] eqn:E.
    + inversion R. subst v'. exists m. split; [now left | exact E].
    + destruct (IH _ R Hv) as [m' [Hin Hm']]. exists m'. split; [now right | exact Hm'].
Qed.

End Generator.

Lemma calls_noFetch (prompt : string) (names : list string) :
  noFetch (calls prompt names).
Proof.
  intros u H. unfold calls in H. apply in_map_iff in H.
  destruct H as [m [E _]]. discriminate E.
Qed.

Lemma generateAIInsights_returns (w : world) (d : websiteData)
  (issues : list issue) (t : list event) :
  exists v tried,
    generateAIInsights w d issues t = (Ok v, t ++ calls (prompt_of d issues) tried).
Proof.
  unfold generateAIInsights. destruct (genAI w) as [client|].
  - destruct (tryModels_returns client (prompt_of d issues) modelNames t)
      as [v [tried [rest [_ R]]]].
    now exists v, tried.
  - exists JNull, []. cbn. now rewrite app_nil_r.
Qed.

(** ** The handler *)

Lemma scan_failed (w : world) (url message : string) :
  axios_get w url = Failed message ->
  run (scan w url) = (Throw message, [Fetch url]).
Proof.
  intros H. unfold run, scan, bind, fetchPage, emit, throw. now rewrite H.
Qed.

Lemma scan_loaded (w : world) (url : string) (q : cheerio) (body_text : string)
  (loadTime : Z) :
  axios_get w url = Loaded q body_text loadTime ->
  let g := gradeWebsite q (JsString.toLowerCase body_text) url loadTime in
  let d := {| wd_url := url; wd_title := JsString.substring (title_text q) 0 60;
              wd_score := g_score g; wd_loadTime := loadTime |} in
  exists aiInsights t,
    generateAIInsights w d (g_issues g) [Fetch url] = (Ok aiInsights, t)
    /\ run (scan w url)
       = (Ok {| status := 200;
                body := ReportBody
                          {| r_url := url;
                             r_score := g_score g;
                             r_breakdown := g_breakdown g;
                             r_issues := g_issues g;
                             r_title := shownTitle (title_text q);
                             r_loadTime := loadTime;
                             r_aiInsights := aiInsights |} |}, t).
Proof.
  intros H g d.
  destruct (generateAIInsights_returns w d (g_issues g) [Fetch url])
    as [v [tried R]].
  exists v, ([Fetch url] ++ calls (prompt_of d (g_issues g)) tried).
  split; [exact R|].
  subst d g. cbv [run scan bind fetchPage emit ret]. rewrite H.
  cbn [app] in *. now rewrite R.
Qed.

(** The answers of the handler, case by case. *)
Lemma postGrade_rejected (w : world) (url : jsval) :
  requiredUrl url = None ->
  run (postGrade w url)
  = (Ok {| status := 400; body := ErrorBody "URL is required" |}, []).
Proof. intros H. unfold run, postGrade. now rewrite H. Qed.

Lemma postGrade_invalid (w : world) (url : jsval) (s : string) :
  requiredUrl url = Some s -> isValidUrl w s = false ->
  run (postGrade w url)
  = (Ok {| status := 400; body := ErrorBody "Invalid URL format" |}, []).
Proof. intros H V. unfold run, postGrade. now rewrite H, V. Qed.

Lemma postGrade_failed (w : world) (url : jsval) (s message : string) :
  requiredUrl url = Some s -> isValidUrl w s = true ->
  axios_get w (normalized s) = Failed message ->
  run (postGrade w url)
  = (Ok {| status := 500;
           body := ErrorBody ("Could not scan site: " ++ message) |},
     [Fetch (normalized s)]).
Proof.
  intros H V F. unfold run, postGrade. rewrite H, V. cbn [negb].
  unfold tryCatch. pose proof (scan_failed w _ _ F) as S. unfold run in S.
  now rewrite S.
Qed.

Lemma postGrade_loaded (w : world) (url : jsval) (s : string) (q : cheerio)
  (body_text : string) (loadTime : Z) :
  requiredUrl url = Some s -> isValidUrl w s = true ->
  axios_get w (normalized s) = Loaded q body_text loadTime ->
  run (postGrade w url) = run (scan w (normalized s)).
Proof.
  intros H V F. unfold run, postGrade. rewrite H, V. cbn [negb].
  unfold tryCatch.
  destruct (scan_loaded w _ _ _ _ F) as [ai [t [_ S]]]. unfold run in S.
  now rewrite S.
Qed.

Lemma requiredUrl_string (url : jsval) (s : string) :
  requiredUrl url = Some s -> url = JsString s /\ s <> ""%string.
Proof.
  destruct url; cbn; try discriminate.
  destruct s0; cbn; [discriminate|]. intros E. inversion E. now split.
Qed.

Lemma app_post_grade_parsed (w : world) (url : jsval) :
  run (app_post_grade w (BodyParsed url)) = run (postGrade w url).
Proof. reflexivity. Qed.

(** C3. A request whose body was not parsed has no [req.body] to take
    the url from: the handler throws at its first line, before its
    guards, and answers nothing itself.  With a body, a url that is
    missing, not a string, empty, or that does not pass [isValidUrl] is
    answered 400 with an error, and nothing is fetched; when the fetch of
    the page fails the answer is 500 with "Could not scan site: " and the
    message of the failure; otherwise it is 200 with the score, the
    breakdown and the issues of the rule engine. *)
Theorem app_post_grade_status :
  forall (w : world),
    run (app_post_grade w BodyUndefined)
    = (Throw "Cannot destructure property 'url' of 'req.body' as it is undefined.",
       [])
    /\ forall (url : jsval),
        ((forall s, url <> JsString s) \/ url = JsString ""
         \/ (exists s, url = JsString s /\ isValidUrl w s = false) ->
         exists message,
           run (app_post_grade w (BodyParsed url))
           = (Ok {| status := 400; body := ErrorBody message |}, []))
        /\ (forall s message,
              url = JsString s -> s <> ""%string -> isValidUrl w s = true ->
              axios_get w (normalized s) = Failed message ->
              run (app_post_grade w (BodyParsed url))
              = (Ok {| status := 500;
                       body := ErrorBody ("Could not scan site: " ++ message) |},
                 [Fetch (normalized s)])
              /\ JsString.includes ("Could not scan site: " ++ message)
                   "Could not scan site" = true)
        /\ (forall s q body_text loadTime,
              url = JsString s -> s <> ""%string -> isValidUrl w s = true ->
              axios_get w (normalized s) = Loaded q body_text loadTime ->
              let g := gradeWebsite q (JsString.toLowerCase body_text)
                         (normalized s) loadTime in
              exists r t,
                run (app_post_grade w (BodyParsed url))
                = (Ok {| status := 200; body := ReportBody r |}, t)
                /\ r_score r = g_score g
                /\ r_breakdown r = g_breakdown g
                /\ r_issues r = g_issues g).
Proof.
  intros w. split; [reflexivity|]. intros url.
  rewrite app_post_grade_parsed.
  assert (R : forall s, s <> ""%string -> requiredUrl (JsString s) = Some s)
    by (intros [|c s] H; [contradiction | reflexivity]).
  split; [|split].
  - intros H.
    destruct (requiredUrl url) as [s|] eqn:E.
    + apply requiredUrl_string in E as E'. destruct E' as [-> Hs].
      destruct H as [H|[H|[s' [H V]]]].
      * now destruct (H s).
      * inversion H. contradiction.
      * inversion H. subst s'. eexists. now apply postGrade_invalid with (s := s).
    + eexists. now apply postGrade_rejected.
  - intros s message -> Hs V F. split.
    + apply postGrade_failed; auto.
    + apply (includes_app "" "Could not scan site" (": " ++ message)).
  - intros s q body_text loadTime -> Hs V F g.
    rewrite (postGrade_loaded w _ s q body_text loadTime (R s Hs) V F).
    destruct (scan_loaded w _ _ _ _ F) as [ai [t [_ S]]].
    rewrite S. eexists _, t. split; [reflexivity|]. now repeat split.
Qed.

(** A request without a body, a body without url, a host that does not
    resolve, and a page that loads. *)
Lemma app_post_grade_status_witness :
  run (app_post_grade unreachable BodyUndefined)
  = (Throw "Cannot destructure property 'url' of 'req.body' as it is undefined.",
     [])
  /\ (exists message,
        run (app_post_grade unreachable (BodyParsed JsUndefined))
        = (Ok {| status := 400; body := ErrorBody message |}, []))
  /\ run (app_post_grade unreachable (BodyParsed (JsString "nowhere.example")))
     = (Ok {| status := 500;
              body := ErrorBody
                        "Could not scan site: getaddrinfo ENOTFOUND nowhere.example" |},
        [Fetch "https://nowhere.example"])
  /\ (exists r t,
        run (app_post_grade noCredential (BodyParsed (JsString "roma.example")))
        = (Ok {| status := 200; body := ReportBody r |}, t)
        /\ r_score r = Finite 102 0).
Proof.
  split; [|split; [|split]].
  - exact (proj1 (app_post_grade_status unreachable)).
  - destruct (proj2 (app_post_grade_status unreachable) JsUndefined) as [H _].
    apply H. left. intros s. discriminate.
  - destruct (proj2 (app_post_grade_status unreachable)
                (JsString "nowhere.example"))
      as [_ [H _]].
    assert (N : "nowhere.example"%string <> ""%string) by discriminate.
    exact (proj1 (H "nowhere.example"%string
                    "getaddrinfo ENOTFOUND nowhere.example"%string
                    eq_refl N eq_refl eq_refl)).
  - destruct (proj2 (app_post_grade_status noCredential)
                (JsString "roma.example"))
      as [_ [_ H]].
    assert (N : "roma.example"%string <> ""%string) by discriminate.
    destruct (H "roma.example"%string fullMarks
                "Our MENU, opening hours and address"%string 1500
                eq_refl N eq_refl eq_refl)
      as [r [t [E [Hs _]]]].
    exists r, t. split; [exact E|]. rewrite Hs. vm_compute. reflexivity.
Defined.

(** C4. The insight generator always returns.  Without a credential it
    returns [null] and calls no model.  With one it calls the models in
    the order of [modelNames] up to the first whose reply parses, and
    returns the value parsed; when none does it has called them all and
    returns [null].  So a page that loads is answered 200, and without a
    credential its insights are [null] and the fetch is the only call. *)
Theorem generateAIInsights_never_throws :
  forall (w : world) (d : websiteData) (issues : list issue) (t0 : list event),
    (exists v t, generateAIInsights w d issues t0 = (Ok v, t))
    /\ (genAI w = None -> generateAIInsights w d issues t0 = (Ok JNull, t0))
    /\ (forall client,
          genAI w = Some client ->
          let prompt := prompt_of d issues in
          (forall pre m post v,
              modelNames = pre ++ m :: post ->
              Forall (fun m' => parsedReply client prompt m' = None) pre ->
              parsedReply client prompt m = Some v ->
              generateAIInsights w d issues t0
              = (Ok v, t0 ++ calls prompt (pre ++ [m])))
          /\ (Forall (fun m' => parsedReply client prompt m' = None) modelNames ->
              generateAIInsights w d issues t0
              = (Ok JNull, t0 ++ calls prompt modelNames)))
    /\ (forall url s q body_text loadTime,
          requiredUrl url = Some s -> isValidUrl w s = true ->
          axios_get w (normalized s) = Loaded q body_text loadTime ->
          exists r t,
            run (postGrade w url)
            = (Ok {| status := 200; body := ReportBody r |}, t)
            /\ (genAI w = None ->
                r_aiInsights r = JNull /\ t = [Fetch (normalized s)])).
Proof.
  intros w d issues t0. split; [|split; [|split]].
  - destruct (generateAIInsights_returns w d issues t0) as [v [tried R]].
    now exists v, (t0 ++ calls (prompt_of d issues) tried).
  - intros H. unfold generateAIInsights. now rewrite H.
  - intros client H prompt. unfold generateAIInsights. rewrite H. split.
    + intros pre m post v -> Hpre Hm. now apply tryModels_first.
    + apply tryModels_fail.
  - intros url s q body_text loadTime Hs V F.
    rewrite (postGrade_loaded w url s q body_text loadTime Hs V F).
    destruct (scan_loaded w _ _ _ _ F) as [ai [t [G S]]].
    rewrite S. eexists _, t. split; [reflexivity|].
    intros H. cbn [r_aiInsights]. unfold generateAIInsights in G.
    rewrite H in G. unfold ret in G. inversion G. now split.
Qed.

(** Without a credential no model is called; with the first two models
    down the third is the last one called. *)
Lemma generateAIInsights_never_throws_witness :
  generateAIInsights noCredential someSite [] [] = (Ok JNull, [])
  /\ (exists v,
        generateAIInsights thirdAnswers someSite [] []
        = (Ok v, calls (prompt_of someSite []) (firstn 3 modelNames))
        /\ Json.parse (unfence oneQuickWin) = Some v).
Proof.
  split.
  - destruct (generateAIInsights_never_throws noCredential someSite [] [])
      as [_ [H _]].
    exact (H eq_refl).
  - destruct (generateAIInsights_never_throws thirdAnswers someSite [] [])
      as [_ [_ [H _]]].
    destruct (Json.parse (unfence oneQuickWin)) as [v|] eqn:E;
      [|vm_compute in E; discriminate E].
    exists v. split; [|reflexivity].
    destruct (H _ eq_refl) as [H1 _].
    apply (H1 ["gemini-2.5-flash"; "gemini-2.0-flash"]%string
              "gemini-1.5-flash-latest"%string ["gemini-pro"]%string v).
    + reflexivity.
    + repeat constructor.
    + exact E.
Defined.

(** C5, as it is stated, fails: the value parsed is returned as it is, and
    a reply with one quick win yields insights with one quick win. *)
Lemma quickWins_not_validated :
  (exists v,
     fst (run (generateAIInsights modest someSite [])) = Ok v
     /\ Json.field "quickWins" v
        = Some (JArray [JString (Json.units "Add opening hours")])
     /\ threeQuickWins v = false)
  /\ ~ (forall (w : world) (d : websiteData) (issues : list issue)
               (v : json) (t : list event),
           run (generateAIInsights w d issues) = (Ok v, t) ->
           v <> JNull -> threeQuickWins v = true).
Proof.
  split.
  - eexists. split; [vm_compute; reflexivity|]. split; vm_compute; reflexivity.
  - intros H.
    assert (E : exists v t,
               run (generateAIInsights modest someSite []) = (Ok v, t)
               /\ v <> JNull /\ threeQuickWins v = false).
    { eexists _, _. split; [vm_compute; reflexivity|].
      split; [discriminate | vm_compute; reflexivity]. }
    destruct E as [v [t [E [N F]]]].
    rewrite (H _ _ _ _ _ E N) in F. discriminate F.
Qed.

(** C5, as the program has it.  Insights that are not [null] are the
    value that [JSON.parse] made of the reply of one of the models,
    without its code fences; nothing else is asked of them, so that
    their [quickWins] are those of the reply. *)
Theorem insights_are_the_parsed_reply :
  forall (w : world) (d : websiteData) (issues : list issue)
         (v : json) (t : list event),
    run (generateAIInsights w d issues) = (Ok v, t) ->
    v <> JNull ->
    exists client m reply,
      genAI w = Some client
      /\ In m modelNames
      /\ client m (prompt_of d issues) = Replied reply
      /\ Json.parse (unfence reply) = Some v.
Proof.
  intros w d issues v t R N. unfold run, generateAIInsights in R.
  destruct (genAI w) as [client|] eqn:G.
  - destruct (tryModels_present _ _ _ _ _ _ R N) as [m [Hin Hm]].
    unfold parsedReply in Hm.
    destruct (client m (prompt_of d issues)) as [|reply] eqn:C; [discriminate|].
    exists client, m, reply. now repeat split.
  - unfold ret in R. inversion R. congruence.
Qed.

(** The insights of the model that replies with one quick win. *)
Lemma insights_are_the_parsed_reply_witness :
  exists v,
    fst (run (generateAIInsights modest someSite [])) = Ok v
    /\ Json.parse (unfence oneQuickWin) = Some v
    /\ Json.field "quickWins" v
       = Some (JArray [JString (Json.units "Add opening hours")]).
Proof.
  assert (Ev : exists v, Json.parse (unfence oneQuickWin) = Some v)
    by (vm_compute; eexists; reflexivity).
  destruct Ev as [v E].
  assert (N : v <> JNull) by (vm_compute in E; inversion E; discriminate).
  assert (R : run (generateAIInsights modest someSite []) =
              (Ok v, calls (prompt_of someSite []) ["gemini-2.5-flash"%string])).
  { unfold run, generateAIInsights, modest, serving. cbn [genAI].
    apply (tryModels_first _ _ [] "gemini-2.5-flash"%string _ v []);
      [constructor | exact E]. }
  destruct (insights_are_the_parsed_reply modest someSite [] v _ R N)
    as [client [m [reply [G [_ [C P]]]]]].
  inversion G. subst client. inversion C. subst reply.
  exists v. split; [now rewrite R|]. split; [exact P|].
  vm_compute in E. inversion E. reflexivity.
Defined.

(** ** The report of a page that loaded *)

(** An answer 200 comes from a url that passed [isValidUrl] and a page
    that loaded at the normalized URL. *)
Lemma postGrade_200 (w : world) (url : jsval) (r : report) (t : list event) :
  run (postGrade w url) = (Ok {| status := 200; body := ReportBody r |}, t) ->
  exists s q body_text loadTime,
    url = JsString s
    /\ isValidUrl w s = true
    /\ axios_get w (normalized s) = Loaded q body_text loadTime
    /\ run (scan w (normalized s))
       = (Ok {| status := 200; body := ReportBody r |}, t).
Proof.
  intros R.
  destruct (requiredUrl url) as [s|] eqn:E.
  - destruct (requiredUrl_string _ _ E) as [-> _].
    destruct (isValidUrl w s) eqn:V.
    + destruct (axios_get w (normalized s)) as [message|q body_text loadTime] eqn:F.
      * rewrite (postGrade_failed _ _ _ _ E V F) in R. discriminate R.
      * rewrite (postGrade_loaded _ _ _ _ _ _ E V F) in R.
        now exists s, q, body_text, loadTime.
    + rewrite (postGrade_invalid _ _ _ E V) in R. discriminate R.
  - rewrite (postGrade_rejected _ _ E) in R. discriminate R.
Qed.

Lemma shownTitle_short (title : string) :
  (String.length title <= 60)%nat -> shownTitle title = title.
Proof.
  intros H. unfold shownTitle, JsString.substring. cbn [Nat.sub].
  rewrite substring_0_all by exact H.
  destruct (Nat.ltb_spec 60 (String.length title)); [lia|].
  apply append_empty_r.
Qed.

Lemma shownTitle_long (title : string) :
  (60 < String.length title)%nat ->
  shownTitle title = (JsString.substring title 0 60 ++ "...")%string
  /\ String.length (shownTitle title) = 63%nat.
Proof.
  intros H. unfold shownTitle, JsString.substring. cbn [Nat.sub].
  destruct (Nat.ltb_spec 60 (String.length title)); [|lia].
  split; [reflexivity|].
  rewrite length_app, length_substring_0. cbn [String.length]. lia.
Qed.

(** C7, as it is stated, fails: a title of 61 characters is shown with 63,
    its first 60 and the three dots. *)
Lemma response_title_exceeds_60 :
  (String.length longTitle = 61%nat
   /\ exists r t,
       run (postGrade wordy (JsString "roma.example"))
       = (Ok {| status := 200; body := ReportBody r |}, t)
       /\ r_title r = (JsString.substring longTitle 0 60 ++ "...")%string
       /\ String.length (r_title r) = 63%nat)
  /\ ~ (forall (w : world) (url : jsval) (r : report) (t : list event),
           run (postGrade w url)
           = (Ok {| status := 200; body := ReportBody r |}, t) ->
           (String.length (r_title r) <= 60)%nat).
Proof.
  assert (E : exists r t,
             run (postGrade wordy (JsString "roma.example"))
             = (Ok {| status := 200; body := ReportBody r |}, t)
             /\ r_title r = (JsString.substring longTitle 0 60 ++ "...")%string
             /\ String.length (r_title r) = 63%nat).
  { eexists _, _. repeat split; vm_compute; reflexivity. }
  split; [split; [reflexivity | exact E]|].
  intros H. destruct E as [r [t [E [_ L]]]].
  specialize (H _ _ _ _ E). lia.
Qed.

(** C7, as the program has it.  A title of at most 60 characters is
    shown as it is; a longer one is shown as its first 60 characters and
    three dots, 63 characters in all. *)
Theorem response_title_shortened :
  forall (w : world) (url : jsval) (r : report) (t : list event),
    run (postGrade w url) = (Ok {| status := 200; body := ReportBody r |}, t) ->
    exists s q body_text loadTime,
      url = JsString s
      /\ axios_get w (normalized s) = Loaded q body_text loadTime
      /\ ((String.length (title_text q) <= 60)%nat -> r_title r = title_text q)
      /\ ((60 < String.length (title_text q))%nat ->
          r_title r = (JsString.substring (title_text q) 0 60 ++ "...")%string
          /\ String.length (r_title r) = 63%nat)
      /\ (String.length (r_title r) <= 63)%nat.
Proof.
  intros w url r t R.
  destruct (postGrade_200 _ _ _ _ R) as [s [q [body_text [loadTime [-> [V [F S]]]]]]].
  destruct (scan_loaded w _ _ _ _ F) as [ai [t' [_ S']]].
  rewrite S' in S. inversion S. subst. cbn [r_title].
  exists s, q, body_text, loadTime.
  split; [reflexivity|]. split; [exact F|].
  split; [apply shownTitle_short|]. split; [apply shownTitle_long|].
  destruct (Nat.le_gt_cases (String.length (title_text q)) 60) as [L|L].
  - rewrite shownTitle_short by exact L. lia.
  - destruct (shownTitle_long _ L) as [_ ->]. lia.
Qed.

(** The title of 61 characters. *)
Lemma response_title_shortened_witness :
  exists r t,
    run (postGrade wordy (JsString "roma.example"))
    = (Ok {| status := 200; body := ReportBody r |}, t)
    /\ r_title r
       = "Trattoria Roma - Handmade Pasta and Wood-Fired Pizza - Bosto..."%string.
Proof.
  assert (E : exists r t,
             run (postGrade wordy (JsString "roma.example"))
             = (Ok {| status := 200; body := ReportBody r |}, t)).
  { eexists _, _. vm_compute. reflexivity. }
  destruct E as [r [t E]]. exists r, t. split; [exact E|].
  destruct (response_title_shortened _ _ _ _ E)
    as [s [q [body_text [loadTime [U [F [_ [L _]]]]]]]].
  inversion U. subst s. vm_compute in F. inversion F. subst.
  apply L. vm_compute. lia.
Defined.



(** * Further properties of the code *)

(** ** The score and the percentages *)

(** The checks leave the maximum of their bucket as it is. *)
Section MaxScore.

Variable b : bucket.

Lemma seoChecks_maxScore q : maxScore (seoChecks q b) = maxScore b.
Proof.
  unfold seoChecks, checkOgTags, checkCanonical, checkH1, checkDescription,
    checkTitle.
  split_ifs; reflexivity.
Qed.

Lemma contentChecks_maxScore q bodyText :
  maxScore (contentChecks q bodyText b) = maxScore b.
Proof.
  unfold contentChecks, checkImages, checkPhone, checkAddress, checkHours,
    checkMenu.
  split_ifs; reflexivity.
Qed.

Lemma usabilityChecks_maxScore q bodyText :
  maxScore (usabilityChecks q bodyText b) = maxScore b.
Proof.
  unfold usabilityChecks, checkGoogleMaps, checkClickablePhone,
    checkSocialLinks, checkReservation, checkOrdering.
  split_ifs; reflexivity.
Qed.

Lemma technicalChecks_maxScore q url loadTime :
  maxScore (technicalChecks q url loadTime b) = maxScore b.
Proof.
  unfold technicalChecks, checkLoadTime, checkStructuredData, checkFavicon,
    checkHttps, checkViewport.
  split_ifs; reflexivity.
Qed.

End MaxScore.

Lemma maxScore_of_evaluate q bodyText url loadTime :
  maxScore_of (evaluate q bodyText url loadTime) = 100%nat.
Proof.
  unfold maxScore_of. cbn [evaluate seo content usability technical].
  now rewrite seoChecks_maxScore, contentChecks_maxScore,
    usabilityChecks_maxScore, technicalChecks_maxScore.
Qed.

Lemma below_spec (n : nat) (p : nat -> bool) :
  below n p = true -> forall k, (k <= n)%nat -> p k = true.
Proof.
  induction n as [|n IH]; cbn [below]; intros H k Hk.
  - now replace k with O by lia.
  - apply andb_true_iff in H. destruct H as [H1 H2].
    destruct (Nat.eq_dec k (S n)) as [->|]; [exact H1 | apply IH; [exact H2 | lia]].
Qed.

Lemma sameNumber_eq (x : number) (z : Z) : sameNumber x z = true -> x = Finite z 0.
Proof.
  destruct x as [m e| |]; cbn; try discriminate.
  intros H. apply andb_true_iff in H. destruct H as [H1 H2].
  apply Z.eqb_eq in H1, H2. now subst.
Qed.

Lemma percent_of_100 (t : nat) :
  (t <= 102)%nat -> percent t 100 = Finite (Z.of_nat t) 0.
Proof.
  intros H. apply sameNumber_eq.
  apply (below_spec 102 (fun t => sameNumber (percent t 100) (Z.of_nat t)));
    [vm_compute; reflexivity | exact H].
Qed.

(** The percentage rounded half up, in exact arithmetic. *)
Lemma percent_exact (s m : nat) :
  (m = 30 \/ m = 25 \/ m = 20)%nat -> (s <= 30)%nat ->
  percent s m
  = Finite ((200 * Z.of_nat s + Z.of_nat m) / (2 * Z.of_nat m)) 0.
Proof.
  intros Hm Hs. apply sameNumber_eq.
  destruct Hm as [ -> | [ -> | -> ] ];
    match goal with
    | |- sameNumber (percent _ ?m) _ = true =>
        apply (below_spec 30
                 (fun s => sameNumber (percent s m)
                             ((200 * Z.of_nat s + Z.of_nat m) / (2 * Z.of_nat m))));
        [vm_compute; reflexivity | exact Hs]
    end.
Qed.

Lemma totalScore_bound q bodyText url loadTime :
  (totalScore_of (evaluate q bodyText url loadTime) <= 102)%nat.
Proof.
  unfold totalScore_of.
  pose proof (seo_within_max q bodyText url loadTime).
  pose proof (content_within_max q bodyText url loadTime).
  pose proof (usability_within_max q bodyText url loadTime).
  pose proof (technical_within_22 q bodyText url loadTime).
  lia.
Qed.

Lemma score_sum_of q bodyText url loadTime :
  g_score (gradeWebsite q bodyText url loadTime)
  = Finite (Z.of_nat (totalScore_of (evaluate q bodyText url loadTime))) 0.
Proof.
  cbn [gradeWebsite g_score]. rewrite maxScore_of_evaluate.
  apply percent_of_100, totalScore_bound.
Qed.

(** X1. The score of the report is the sum of the scores of the four
    categories of its breakdown, whatever the page: the scaling by the
    sum of the four maxima, which is 100, and the rounding change
    nothing.  The sum is at most 102. *)
Theorem score_is_the_sum_of_the_points :
  forall (q : cheerio) (bodyText url : string) (loadTime : Z),
    let g := gradeWebsite q bodyText url loadTime in
    let bd := g_breakdown g in
    let sum :=
      (cs_score (bd_seo bd) + cs_score (bd_content bd)
       + cs_score (bd_usability bd) + cs_score (bd_technical bd))%nat in
    g_score g = Finite (Z.of_nat sum) 0
    /\ (cs_maxScore (bd_seo bd) + cs_maxScore (bd_content bd)
        + cs_maxScore (bd_usability bd) + cs_maxScore (bd_technical bd)
        = 100)%nat
    /\ (sum <= 102)%nat.
Proof.
  intros q bodyText url loadTime g bd sum. subst sum bd g.
  cbn [gradeWebsite g_breakdown bd_seo bd_content bd_usability bd_technical
       summary cs_score cs_maxScore].
  split; [apply score_sum_of|].
  split; [apply maxScore_of_evaluate | apply totalScore_bound].
Qed.

(** X2. The percentage of each category is its score over its maximum,
    times 100, rounded half up in exact arithmetic: the binary64
    operations of the program never show.  For the SEO checks that is
    the rounding of score * 100 / 30; for the content and the usability
    it is 4 times the score, and for the technical checks 5 times the
    score, which goes up to 110. *)
Theorem percentages_are_exact :
  forall (q : cheerio) (bodyText url : string) (loadTime : Z),
    let r := evaluate q bodyText url loadTime in
    let bd := g_breakdown (gradeWebsite q bodyText url loadTime) in
    let exact (b : bucket) :=
      Finite ((200 * Z.of_nat (score b) + Z.of_nat (maxScore b))
              / (2 * Z.of_nat (maxScore b))) 0 in
    cs_percentage (bd_seo bd) = exact (seo r)
    /\ cs_percentage (bd_content bd) = Finite (4 * Z.of_nat (score (content r))) 0
    /\ cs_percentage (bd_usability bd)
       = Finite (4 * Z.of_nat (score (usability r))) 0
    /\ cs_percentage (bd_technical bd)
       = Finite (5 * Z.of_nat (score (technical r))) 0.
Proof.
  intros q bodyText url loadTime r bd exact.
  pose proof (seo_within_max q bodyText url loadTime) as B1.
  pose proof (content_within_max q bodyText url loadTime) as B2.
  pose proof (usability_within_max q bodyText url loadTime) as B3.
  pose proof (technical_within_22 q bodyText url loadTime) as B4.
  fold r in B1, B2, B3, B4.
  assert (M1 : maxScore (seo r) = 30%nat) by apply seoChecks_maxScore.
  assert (M2 : maxScore (content r) = 25%nat) by apply contentChecks_maxScore.
  assert (M3 : maxScore (usability r) = 25%nat) by apply usabilityChecks_maxScore.
  assert (M4 : maxScore (technical r) = 20%nat) by apply technicalChecks_maxScore.
  subst bd exact. cbn [gradeWebsite g_breakdown bd_seo bd_content bd_usability
                       bd_technical summary cs_percentage]. fold r.
  rewrite (percent_exact (score (seo r)) (maxScore (seo r))) by (rewrite ?M1; lia).
  rewrite (percent_exact (score (content r)) (maxScore (content r)))
    by (rewrite ?M2; lia).
  rewrite (percent_exact (score (usability r)) (maxScore (usability r)))
    by (rewrite ?M3; lia).
  rewrite (percent_exact (score (technical r)) (maxScore (technical r)))
    by (rewrite ?M4; lia).
  rewrite M2, M3, M4. change (Z.of_nat 25) with 25. change (Z.of_nat 20) with 20.
  assert (Q : forall s, (200 * s + 25) / (2 * 25) = 4 * s)
    by (intros s; symmetry; apply Z.div_unique with (r := 25); lia).
  assert (F : forall s, (200 * s + 20) / (2 * 20) = 5 * s)
    by (intros s; symmetry; apply Z.div_unique with (r := 20); lia).
  rewrite !Q, !F. repeat split.
Qed.

(** ** Which check gives which of five texts *)

Lemma seo_says (q : cheerio) :
  let l := texts (seoChecks q (seo initial)) in
  ~ In httpsMissing l /\ ~ In phoneMissing l /\ ~ In phoneNotClickable l
  /\ ~ In pdfMenu l /\ ~ In menuMissing l.
Proof.
  unfold seoChecks, checkOgTags, checkCanonical, checkH1, checkDescription,
    checkTitle, httpsMissing, phoneMissing, phoneNotClickable, pdfMenu,
    menuMissing.
  split_ifs; says.
Qed.

Lemma technical_says (q : cheerio) (url : string) (loadTime : Z) :
  let l := texts (technicalChecks q url loadTime (technical initial)) in
  (In httpsMissing l <-> JsString.startsWith url "https" = false)
  /\ ~ In phoneMissing l /\ ~ In phoneNotClickable l
  /\ ~ In pdfMenu l /\ ~ In menuMissing l.
Proof.
  unfold technicalChecks, checkLoadTime, checkStructuredData, checkFavicon,
    checkHttps, checkViewport, slowLoad, httpsMissing, phoneMissing,
    phoneNotClickable, pdfMenu, menuMissing.
  destruct (JsString.startsWith url "https");
    split_ifs; says.
Qed.

Lemma content_says (q : cheerio) (bodyText : string) :
  let l := texts (contentChecks q bodyText (content initial)) in
  ~ In httpsMissing l
  /\ (In phoneMissing l <-> hasPhone_of q bodyText = false)
  /\ ~ In phoneNotClickable l
  /\ (In pdfMenu l <-> hasPdf_of q = true)
  /\ (In menuMissing l <-> hasPdf_of q = false /\ hasMenu_of q bodyText = false).
Proof.
  unfold contentChecks, checkImages, checkPhone, checkAddress, checkHours,
    checkMenu, altWarning, httpsMissing, phoneMissing, phoneNotClickable,
    pdfMenu, menuMissing.
  destruct (hasPhone_of q bodyText), (hasPdf_of q), (hasMenu_of q bodyText);
    split_ifs; says.
Qed.

Lemma usability_says (q : cheerio) (bodyText : string) :
  let l := texts (usabilityChecks q bodyText (usability initial)) in
  ~ In httpsMissing l /\ ~ In phoneMissing l
  /\ (In phoneNotClickable l
      <-> hasClickablePhone_of q = false /\ hasPhone_of q bodyText = true)
  /\ ~ In pdfMenu l /\ ~ In menuMissing l.
Proof.
  unfold usabilityChecks, checkGoogleMaps, checkClickablePhone,
    checkSocialLinks, checkReservation, checkOrdering, httpsMissing,
    phoneMissing, phoneNotClickable, pdfMenu, menuMissing.
  destruct (hasPhone_of q bodyText), (hasClickablePhone_of q);
    split_ifs; says.
Qed.

Lemma endsWith_app (pre p : string) : JsString.endsWith (pre ++ p) p = true.
Proof.
  induction pre as [|c pre IH].
  - cbn [append]. destruct p; cbn [JsString.endsWith]; now rewrite String.eqb_refl.
  - cbn [append JsString.endsWith]. rewrite IH. apply orb_true_r.
Qed.

(** X3. A link to any file whose name ends in ".pdf" decides the menu
    check: it adds 2 to the score and pushes the error of the PDF menu,
    whether or not the page also has a menu in its text, its links or
    its pictures.  The content score of the report is then 2 and the
    points of the hours, the address, the phone and the pictures; the
    report has the error, and never the warning of the missing menu. *)
Theorem pdf_link_overrides_menu :
  forall (q : cheerio) (bodyText url : string) (loadTime : Z) (pre : string),
    In (pre ++ ".pdf")%string (a_href q) ->
    let g := gradeWebsite q bodyText url loadTime in
    let T := reportTexts g in
    (forall b,
        let b' := checkMenu (hasPdf_of q) (hasMenu_of q bodyText) b in
        score b' = (score b + 2)%nat
        /\ maxScore b' = maxScore b
        /\ issues b' = issues b ++ [ {| type := error; text := pdfMenu |} ])
    /\ cs_score (bd_content (g_breakdown g))
       = (2
          + (if hasHours_of bodyText then 5 else 0)
          + (if hasAddress_of bodyText then 4 else 0)
          + (if hasPhone_of q bodyText then 4 else 0)
          + (if (5 <=? imageCount_of q)%nat then 4 else 0))%nat
    /\ In pdfMenu T
    /\ ~ In menuMissing T.
Proof.
  intros q bodyText url loadTime pre Hin g T.
  assert (P : hasPdf_of q = true).
  { unfold hasPdf_of, a_href_ends. apply existsb_exists.
    exists (pre ++ ".pdf")%string. split; [exact Hin | apply endsWith_app]. }
  destruct (seo_says q) as [_ [_ [_ [S4 S5]]]].
  destruct (content_says q bodyText) as [_ [_ [_ [C4 C5]]]].
  destruct (usability_says q bodyText) as [_ [_ [_ [U4 U5]]]].
  destruct (technical_says q url loadTime) as [_ [_ [_ [T4 T5]]]].
  split; [intros b b'; subst b'; unfold checkMenu; rewrite P; now repeat split|].
  split.
  { subst g.
    cbn [gradeWebsite g_breakdown bd_content summary cs_score evaluate content].
    rewrite content_score, P. reflexivity. }
  subst T g. rewrite !reportTexts_In. cbn [evaluate seo content usability technical].
  split.
  - right. left. now apply C4.
  - intros [H|[H|[H|H]]]; [now apply S5 | | now apply U5 | now apply T5].
    apply C5 in H. destruct H as [H _]. congruence.
Qed.

(** A page with a menu in its text and a link to its wine list: 2
    points for the menu, not 8, and the error. *)
Lemma pdf_link_overrides_menu_witness :
  cs_score (bd_content
              (g_breakdown (gradeWebsite wineList "our menu" "https://roma.example" 900)))
  = 2%nat
  /\ In pdfMenu
       (reportTexts (gradeWebsite wineList "our menu" "https://roma.example" 900)).
Proof.
  destruct (pdf_link_overrides_menu wineList "our menu" "https://roma.example"
              900 "/files/wine-list")
    as [_ [S [I _]]].
  - cbn. left. reflexivity.
  - split; [exact S | exact I].
Defined.

(** X4. The two warnings about the phone never come together.  "Phone
    number not found" is given exactly when the text has no phone number
    and the page no [tel:] link; "Phone number not clickable on mobile"
    exactly when the text has a phone number and the page no [tel:] link.
    With a [tel:] link neither is given. *)
Theorem phone_warnings_exclude_each_other :
  forall (q : cheerio) (bodyText url : string) (loadTime : Z),
    let T := reportTexts (gradeWebsite q bodyText url loadTime) in
    let inText := RegExp.test RegExp.phone bodyText in
    let link := a_href_starts q "tel:" in
    (In phoneMissing T <-> inText = false /\ link = false)
    /\ (In phoneNotClickable T <-> inText = true /\ link = false)
    /\ ~ (In phoneMissing T /\ In phoneNotClickable T)
    /\ (link = true -> ~ In phoneMissing T /\ ~ In phoneNotClickable T).
Proof.
  intros q bodyText url loadTime T inText link.
  destruct (seo_says q) as [_ [S2 [S3 _]]].
  destruct (content_says q bodyText) as [_ [C2 [C3 _]]].
  destruct (usability_says q bodyText) as [_ [U2 [U3 _]]].
  destruct (technical_says q url loadTime) as [_ [T2 [T3 _]]].
  assert (A : In phoneMissing T <-> inText = false /\ link = false).
  { subst T. rewrite reportTexts_In.
    cbn [evaluate seo content usability technical].
    unfold hasPhone_of in C2. fold inText link in C2.
    rewrite orb_false_iff in C2. tauto. }
  assert (B : In phoneNotClickable T <-> inText = true /\ link = false).
  { subst T. rewrite reportTexts_In.
    cbn [evaluate seo content usability technical].
    unfold hasPhone_of, hasClickablePhone_of in U3. fold inText link in U3.
    destruct inText, link; cbn in U3; intuition congruence. }
  split; [exact A|]. split; [exact B|]. split.
  - rewrite A, B. intros [[H _] [H' _]]. congruence.
  - intros L. rewrite A, B. split; intros [_ H]; congruence.
Qed.

(** A page with a [tel:] link and no number in its text. *)
Lemma phone_warnings_exclude_each_other_witness :
  ~ In phoneMissing (reportTexts (gradeWebsite fullMarks "" "" 0))
  /\ ~ In phoneNotClickable (reportTexts (gradeWebsite fullMarks "" "" 0)).
Proof.
  apply (phone_warnings_exclude_each_other fullMarks "" "" 0). reflexivity.
Defined.

Lemma prefix_split (p s : string) :
  String.prefix p s = true -> exists r, s = (p ++ r)%string.
Proof.
  revert s. induction p as [|c p IH]; intros s H.
  - now exists s.
  - destruct s as [|d s]; cbn in H; [discriminate|].
    destruct (ascii_dec c d) as [->|]; [|discriminate].
    destruct (IH s H) as [r ->]. now exists r.
Qed.

Lemma startsWith_https_http (s : string) :
  JsString.startsWith s "https" = true -> JsString.startsWith s "http" = true.
Proof.
  unfold JsString.startsWith. intros H.
  destruct (prefix_split _ _ H) as [r ->]. reflexivity.
Qed.

(** X5. In a response 200 the error "Site not secure (no HTTPS)" is
    given exactly when the url of the request starts with "http" and not
    with "https": a url without "http" at its start is fetched and graded
    with "https://" before it, and never gets the error. *)
Theorem https_error_only_for_http_urls :
  forall (w : world) (url : jsval) (r : report) (t : list event),
    run (postGrade w url) = (Ok {| status := 200; body := ReportBody r |}, t) ->
    exists s,
      url = JsString s
      /\ (In httpsMissing (map i_text (r_issues r))
          <-> JsString.startsWith s "http" = true
              /\ JsString.startsWith s "https" = false).
Proof.
  intros w url r t R.
  destruct (postGrade_200 _ _ _ _ R) as [s [q [body_text [loadTime [-> [V [F S]]]]]]].
  destruct (scan_loaded w _ _ _ _ F) as [ai [t' [_ S']]].
  rewrite S' in S. inversion S. subst. cbn [r_issues].
  exists s. split; [reflexivity|].
  pose proof (reportTexts_In q (JsString.toLowerCase body_text) (normalized s)
                loadTime httpsMissing) as RT.
  unfold reportTexts in RT. cbn [evaluate seo content usability technical] in RT.
  destruct (seo_says q) as [S1 _].
  destruct (content_says q (JsString.toLowerCase body_text)) as [C1 _].
  destruct (usability_says q (JsString.toLowerCase body_text)) as [U1 _].
  destruct (technical_says q (normalized s) loadTime) as [T1 _].
  assert (N : JsString.startsWith (normalized s) "https" = false
              <-> JsString.startsWith s "http" = true
                  /\ JsString.startsWith s "https" = false).
  { unfold normalized. destruct (JsString.startsWith s "http") eqn:P.
    - tauto.
    - change (JsString.startsWith ("https://" ++ s) "https") with true.
      split; [discriminate | intros [H _]; discriminate H]. }
  tauto.
Qed.

(** The same page asked for over http and as a bare domain. *)
Lemma https_error_only_for_http_urls_witness :
  (exists r t,
     run (postGrade noCredential (JsString "http://roma.example"))
     = (Ok {| status := 200; body := ReportBody r |}, t)
     /\ In httpsMissing (map i_text (r_issues r)))
  /\ (exists r t,
        run (postGrade noCredential (JsString "roma.example"))
        = (Ok {| status := 200; body := ReportBody r |}, t)
        /\ ~ In httpsMissing (map i_text (r_issues r))).
Proof.
  split.
  - assert (E : exists r t,
               run (postGrade noCredential (JsString "http://roma.example"))
               = (Ok {| status := 200; body := ReportBody r |}, t)).
    { eexists _, _. vm_compute. reflexivity. }
    destruct E as [r [t E]]. exists r, t. split; [exact E|].
    destruct (https_error_only_for_http_urls _ _ _ _ E) as [s [U H]].
    inversion U. subst s. apply H. split; reflexivity.
  - assert (E : exists r t,
               run (postGrade noCredential (JsString "roma.example"))
               = (Ok {| status := 200; body := ReportBody r |}, t)).
    { eexists _, _. vm_compute. reflexivity. }
    destruct E as [r [t E]]. exists r, t. split; [exact E|].
    destruct (https_error_only_for_http_urls _ _ _ _ E) as [s [U H]].
    inversion U. subst s. intros I. apply H in I. destruct I as [I _].
    discriminate I.
Defined.

(** ** A report without issues *)

Ltac show_bucket :=
  cbn [issues score push award app initial seo content usability technical].

Lemma seo_clean (q : cheerio) :
  issues (seoChecks q (seo initial)) = [] <-> score (seoChecks q (seo initial)) = 30%nat.
Proof.
  unfold seoChecks, checkOgTags, checkCanonical, checkH1, checkDescription,
    checkTitle.
  split_ifs; show_bucket; split; intros H;
    first [discriminate H | reflexivity].
Qed.

Lemma content_clean (q : cheerio) (bodyText : string) :
  issues (contentChecks q bodyText (content initial)) = [] ->
  score (contentChecks q bodyText (content initial)) = 25%nat
  /\ hasPhone_of q bodyText = true.
Proof.
  unfold contentChecks, checkImages, checkPhone, checkAddress, checkHours,
    checkMenu.
  destruct (hasPhone_of q bodyText);
    split_ifs; show_bucket; intros H;
    first [discriminate H | split; reflexivity].
Qed.

Lemma usability_clean (q : cheerio) (bodyText : string) :
  hasPhone_of q bodyText = true ->
  issues (usabilityChecks q bodyText (usability initial)) = [] ->
  score (usabilityChecks q bodyText (usability initial)) = 25%nat.
Proof.
  intros P. unfold usabilityChecks, checkGoogleMaps, checkClickablePhone,
    checkSocialLinks, checkReservation, checkOrdering.
  rewrite P.
  split_ifs; show_bucket; intros H; first [discriminate H | reflexivity].
Qed.

Lemma usability_full (q : cheerio) (bodyText : string) :
  score (usabilityChecks q bodyText (usability initial)) = 25%nat ->
  issues (usabilityChecks q bodyText (usability initial)) = [].
Proof.
  unfold usabilityChecks, checkGoogleMaps, checkClickablePhone,
    checkSocialLinks, checkReservation, checkOrdering.
  split_ifs; show_bucket; intros H; first [discriminate H | reflexivity].
Qed.

Lemma technical_clean (q : cheerio) (url : string) (loadTime : Z) :
  issues (technicalChecks q url loadTime (technical initial)) = [] ->
  score (technicalChecks q url loadTime (technical initial)) = 20%nat
  \/ score (technicalChecks q url loadTime (technical initial)) = 22%nat.
Proof.
  unfold technicalChecks, checkLoadTime, checkStructuredData, checkFavicon,
    checkHttps, checkViewport.
  split_ifs; show_bucket; intros H;
    first [discriminate H | left; reflexivity | right; reflexivity].
Qed.

Lemma collected_nil (r : results) :
  collected r = [] ->
  issues (seo r) = [] /\ issues (content r) = [] /\ issues (usability r) = []
  /\ issues (technical r) = [].
Proof.
  unfold collected, tagged. intros H.
  repeat (apply app_eq_nil in H; destruct H as [?H H]).
  repeat match goal with
         | H : map _ _ = [] |- _ => apply map_eq_nil in H
         end.
  auto.
Qed.

(** X6. A report without issues has full marks in the SEO, the content
    and the usability, and 20 or 22 points for the technical checks: its
    score is 100 or 102. *)
Theorem no_issues_means_full_marks :
  forall (q : cheerio) (bodyText url : string) (loadTime : Z),
    let r := evaluate q bodyText url loadTime in
    let g := gradeWebsite q bodyText url loadTime in
    g_issues g = [] ->
    score (seo r) = 30%nat
    /\ score (content r) = 25%nat
    /\ score (usability r) = 25%nat
    /\ (score (technical r) = 20%nat \/ score (technical r) = 22%nat)
    /\ (g_score g = Finite 100 0 \/ g_score g = Finite 102 0).
Proof.
  intros q bodyText url loadTime r g H.
  assert (C : collected r = []).
  { apply Permutation_nil, Permutation_sym.
    subst g. cbn [gradeWebsite g_issues] in H. fold r in H. rewrite <- H.
    apply (sort_perm bySeverity). }
  destruct (collected_nil r C) as [I1 [I2 [I3 I4]]].
  subst r. cbn [evaluate seo content usability technical] in *.
  apply seo_clean in I1.
  apply content_clean in I2. destruct I2 as [I2 P].
  apply (usability_clean _ _ P) in I3.
  apply technical_clean in I4.
  split; [exact I1|]. split; [exact I2|]. split; [exact I3|]. split; [exact I4|].
  subst g. rewrite score_sum_of. unfold totalScore_of.
  cbn [evaluate seo content usability technical].
  rewrite I1, I2, I3. destruct I4 as [-> | ->]; [left | right]; reflexivity.
Qed.

(** The page that passes every check, loaded in 1500 ms. *)
Lemma no_issues_means_full_marks_witness :
  g_score (gradeWebsite fullMarks fullMarksText "https://roma.example" 1500)
  = Finite 100 0
  \/ g_score (gradeWebsite fullMarks fullMarksText "https://roma.example" 1500)
     = Finite 102 0.
Proof.
  apply (no_issues_means_full_marks fullMarks fullMarksText
           "https://roma.example" 1500).
  vm_compute. reflexivity.
Defined.

Lemma tagged_In_category (c : category) (l : list finding) (i : issue) :
  In i (tagged c l) -> i_category i = c.
Proof.
  unfold tagged. intros H. apply in_map_iff in H. now destruct H as [x [<- _]].
Qed.

(** A category has no issue in the report exactly when its bucket has
    none. *)
Lemma no_issue_of_category (q : cheerio) (bodyText url : string) (loadTime : Z)
  (c : category) :
  let r := evaluate q bodyText url loadTime in
  (forall i, In i (g_issues (gradeWebsite q bodyText url loadTime)) ->
             i_category i <> c)
  <-> issues (bucketOf c r) = [].
Proof.
  intros r. cbn [gradeWebsite g_issues]. fold r.
  assert (P : forall i, In i (sort bySeverity (collected r)) <-> In i (collected r)).
  { intros i. split; apply Permutation_in;
      [apply Permutation_sym|]; apply (sort_perm bySeverity). }
  split.
  - intros H. destruct (issues (bucketOf c r)) as [|x l] eqn:E; [reflexivity|].
    exfalso.
    apply (H {| i_type := type x; i_text := text x; i_category := c |});
      [|reflexivity].
    apply P. unfold collected. rewrite !in_app_iff.
    destruct c; cbn [bucketOf] in E; rewrite E; cbn; tauto.
  - intros E i Hi. apply P in Hi. unfold collected in Hi.
    rewrite !in_app_iff in Hi.
    destruct c; cbn [bucketOf] in E;
      destruct Hi as [Hi|[Hi|[Hi|Hi]]];
      try (rewrite E in Hi; destruct Hi);
      apply tagged_In_category in Hi; rewrite Hi; discriminate.
Qed.

(** X7. The SEO score is 30 exactly when the report has no issue of the
    category SEO; a usability score of 25 leaves no issue of the category
    Usability. *)
Theorem full_marks_leave_no_issue :
  forall (q : cheerio) (bodyText url : string) (loadTime : Z),
    let r := evaluate q bodyText url loadTime in
    let l := g_issues (gradeWebsite q bodyText url loadTime) in
    (score (seo r) = 30%nat <-> forall i, In i l -> i_category i <> SEO)
    /\ (score (usability r) = 25%nat ->
        forall i, In i l -> i_category i <> Usability).
Proof.
  intros q bodyText url loadTime r l. subst l. split.
  - rewrite (no_issue_of_category q bodyText url loadTime SEO).
    cbn [bucketOf evaluate seo]. symmetry. apply seo_clean.
  - intros H.
    apply (no_issue_of_category q bodyText url loadTime Usability).
    cbn [bucketOf evaluate usability]. now apply usability_full.
Qed.

(** The page that passes every check has no issue of the SEO. *)
Lemma full_marks_leave_no_issue_witness :
  Forall (fun i => i_category i <> SEO)
    (g_issues (gradeWebsite fullMarks "" "" 0)).
Proof.
  apply Forall_forall.
  apply (full_marks_leave_no_issue fullMarks "" "" 0). vm_compute. reflexivity.
Defined.

(** ** The number of issues *)

Ltac count_issues :=
  split_ifs; cbn [issues push award app initial seo content usability technical
                  length]; intros; lia.

Lemma seo_count (q : cheerio) :
  (length (issues (seoChecks q (seo initial))) <= 5)%nat.
Proof.
  unfold seoChecks, checkOgTags, checkCanonical, checkH1, checkDescription,
    checkTitle.
  count_issues.
Qed.

Lemma technical_count (q : cheerio) (url : string) (loadTime : Z) :
  (length (issues (technicalChecks q url loadTime (technical initial))) <= 5)%nat.
Proof.
  unfold technicalChecks, checkLoadTime, checkStructuredData, checkFavicon,
    checkHttps, checkViewport.
  count_issues.
Qed.

Lemma content_count (q : cheerio) (bodyText : string) :
  (length (issues (contentChecks q bodyText (content initial)))
   <= if hasPhone_of q bodyText then 4 else 5)%nat.
Proof.
  unfold contentChecks, checkImages, checkPhone, checkAddress, checkHours,
    checkMenu.
  destruct (hasPhone_of q bodyText); count_issues.
Qed.

Lemma usability_count (q : cheerio) (bodyText : string) :
  (length (issues (usabilityChecks q bodyText (usability initial)))
   <= if hasPhone_of q bodyText then 5 else 4)%nat.
Proof.
  unfold usabilityChecks, checkGoogleMaps, checkClickablePhone,
    checkSocialLinks, checkReservation, checkOrdering.
  destruct (hasPhone_of q bodyText); count_issues.
Qed.

(** X8. A report has at most 19 issues: each category gives at most 5,
    and the content and the usability together at most 9, since the two
    warnings about the phone exclude each other.  A page with nothing on
    it, fetched over http in 6 seconds, has the 19. *)
Theorem at_most_19_issues :
  forall (q : cheerio) (bodyText url : string) (loadTime : Z),
    (length (g_issues (gradeWebsite q bodyText url loadTime)) <= 19)%nat
    /\ length (g_issues (gradeWebsite blank "" "http://roma.example" 6000))
       = 19%nat.
Proof.
  intros q bodyText url loadTime. split; [|vm_compute; reflexivity].
  cbn [gradeWebsite g_issues].
  rewrite <- (Permutation_length (sort_perm bySeverity _)).
  unfold collected, tagged. rewrite !List.length_app, !List.length_map.
  cbn [evaluate seo content usability technical].
  pose proof (seo_count q). pose proof (technical_count q url loadTime).
  pose proof (content_count q bodyText). pose proof (usability_count q bodyText).
  destruct (hasPhone_of q bodyText); lia.
Qed.

(** ** What the handler fetches and whom it calls *)

Lemma normalized_starts (s : string) :
  JsString.startsWith (normalized s) "http" = true.
Proof.
  unfold normalized. destruct (JsString.startsWith s "http") eqn:P;
    [exact P | reflexivity].
Qed.

Lemma normalized_idempotent (s : string) : normalized (normalized s) = normalized s.
Proof. unfold normalized at 1. now rewrite normalized_starts. Qed.

Lemma generateAIInsights_trace (w : world) (d : websiteData)
  (issues : list issue) (t : list event) :
  exists v tried rest,
    modelNames = tried ++ rest
    /\ generateAIInsights w d issues t
       = (Ok v, t ++ calls (prompt_of d issues) tried)
    /\ (genAI w = None -> tried = []).
Proof.
  unfold generateAIInsights. destruct (genAI w) as [client|].
  - destruct (tryModels_returns client (prompt_of d issues) modelNames t)
      as [v [tried [rest [E R]]]].
    exists v, tried, rest. split; [exact E|]. split; [exact R | discriminate].
  - exists JNull, [], modelNames. cbn. now rewrite app_nil_r.
Qed.

(** The trace of a request, case by case. *)
Lemma postGrade_trace (w : world) (url : jsval) (resp : result response)
  (t : list event) :
  run (postGrade w url) = (resp, t) ->
  t = []
  \/ exists s,
       url = JsString s /\ isValidUrl w s = true
       /\ ((exists message, axios_get w (normalized s) = Failed message)
           /\ t = [Fetch (normalized s)]
           \/ exists q body_text loadTime,
                axios_get w (normalized s) = Loaded q body_text loadTime
                /\ run (scan w (normalized s)) = (resp, t)).
Proof.
  intros R.
  destruct (requiredUrl url) as [s|] eqn:E.
  - destruct (requiredUrl_string _ _ E) as [-> _].
    destruct (isValidUrl w s) eqn:V.
    + right. exists s. split; [reflexivity|]. split; [exact V|].
      destruct (axios_get w (normalized s)) as [message|q body_text loadTime] eqn:F.
      * rewrite (postGrade_failed _ _ _ _ E V F) in R. inversion R.
        left. split; [now exists message | reflexivity].
      * rewrite (postGrade_loaded _ _ _ _ _ _ E V F) in R.
        right. now exists q, body_text, loadTime.
    + rewrite (postGrade_invalid _ _ _ E V) in R. inversion R. now left.
  - rewrite (postGrade_rejected _ _ E) in R. inversion R. now left.
Qed.

(** X9. Whatever the handler fetches is the url of the request
    normalized, and it is the very string that [isValidUrl] gave to the
    URL parser, which took it: it starts with "http" and normalizing it
    again changes nothing. *)
Theorem fetched_url_was_validated :
  forall (w : world) (url : jsval) (resp : result response) (t : list event)
         (u : string),
    run (postGrade w url) = (resp, t) ->
    In (Fetch u) t ->
    exists s,
      url = JsString s
      /\ u = normalized s
      /\ URL_parses w u = true
      /\ JsString.startsWith u "http" = true
      /\ normalized u = u.
Proof.
  intros w url resp t u R Hu.
  destruct (postGrade_trace _ _ _ _ R) as [->|[s [-> [V H]]]]; [destruct Hu|].
  assert (U : u = normalized s).
  { destruct H as [[_ ->]|[q [body_text [loadTime [F S]]]]].
    - destruct Hu as [Hu|[]]. now inversion Hu.
    - destruct (scan_loaded w _ _ _ _ F) as [ai [t' [G S']]].
      rewrite S' in S. inversion S. subst t'.
      match type of G with
      | generateAIInsights ?w ?d ?i ?t0 = _ =>
          destruct (generateAIInsights_returns w d i t0) as [v [tried G']]
      end.
      rewrite G' in G. inversion G. subst t. cbn [app] in Hu.
      destruct Hu as [Hu|Hu]; [now inversion Hu|].
      now apply calls_noFetch in Hu. }
  exists s. subst u. split; [reflexivity|]. split; [reflexivity|].
  split; [exact V|]. split; [apply normalized_starts | apply normalized_idempotent].
Qed.

(** The fetch of a bare domain. *)
Lemma fetched_url_was_validated_witness :
  exists s,
    JsString "roma.example" = JsString s
    /\ "https://roma.example"%string = normalized s.
Proof.
  destruct (fetched_url_was_validated noCredential (JsString "roma.example")
              (fst (run (postGrade noCredential (JsString "roma.example"))))
              (snd (run (postGrade noCredential (JsString "roma.example"))))
              "https://roma.example")
    as [s [U [N _]]].
  - now destruct (run (postGrade noCredential (JsString "roma.example"))).
  - vm_compute. left. reflexivity.
  - exists s. now split.
Defined.

(** X10. A url that starts with "http" is given to the URL parser as it
    is.  On a platform whose parser takes no string without a scheme, a
    bare domain that starts with "http", like "httpbin.org", is answered
    400 "Invalid URL format", and nothing is fetched. *)
Theorem http_prefixed_domain_rejected :
  forall (w : world) (s : string),
    (forall x, URL_parses w x = true -> hasScheme x = true) ->
    JsString.startsWith s "http" = true ->
    hasScheme s = false ->
    run (postGrade w (JsString s))
    = (Ok {| status := 400; body := ErrorBody "Invalid URL format" |}, []).
Proof.
  intros w s A P N.
  assert (E : requiredUrl (JsString s) = Some s)
    by (destruct s; [discriminate P | reflexivity]).
  apply postGrade_invalid with (s := s); [exact E|].
  unfold isValidUrl. rewrite P.
  destruct (URL_parses w s) eqn:V; [|reflexivity].
  rewrite (A _ V) in N. discriminate N.
Qed.

Lemma http_prefixed_domain_rejected_witness :
  run (postGrade noCredential (JsString "httpbin.org"))
  = (Ok {| status := 400; body := ErrorBody "Invalid URL format" |}, []).
Proof.
  apply (http_prefixed_domain_rejected noCredential "httpbin.org");
    [intros x H; exact H | reflexivity | reflexivity].
Defined.

(** X11. The models are called only for a page that loaded: a response
    that is not 200 comes with no call of a model.  For a response 200 the
    trace is the fetch of the url of the response and then calls of a
    prefix of [modelNames], in order, all with the prompt built from the
    url, the score, the load time and the issues of the response and from
    a title of at most 60 characters, which the title of the response
    equals or extends by three dots. *)
Theorem models_called_after_the_page_loaded :
  forall (w : world) (url : jsval) (resp : response) (t : list event),
    run (postGrade w url) = (Ok resp, t) ->
    (status resp <> 200%nat -> forall m p, ~ In (Generate m p) t)
    /\ (forall r,
          resp = {| status := 200; body := ReportBody r |} ->
          exists d tried rest,
            modelNames = tried ++ rest
            /\ t = Fetch (r_url r) :: calls (prompt_of d (r_issues r)) tried
            /\ wd_url d = r_url r
            /\ wd_score d = r_score r
            /\ wd_loadTime d = r_loadTime r
            /\ (r_title r = wd_title d
                \/ r_title r = (wd_title d ++ "...")%string)
            /\ (String.length (wd_title d) <= 60)%nat
            /\ (genAI w = None -> tried = [])).
Proof.
  intros w url resp t R.
  destruct (postGrade_trace _ _ _ _ R) as [->|[s [-> [V H]]]].
  { split; [intros _ m p []|].
    intros r ->. destruct (requiredUrl url) as [s|] eqn:E.
    - destruct (requiredUrl_string _ _ E) as [-> _].
      destruct (isValidUrl w s) eqn:V.
      + destruct (postGrade_200 _ _ _ _ R)
          as [s' [q [body_text [loadTime [U [_ [F S]]]]]]].
        destruct (scan_loaded w _ _ _ _ F) as [ai [t' [G S']]].
        rewrite S' in S. inversion S.
        match type of G with
        | generateAIInsights ?w ?d ?i ?t0 = _ =>
            destruct (generateAIInsights_returns w d i t0) as [v [tried G']]
        end.
        rewrite G' in G. inversion G. subst t'. discriminate.
      + rewrite (postGrade_invalid _ _ _ E V) in R. discriminate R.
    - rewrite (postGrade_rejected _ _ E) in R. discriminate R. }
  destruct H as [[[message F] ->]|[q [body_text [loadTime [F S]]]]].
  - assert (E : requiredUrl (JsString s) = Some s).
    { destruct s; [|reflexivity].
      unfold run, postGrade in R. cbn in R. discriminate R. }
    rewrite (postGrade_failed _ _ _ _ E V F) in R. inversion R.
    split.
    + intros _ m p [H|[]]. discriminate H.
    + intros r H. discriminate H.
  - set (g := gradeWebsite q (JsString.toLowerCase body_text) (normalized s) loadTime).
    set (d := {| wd_url := normalized s;
                 wd_title := JsString.substring (title_text q) 0 60;
                 wd_score := g_score g; wd_loadTime := loadTime |}).
    destruct (scan_loaded w _ _ _ _ F) as [ai [t' [G S']]].
    fold g in G, S'. fold d in G.
    rewrite S' in S. inversion S. subst t' resp.
    destruct (generateAIInsights_trace w d (g_issues g) [Fetch (normalized s)])
      as [v [tried [rest [E [G' N]]]]].
    rewrite G' in G. inversion G. subst.
    split; [intros H; now destruct H|].
    intros r Hr. inversion Hr. subst r. cbn [r_url r_issues r_score r_loadTime r_title].
    exists d, tried, rest. cbn [wd_url wd_score wd_loadTime wd_title d].
    split; [exact E|]. split; [reflexivity|]. repeat split; try exact N.
    + unfold shownTitle. destruct (60 <? String.length (title_text q))%nat;
        [now right | left; apply append_empty_r].
    + unfold JsString.substring. cbn [Nat.sub]. rewrite length_substring_0. lia.
Qed.

(** The first two models are down and the third replies: three calls
    after the fetch. *)
Lemma models_called_after_the_page_loaded_witness :
  exists r t d,
    run (postGrade thirdAnswers (JsString "roma.example"))
    = (Ok {| status := 200; body := ReportBody r |}, t)
    /\ t = Fetch "https://roma.example"
           :: calls (prompt_of d (r_issues r)) (firstn 3 modelNames).
Proof.
  assert (E : exists r t,
             run (postGrade thirdAnswers (JsString "roma.example"))
             = (Ok {| status := 200; body := ReportBody r |}, t)
             /\ r_url r = "https://roma.example"%string
             /\ length t = 4%nat).
  { eexists _, _. repeat split; vm_compute; reflexivity. }
  destruct E as [r [t [E [U L]]]].
  destruct (models_called_after_the_page_loaded _ _ _ _ E) as [_ H].
  destruct (H r eq_refl) as [d [tried [rest [P [T _]]]]].
  exists r, t, d. split; [exact E|]. rewrite T, U. f_equal.
  rewrite T in L. cbn [length] in L. unfold calls in L. rewrite length_map in L.
  assert (tried = firstn 3 modelNames); [|now subst].
  rewrite P. destruct tried as [|a [|b [|c [|]]]]; cbn in L; try lia.
  reflexivity.
Defined.

(** ** The self-test of the models *)

Section SelfTest.

Variable client : string -> string -> generated.

Lemma probe_run (modelName : string) (results : list testResult)
  (t : list event) :
  probe client modelName results t
  = (Ok match client modelName testPrompt with
        | Replied text =>
            (results ++ [ {| tr_model := modelName; tr_status := TestSuccess;
                             tr_text := JsString.substring text 0 100 |} ],
             true)
        | Refused message =>
            (results ++ [ {| tr_model := modelName; tr_status := TestError;
                             tr_text := JsString.substring message 0 100 |} ],
             false)
        end,
     t ++ [Generate modelName testPrompt]).
Proof.
  cbv [probe tryCatch bind generateContent emit ret throw].
  destruct (client modelName testPrompt); reflexivity.
Qed.

Lemma substring_100 (s : string) :
  (String.length (JsString.substring s 0 100) <= 100)%nat.
Proof.
  unfold JsString.substring. cbn [Nat.sub]. rewrite length_substring_0. lia.
Qed.

Lemma probeModels_run (names : list string) (results : list testResult)
  (t : list event) :
  exists entries tried rest,
    names = tried ++ rest
    /\ probeModels client names results t
       = (Ok (results ++ entries), t ++ calls testPrompt tried)
    /\ map tr_model entries = tried
    /\ Forall (fun e => (String.length (tr_text e) <= 100)%nat) entries
    /\ Forall (agrees client) entries
    /\ (forall pre e post,
          entries = pre ++ e :: post -> tr_status e = TestSuccess -> post = [])
    /\ (rest <> [] ->
        exists pre e, entries = pre ++ [e] /\ tr_status e = TestSuccess).
Proof.
  revert results t. induction names as [|m names IH]; intros results t.
  - exists [], [], []. cbn. rewrite !app_nil_r.
    repeat split; try constructor.
    + intros pre e post H. now destruct pre.
    + intros H. now destruct H.
  - cbn [probeModels]. unfold bind. rewrite probe_run.
    destruct (client m testPrompt) as [message|reply] eqn:C.
    + destruct (IH (results ++ [ {| tr_model := m; tr_status := TestError;
                                    tr_text := JsString.substring message 0 100 |} ])
                  (t ++ [Generate m testPrompt]))
        as [entries [tried [rest [E [R [M [L [A [S B]]]]]]]]].
      eexists (_ :: entries), (m :: tried), rest.
      split; [now rewrite E|]. split.
      { rewrite R. cbn [calls map]. now rewrite <- !app_assoc. }
      split; [cbn; now rewrite M|].
      split; [constructor; [apply substring_100 | exact L]|].
      split; [constructor; [unfold agrees; cbn [tr_status tr_model tr_text]; now rewrite C | exact A]|].
      split.
      * intros pre e post H Hs. destruct pre as [|e0 pre]; cbn in H; inversion H.
        -- subst e. discriminate Hs.
        -- now apply (S pre e post).
      * intros H. destruct (B H) as [pre [e [-> Hs]]].
        now exists ({| tr_model := m; tr_status := TestError;
                       tr_text := JsString.substring message 0 100 |} :: pre), e.
    + eexists [_], [m], names.
      split; [reflexivity|]. split; [reflexivity|]. split; [reflexivity|].
      split; [constructor; [apply substring_100 | constructor]|].
      split; [constructor; [unfold agrees; cbn [tr_status tr_model tr_text]; now rewrite C | constructor]|].
      split.
      * intros pre e post H _. destruct pre as [|e0 [|e1 pre]]; cbn in H;
          now inversion H.
      * intros _. now eexists [], _.
Qed.

End SelfTest.

(** X12. The self-test always answers.  Without a client it calls no
    model and says whether the key was found.  With a client it calls the
    models in the order of [modelNames] with its own prompt and stops at
    the first that replies: its results are one entry per model called, in
    that order, at most four; each entry holds the first 100 characters at
    most of the reply or of the error of its model; a success can only be
    the last entry, and models are left untried only after a success. *)
Theorem testAi_reports :
  forall (w : world) (GEMINI_API_KEY : option string) (t0 : list event),
    (genAI w = None ->
     testAi w GEMINI_API_KEY t0
     = (Ok (NotInitialized (apiKeyFound GEMINI_API_KEY)), t0))
    /\ (forall client,
          genAI w = Some client ->
          exists results tried rest,
            modelNames = tried ++ rest
            /\ testAi w GEMINI_API_KEY t0
               = (Ok (TestResults results), t0 ++ calls testPrompt tried)
            /\ map tr_model results = tried
            /\ (length results <= 4)%nat
            /\ Forall (fun e => (String.length (tr_text e) <= 100)%nat) results
            /\ Forall (agrees client) results
            /\ (forall pre e post,
                  results = pre ++ e :: post ->
                  tr_status e = TestSuccess -> post = [])
            /\ (rest <> [] ->
                exists pre e,
                  results = pre ++ [e] /\ tr_status e = TestSuccess)).
Proof.
  intros w key t0. split.
  - intros H. unfold testAi. now rewrite H.
  - intros client H. unfold testAi. rewrite H.
    destruct (probeModels_run client modelNames [] t0)
      as [entries [tried [rest [E [R [M [L [A [S B]]]]]]]]].
    exists entries, tried, rest. unfold bind. rewrite R. cbn [app].
    split; [exact E|]. split; [reflexivity|]. split; [exact M|].
    split; [|now repeat split].
    rewrite <- (length_map tr_model), M.
    apply (f_equal (@length string)) in E. rewrite List.length_app in E.
    cbn in E. lia.
Qed.

(** Without a credential, and with the third model the first to reply. *)
Lemma testAi_reports_witness :
  testAi noCredential None [] = (Ok (NotInitialized false), [])
  /\ exists results,
      testAi thirdAnswers (Some "key"%string) []
      = (Ok (TestResults results), calls testPrompt (firstn 3 modelNames))
      /\ map tr_status results = [TestError; TestError; TestSuccess].
Proof.
  split.
  - destruct (testAi_reports noCredential None []) as [H _]. exact (H eq_refl).
  - destruct (testAi_reports thirdAnswers (Some "key"%string) []) as [_ H].
    destruct (H _ eq_refl) as [results [tried [rest [E [R _]]]]].
    exists results.
    assert (C : testAi thirdAnswers (Some "key"%string) []
                = (Ok (TestResults results), calls testPrompt (firstn 3 modelNames))
                /\ map tr_status results = [TestError; TestError; TestSuccess]).
    { rewrite R.
      assert (V : exists l,
                 testAi thirdAnswers (Some "key"%string) []
                 = (Ok (TestResults l), calls testPrompt (firstn 3 modelNames))
                 /\ map tr_status l = [TestError; TestError; TestSuccess]).
      { eexists. split; vm_compute; reflexivity. }
      destruct V as [l [V1 V2]]. rewrite R in V1. inversion V1. subst l.
      split; [now rewrite H2 | exact V2]. }
    exact C.
Defined.

(** X13. At the start the client of the models is [null] when the key
    is missing or empty, and then no request gets insights.  The
    self-test answers "not initialized" with the key found exactly when
    the key is there and the constructor of the client failed. *)
Theorem client_needs_a_key :
  forall (GEMINI_API_KEY : option string)
         (construct : string -> option (string -> string -> generated))
         (w : world),
    genAI w = initialize GEMINI_API_KEY construct ->
    (apiKeyFound GEMINI_API_KEY = false ->
     genAI w = None
     /\ forall d issues t0, generateAIInsights w d issues t0 = (Ok JNull, t0))
    /\ (forall t0,
          testAi w GEMINI_API_KEY t0 = (Ok (NotInitialized true), t0)
          <-> exists key,
              GEMINI_API_KEY = Some key /\ JsString.truthy key = true
              /\ construct key = None).
Proof.
  intros key construct w G. split.
  - intros K.
    assert (N : genAI w = None).
    { rewrite G. unfold initialize, apiKeyFound in *.
      destruct key as [k|]; [now rewrite K | reflexivity]. }
    split; [exact N|]. intros d issues t0. unfold generateAIInsights.
    now rewrite N.
  - intros t0. unfold testAi. rewrite G. unfold initialize, apiKeyFound.
    destruct key as [k|].
    + destruct (JsString.truthy k) eqn:T.
      * destruct (construct k) as [client|] eqn:C.
        -- split.
           ++ unfold bind.
              destruct (probeModels_run client modelNames [] t0)
                as [entries [tried [rest [_ [R _]]]]].
              rewrite R. discriminate.
           ++ intros [k' [E [_ C']]]. inversion E. subst k'. congruence.
        -- split; [intros _; now exists k | reflexivity].
      * split; [discriminate|].
        intros [k' [E [T' _]]]. inversion E. subst k'. congruence.
    + split; [discriminate|]. intros [k' [E _]]. discriminate E.
Qed.

(** A key that is empty. *)
Lemma client_needs_a_key_witness :
  generateAIInsights noCredential someSite [] [] = (Ok JNull, []).
Proof.
  destruct (client_needs_a_key (Some ""%string) (fun _ => None) noCredential
              eq_refl) as [H _].
  exact (proj2 (H eq_refl) someSite [] []).
Defined.

(** ** The code fences of a reply *)

Section Fences.

(** Three backquotes cannot run over a line feed. *)
Lemma fence_before_newline (b t : string) :
  String.prefix "```" b = false ->
  String.prefix "```" (b ++ String "010" t) = false.
Proof.
  destruct b as [|c1 [|c2 [|c3 b]]]; cbn [String.prefix append];
    repeat match goal with
           | |- context [ascii_dec ?x ?y] => destruct (ascii_dec x y)
           end; auto; try congruence.
  destruct b; cbn [String.prefix append]; auto.
Qed.

Lemma fence_json (s : string) :
  String.prefix "```" s = false -> String.prefix "```json" s = false.
Proof.
  destruct s as [|c1 [|c2 [|c3 s]]]; cbn [String.prefix];
    repeat match goal with
           | |- context [ascii_dec ?x ?y] => destruct (ascii_dec x y)
           end; auto; try congruence.
  destruct s; cbn [String.prefix]; congruence.
Qed.

Lemma includes_cons (c : ascii) (s sub : string) :
  JsString.includes (String c s) sub = false ->
  String.prefix sub (String c s) = false /\ JsString.includes s sub = false.
Proof. cbn [JsString.includes]. apply orb_false_iff. Qed.

Lemma removeAll_absent (n : nat) (pat : string) (opt : ascii) (s : string) :
  JsString.includes s pat = false -> JsString.removeAll n pat opt s = s.
Proof.
  revert s. induction n as [|n IH]; intros s H; [reflexivity|].
  destruct s as [|c s]; [reflexivity|].
  apply includes_cons in H. destruct H as [P H].
  cbn [JsString.removeAll]. rewrite P. now rewrite IH.
Qed.

Lemma no_json_fence (b : string) :
  JsString.includes b "```" = false -> JsString.includes b "```json" = false.
Proof.
  induction b as [|c b IH]; intros H; [reflexivity|].
  apply includes_cons in H. destruct H as [P H].
  cbn [JsString.includes]. rewrite (fence_json _ P). now apply IH.
Qed.

Lemma no_json_fence_closing (b : string) :
  JsString.includes b "```" = false ->
  JsString.includes (b ++ String "010" "```") "```json" = false.
Proof.
  induction b as [|c b IH]; intros H; [reflexivity|].
  apply includes_cons in H. destruct H as [P H].
  cbn [append JsString.includes].
  pose proof (fence_json _ (fence_before_newline (String c b) "```" P)) as Q.
  cbn [append] in Q. rewrite Q. now apply IH.
Qed.

Lemma removeAll_closing (n : nat) (b : string) :
  JsString.includes b "```" = false ->
  (String.length b + 2 <= n)%nat ->
  JsString.removeAll n "```" "010" (b ++ String "010" "```")
  = (b ++ String "010" "")%string.
Proof.
  revert n. induction b as [|c b IH]; intros n H L.
  - destruct n as [|[|[|n]]]; cbn in L; try lia; reflexivity.
  - destruct n as [|n]; [cbn in L; lia|].
    apply includes_cons in H. destruct H as [P H].
    cbn [append JsString.removeAll].
    pose proof (fence_before_newline (String c b) "```" P) as P'.
    cbn [append] in P'. rewrite P'. rewrite IH; [reflexivity | exact H |].
    cbn in L. lia.
Qed.

Lemma trimStart_length (s : string) :
  (String.length (JsString.trimStart s) <= String.length s)%nat.
Proof.
  induction s as [|c s IH]; cbn; [lia|].
  destruct (JsString.isWhiteSpace c); cbn; lia.
Qed.

Lemma trimEnd_length (s : string) :
  (String.length (JsString.trimEnd s) <= String.length s)%nat.
Proof.
  induction s as [|c s IH]; cbn [JsString.trimEnd]; [cbn; lia|].
  destruct (JsString.trimEnd s); [destruct (JsString.isWhiteSpace c)|];
    cbn in *; lia.
Qed.

Lemma trimEnd_newline (s : string) :
  JsString.trimEnd (s ++ String "010" "") = JsString.trimEnd s.
Proof.
  induction s as [|c s IH]; [reflexivity|].
  cbn [append JsString.trimEnd]. now rewrite IH.
Qed.

(** A trimmed string stays what it is when a line feed is put after it
    and the result trimmed. *)
Lemma trim_newline (b : string) :
  JsString.trim b = b -> JsString.trim (b ++ String "010" "") = b.
Proof.
  unfold JsString.trim. intros H.
  destruct b as [|c b]; [reflexivity|].
  cbn [append JsString.trimStart] in *.
  destruct (JsString.isWhiteSpace c).
  - exfalso. apply (f_equal String.length) in H.
    pose proof (trimEnd_length (JsString.trimStart b)).
    pose proof (trimStart_length b). cbn in H. lia.
  - change (String c (b ++ String "010" ""))
      with (String c b ++ String "010" "")%string.
    now rewrite trimEnd_newline.
Qed.

Lemma strip_json_opening (n : nat) (body : string) :
  JsString.includes body "```" = false ->
  JsString.removeAll (S n) "```json" "010"
    ("```json" ++ newline ++ body ++ newline ++ "```")
  = (body ++ newline ++ "```")%string.
Proof.
  intros H. unfold newline.
  cbn [append JsString.removeAll String.prefix String.length JsString.drop].
  repeat match goal with
         | |- context [ascii_dec ?x ?y] =>
             destruct (ascii_dec x y); [|congruence]
         end.
  cbn [Ascii.eqb Bool.eqb].
  apply removeAll_absent. now apply no_json_fence_closing.
Qed.

Lemma strip_plain_opening (n : nat) (body : string) :
  JsString.includes body "```" = false ->
  (String.length body + 2 <= n)%nat ->
  JsString.removeAll (S n) "```" "010"
    ("```" ++ newline ++ body ++ newline ++ "```")
  = (body ++ newline)%string.
Proof.
  intros H L. unfold newline.
  cbn [append JsString.removeAll String.prefix String.length JsString.drop].
  repeat match goal with
         | |- context [ascii_dec ?x ?y] =>
             destruct (ascii_dec x y); [|congruence]
         end.
  cbn [Ascii.eqb Bool.eqb].
  now apply removeAll_closing.
Qed.

Lemma strip_closing (n : nat) (body : string) :
  JsString.includes body "```" = false ->
  (String.length body + 2 <= n)%nat ->
  JsString.removeAll n "```" "010" (body ++ newline ++ "```")
  = (body ++ newline)%string.
Proof. intros H L. now apply removeAll_closing. Qed.

Lemma plain_fence_is_not_json (body : string) :
  JsString.includes body "```" = false ->
  JsString.includes ("```" ++ newline ++ body ++ newline ++ "```") "```json"
  = false.
Proof.
  intros H. unfold newline. cbn [append JsString.includes String.prefix].
  repeat match goal with
         | |- context [ascii_dec ?x ?y] =>
             destruct (ascii_dec x y); try congruence
         end;
    cbn [orb]; now apply no_json_fence_closing.
Qed.

Lemma trim_body_newline (b : string) :
  JsString.trim b = b -> JsString.trim (b ++ newline) = b.
Proof. apply trim_newline. Qed.

End Fences.

(** X14. A reply free of code fences and of white space around it is
    what [unfence] returns when the reply comes bare, in a fence "```json"
    or in a plain fence "```", each fence on a line of its own: the value
    parsed is the same in the three cases. *)
Theorem unfence_recovers_the_body :
  forall (body : string),
    JsString.includes body "```" = false ->
    JsString.trim body = body ->
    let fenced (opening : string) :=
      (opening ++ newline ++ body ++ newline ++ "```")%string in
    unfence body = body
    /\ unfence (fenced "```json") = body
    /\ unfence (fenced "```") = body
    /\ Json.parse (unfence (fenced "```json")) = Json.parse body.
Proof.
  intros body H T fenced.
  assert (L : forall opening,
             (String.length body + 2 <= String.length (fenced opening))%nat).
  { intros opening. unfold fenced. rewrite !length_app. cbn. lia. }
  assert (A : unfence body = body).
  { unfold unfence.
    rewrite (removeAll_absent _ "```json") by now apply no_json_fence.
    rewrite removeAll_absent by exact H. exact T. }
  assert (B : unfence (fenced "```json") = body).
  { unfold unfence. pose proof (L "```json"%string) as L'. unfold fenced in *.
    rewrite strip_json_opening by exact H.
    rewrite strip_closing by (try exact H; lia).
    now apply trim_body_newline. }
  assert (C : unfence (fenced "```") = body).
  { unfold unfence. pose proof (L "```"%string) as L'. unfold fenced in *.
    rewrite (removeAll_absent _ "```json") by now apply plain_fence_is_not_json.
    rewrite strip_plain_opening by (try exact H; lia).
    now apply trim_body_newline. }
  split; [exact A|]. split; [exact B|]. split; [exact C|]. now rewrite B.
Qed.

(** The reply with one quick win, in its fence. *)
Lemma unfence_recovers_the_body_witness : unfence oneQuickWin = oneQuickWinBody.
Proof.
  exact (proj1 (proj2 (unfence_recovers_the_body oneQuickWinBody
                         eq_refl eq_refl))).
Defined.

(** ** The phone numbers *)

Section Phone.

Import RegExp.

Lemma matchFrom_skip (r r' : regex) (s : string) (k : string -> bool) :
  matchFrom r' s k = true -> matchFrom (Seq (Opt r) r') s k = true.
Proof. intros H. cbn [matchFrom]. rewrite H. apply orb_true_r. Qed.

Lemma matchFrom_digit (r' : regex) (c : ascii) (s : string) (k : string -> bool) :
  Json.isDigit c = true ->
  matchFrom r' s k = true -> matchFrom (Seq digit r') (String c s) k = true.
Proof.
  intros D H. unfold digit, Json.isDigit in *. cbn [matchFrom].
  cbv beta zeta in *. now rewrite D, H.
Qed.

Lemma test_app (r : regex) (pre s : string) :
  matchFrom r s (fun _ => true) = true -> test r (pre ++ s) = true.
Proof.
  intros H. induction pre as [|c pre IH].
  - cbn [append]. destruct s; cbn [test]; now rewrite H.
  - cbn [append test]. rewrite IH. apply orb_true_r.
Qed.

(** Ten digits in a row match the pattern of the phone, with every
    optional part left out. *)
Lemma phone_ten_digits (d post : string) :
  String.length d = 10%nat ->
  forallb Json.isDigit (list_ascii_of_string d) = true ->
  matchFrom phone (d ++ post) (fun _ => true) = true.
Proof.
  intros L D.
  do 10 (destruct d as [|? d]; [discriminate L|]).
  destruct d; [|discriminate L].
  cbn [list_ascii_of_string forallb] in D.
  repeat match type of D with
         | _ && _ = true => apply andb_true_iff in D; destruct D as [? D]
         end.
  unfold phone, seq. cbn [fold_right append].
  repeat first [ apply matchFrom_skip
               | apply matchFrom_digit; [assumption|] ].
  reflexivity.
Qed.

End Phone.

(** X15. Ten digits in a row anywhere in the text of the page are taken
    for a phone number, whatever they are: the phone check then adds 4 to
    the score and pushes nothing, so that the content score of the
    report is 4 and the points of the menu, the hours, the address and
    the pictures, and "Phone number not found" is not given. *)
Theorem ten_digits_are_a_phone_number :
  forall (q : cheerio) (pre d post url : string) (loadTime : Z),
    String.length d = 10%nat ->
    forallb Json.isDigit (list_ascii_of_string d) = true ->
    let bodyText := (pre ++ d ++ post)%string in
    let g := gradeWebsite q bodyText url loadTime in
    hasPhone_of q bodyText = true
    /\ (forall b,
          let b' := checkPhone (hasPhone_of q bodyText) b in
          score b' = (score b + 4)%nat
          /\ maxScore b' = maxScore b
          /\ issues b' = issues b)
    /\ cs_score (bd_content (g_breakdown g))
       = ((if hasPdf_of q then 2 else if hasMenu_of q bodyText then 8 else 0)
          + (if hasHours_of bodyText then 5 else 0)
          + (if hasAddress_of bodyText then 4 else 0)
          + 4
          + (if (5 <=? imageCount_of q)%nat then 4 else 0))%nat
    /\ ~ In phoneMissing (reportTexts g).
Proof.
  intros q pre d post url loadTime L D bodyText g.
  assert (P : hasPhone_of q bodyText = true).
  { unfold hasPhone_of, bodyText.
    rewrite (test_app _ pre _ (phone_ten_digits d post L D)). reflexivity. }
  split; [exact P|].
  split; [intros b b'; subst b'; rewrite P; now repeat split|].
  split.
  { subst g.
    cbn [gradeWebsite g_breakdown bd_content summary cs_score evaluate content].
    rewrite content_score, P. reflexivity. }
  subst g. rewrite reportTexts_In. cbn [evaluate seo content usability technical].
  destruct (seo_says q) as [_ [S _]].
  destruct (content_says q bodyText) as [_ [C _]].
  destruct (usability_says q bodyText) as [_ [U _]].
  destruct (technical_says q url loadTime) as [_ [T _]].
  intros [H|[H|[H|H]]]; [now apply S | | now apply U | now apply T].
  apply C in H. congruence.
Qed.

(** The number of an order, on a page with nothing else: the content
    score is the 4 points of the phone. *)
Lemma ten_digits_are_a_phone_number_witness :
  hasPhone_of blank "your order 2024031512 is ready" = true
  /\ cs_score (bd_content
                 (g_breakdown
                    (gradeWebsite blank "your order 2024031512 is ready" "" 0)))
     = 4%nat.
Proof.
  destruct (ten_digits_are_a_phone_number blank "your order " "2024031512"
              " is ready" "" 0 eq_refl eq_refl) as [P [_ [S _]]].
  split; [exact P | exact S].
Defined.

(** ** The bands of the score in the client *)

Lemma number_ge_integers (t k : Z) :
  number_ge (Finite t 0) (Finite k 0) = (k <=? t).
Proof.
  unfold number_ge. change (Z.min 0 0) with 0. change (2 ^ (0 - 0)) with 1.
  now rewrite !Z.mul_1_r.
Qed.

(** X16. The label and the colours of a score go together for every
    number: "Great" with green, "Fair" with yellow, "Poor" with red.
    For the score of a report they follow the sum of the scores of the
    four categories of its breakdown: "Great" from 80 on, up to the 102
    a page can get, "Fair" from 50 to 79, "Poor" below. *)
Theorem label_and_colour_agree :
  forall (q : cheerio) (bodyText url : string) (loadTime : Z) (x : number),
    let g := gradeWebsite q bodyText url loadTime in
    let bd := g_breakdown g in
    let total :=
      Z.of_nat (cs_score (bd_seo bd) + cs_score (bd_content bd)
                + cs_score (bd_usability bd) + cs_score (bd_technical bd)) in
    let s := g_score g in
    (getScoreLabel x = "Great"%string
     <-> sc_stroke (getScoreColor x) = "#22c55e"%string)
    /\ (getScoreLabel x = "Fair"%string
        <-> sc_stroke (getScoreColor x) = "#eab308"%string)
    /\ (getScoreLabel x = "Poor"%string
        <-> sc_stroke (getScoreColor x) = "#ef4444"%string)
    /\ getScoreLabel s
       = (if (80 <=? total)%Z then "Great"
          else if (50 <=? total)%Z then "Fair" else "Poor")%string
    /\ sc_bg (getScoreColor s)
       = (if (80 <=? total)%Z then "bg-green-500"
          else if (50 <=? total)%Z then "bg-yellow-500"
          else "bg-red-500")%string.
Proof.
  intros q bodyText url loadTime x g bd total s.
  split; [|split; [|split]].
  1-3: unfold getScoreLabel, getScoreColor;
       destruct (number_ge x (Finite 80 0)), (number_ge x (Finite 50 0));
       cbn [sc_stroke]; split; intros H; first [reflexivity | discriminate H].
  assert (E : s = Finite total 0) by apply score_sum_of.
  rewrite E.
  unfold getScoreLabel, getScoreColor. rewrite !number_ge_integers.
  split; destruct (80 <=? total)%Z, (50 <=? total)%Z; reflexivity.
Qed.

(** ** The warning of the alt texts *)

Section AltTexts.

Import Number.

(** Against one half the binary64 ratio of two counts compares as the
    counts do. *)
Lemma ratio_below_half (a n : nat) :
  (0 < n)%nat -> (a <= n)%nat -> Z.of_nat n < 2 ^ 52 ->
  lt (div (Z.of_nat a) (Z.of_nat n)) (Finite 1 (-1))
  = (2 * Z.of_nat a <? Z.of_nat n).
Proof.
  intros Hn Ha Hb. unfold div.
  destruct (Z.eqb_spec (Z.of_nat n) 0); [lia|].
  destruct (Z.eqb_spec (Z.of_nat a) 0) as [E|Ha0].
  { rewrite E. cbn. symmetry. apply Z.ltb_lt. lia. }
  rewrite !Z.abs_eq by lia.
  set (A := Z.of_nat a) in *. set (N := Z.of_nat n) in *.
  assert (He : binade A N <= -52).
  { pose proof (binade_le A N). pose proof (Z.log2_le_mono A N ltac:(lia)). lia. }
  rewrite round53_small by lia.
  rewrite !Z.sgn_pos by lia. rewrite !Z.mul_1_l.
  set (e := binade A N) in *.
  set (m := nearestEven (A * 2 ^ (- e)) N).
  cbn [lt]. rewrite (Z.min_l e (-1)) by lia.
  replace (e - e) with 0 by lia. change (2 ^ 0) with 1.
  rewrite Z.mul_1_r, Z.mul_1_l.
  assert (P : 2 ^ (- e) = 2 * 2 ^ (-1 - e)).
  { replace (- e) with (1 + (-1 - e)) by lia.
    rewrite Z.pow_add_r by lia. reflexivity. }
  assert (Q : 2 ^ 52 <= 2 ^ (- e)) by (apply Z.pow_le_mono_r; lia).
  set (h := 2 ^ (-1 - e)) in *.
  pose proof (nearestEven_error (A * 2 ^ (- e)) N ltac:(lia)) as R.
  fold m in R. rewrite P in R, Q.
  destruct (Z.ltb_spec (2 * A) N) as [L|L].
  - apply Z.ltb_lt. nia.
  - apply Z.ltb_ge. subst m. rewrite P.
    apply nearestEven_lower; [lia | nia].
Qed.

Lemma ratio_mantissa (A N : Z) :
  0 < A -> 2 * A < N -> N < 2 ^ 52 ->
  exists m e, round53 A N = (m, e) /\ e < 0 /\ 0 <= m /\ 2 * m <= 2 ^ (- e).
Proof.
  intros HA HN Hb.
  assert (He : binade A N <= -52).
  { pose proof (binade_le A N). pose proof (Z.log2_le_mono A N ltac:(lia)). lia. }
  exists (nearestEven (A * 2 ^ (- binade A N)) N), (binade A N).
  split; [apply round53_small; lia|]. split; [lia|].
  assert (Q : 2 ^ 52 <= 2 ^ (- binade A N)) by (apply Z.pow_le_mono_r; lia).
  pose proof (nearestEven_error (A * 2 ^ (- binade A N)) N ltac:(lia)) as R.
  split; [apply nearestEven_lower; nia | nia].
Qed.

End AltTexts.

(** Fewer than half of the pictures with an alt text: a percentage of 50
    at most. *)
Lemma altPercent_below_half (a n : nat) :
  (5 <= n)%nat -> (2 * a < n)%nat -> Z.of_nat n < 2 ^ 52 ->
  exists p, altPercent a n = Finite p 0 /\ 0 <= p <= 50.
Proof.
  intros H5 H Hb. unfold altPercent, Number.div.
  destruct (Z.eqb_spec (Z.of_nat n) 0); [lia|].
  destruct (Z.eqb_spec (Z.of_nat a) 0) as [|Ha0].
  { exists 0. split; [reflexivity | lia]. }
  rewrite !Z.abs_eq by lia.
  destruct (ratio_mantissa (Z.of_nat a) (Z.of_nat n))
    as [m [e [E [He [Hm M]]]]]; try lia.
  rewrite E. rewrite !Z.sgn_pos by lia. rewrite !Z.mul_1_l.
  unfold Number.mul.
  destruct (Z.eqb_spec (m * 100) 0) as [|Hm0].
  { exists 0. split; [reflexivity | lia]. }
  destruct (Z.leb_spec 0 e); [lia|].
  assert (P : 0 < 2 ^ (- e)) by (apply Z.pow_pos_nonneg; lia).
  destruct (round53_bounded (Z.abs (m * 100)) (2 ^ (- e)) 50 6)
    as [m' [e' [E' [He' Hm']]]]; try lia.
  rewrite E'. rewrite Z.sgn_pos by lia. rewrite Z.mul_1_l.
  cbn [Number.round]. eexists. split; [reflexivity|].
  now apply roundHalfUp_bounded.
Qed.

(** No check but that of the pictures, when it finds the ratio below one
    half, gives a text of the alt texts. *)
Lemma alt_says (q : cheerio) (bodyText url : string) (loadTime : Z) (x : string) :
  let alt := ("Only " ++ x ++ "% of images have alt text")%string in
  ~ In alt (texts (seoChecks q (seo initial)))
  /\ (In alt (texts (contentChecks q bodyText (content initial))) ->
      (5 <=? imageCount_of q)%nat = true
      /\ Number.lt (Number.div (Z.of_nat (imagesWithAlt_of q))
                      (Z.of_nat (imageCount_of q))) (Finite 1 (-1)) = true)
  /\ ~ In alt (texts (usabilityChecks q bodyText (usability initial)))
  /\ ~ In alt (texts (technicalChecks q url loadTime (technical initial))).
Proof.
  intros alt. subst alt. split; [|split; [|split]].
  - unfold seoChecks, checkOgTags, checkCanonical, checkH1, checkDescription,
      checkTitle.
    split_ifs; says.
  - unfold contentChecks, checkImages.
    destruct (5 <=? imageCount_of q)%nat;
      [destruct (Number.lt _ _); [intros _; now split|]|];
      unfold checkPhone, checkAddress, checkHours, checkMenu;
      split_ifs; says.
  - unfold usabilityChecks, checkGoogleMaps, checkClickablePhone,
      checkSocialLinks, checkReservation, checkOrdering.
    split_ifs; says.
  - unfold technicalChecks, checkLoadTime, checkStructuredData, checkFavicon,
      checkHttps, checkViewport, slowLoad.
    split_ifs; says.
Qed.

(** X17. The report has a warning of the alt texts exactly when the page
    has 5 pictures or more and fewer than half of them have an alt text
    that is kept: with the counts of a page the binary64 ratio compares
    with 0.5 as the counts do, and with fewer than 5 pictures the ratio
    is not looked at.  The warning is of the category Content and its
    percentage is at most 50.  With or without the warning, 5 pictures
    or more are worth 4 points in the content score of the report. *)
Theorem alt_warning_below_half :
  forall (q : cheerio) (bodyText url : string) (loadTime : Z),
    let n := imageCount_of q in
    let a := imagesWithAlt_of q in
    let g := gradeWebsite q bodyText url loadTime in
    let altText (x : string) :=
      ("Only " ++ x ++ "% of images have alt text")%string in
    Z.of_nat n < 2 ^ 52 ->
    ((exists i x, In i (g_issues g) /\ i_text i = altText x)
     <-> (5 <= n)%nat /\ (2 * a < n)%nat)
    /\ ((5 <= n)%nat /\ (2 * a < n)%nat ->
        exists p,
          altPercent a n = Finite p 0 /\ 0 <= p <= 50
          /\ In {| i_type := warning; i_text := altText (JsString.ofZ p);
                   i_category := Content |} (g_issues g))
    /\ cs_score (bd_content (g_breakdown g))
       = ((if hasPdf_of q then 2 else if hasMenu_of q bodyText then 8 else 0)
          + (if hasHours_of bodyText then 5 else 0)
          + (if hasAddress_of bodyText then 4 else 0)
          + (if hasPhone_of q bodyText then 4 else 0)
          + (if (5 <=? n)%nat then 4 else 0))%nat.
Proof.
  intros q bodyText url loadTime n a g altText Hb.
  pose proof (imagesWithAlt_le_imageCount q) as Hle. fold n a in Hle.
  assert (W : (5 <= n)%nat /\ (2 * a < n)%nat ->
              exists p,
                altPercent a n = Finite p 0 /\ 0 <= p <= 50
                /\ In {| i_type := warning; i_text := altText (JsString.ofZ p);
                         i_category := Content |} (g_issues g)).
  { intros [H5 H].
    destruct (altPercent_below_half a n H5 H Hb) as [p [Hp Hr]].
    exists p. split; [exact Hp|]. split; [exact Hr|].
    apply g_issues_In. unfold collected. rewrite !in_app_iff.
    right. left. unfold tagged. apply in_map_iff.
    exists {| type := warning; text := altText (JsString.ofZ p) |}.
    split; [reflexivity|].
    cbn [evaluate content]. unfold contentChecks, checkImages. fold n a.
    destruct (Nat.leb_spec 5 n); [|lia].
    rewrite ratio_below_half by (try exact Hb; lia).
    destruct (Z.ltb_spec (2 * Z.of_nat a) (Z.of_nat n)); [|lia].
    cbn [push issues]. apply in_or_app. right. left.
    unfold altWarning, altText. rewrite Hp. cbn [Number.toString].
    now rewrite Z.pow_0_r, Z.mul_1_r. }
  split; [|split; [exact W|]].
  - split.
    + intros [i [x [Hi E]]].
      assert (H : In (altText x) (reportTexts g))
        by (unfold reportTexts; rewrite <- E; now apply in_map).
      apply reportTexts_In in H.
      cbn [evaluate seo content usability technical] in H.
      destruct (alt_says q bodyText url loadTime x) as [H1 [H2 [H3 H4]]].
      destruct H as [H|[H|[H|H]]];
        [now destruct (H1 H) | | now destruct (H3 H) | now destruct (H4 H)].
      destruct (H2 H) as [C5 C]. fold n a in C5, C.
      apply Nat.leb_le in C5.
      rewrite ratio_below_half in C by (try exact Hb; lia).
      apply Z.ltb_lt in C. lia.
    + intros H. destruct (W H) as [p [_ [_ Hi]]].
      exists {| i_type := warning; i_text := altText (JsString.ofZ p);
                i_category := Content |}, (JsString.ofZ p).
      split; [exact Hi | reflexivity].
  - subst g.
    cbn [gradeWebsite g_breakdown bd_content summary cs_score evaluate content].
    apply content_score.
Qed.

(** Six pictures, one alt text kept: the warning says 17%. *)
Lemma alt_warning_below_half_witness :
  In {| i_type := warning; i_text := "Only 17% of images have alt text";
        i_category := Content |}
    (g_issues (gradeWebsite gallery "" "" 0)).
Proof.
  destruct (alt_warning_below_half gallery "" "" 0) as [_ [H _]].
  - vm_compute. reflexivity.
  - destruct H as [p [Hp [_ Hi]]].
    + vm_compute. split; lia.
    + vm_compute in Hp. inversion Hp. subst p. exact Hi.
Defined.

Section AltPercent.

Import Number.

(** The two roundings of the percentage, as a mantissa and an
    exponent. *)
Lemma percent_mantissa (A N : Z) :
  0 < A -> A <= N -> N < 2 ^ 40 ->
  exists m1 E1 m2 E2 e2,
    mul (div A N) 100 = Finite m2 e2
    /\ e2 < 0 /\ E2 = 2 ^ (- e2)
    /\ 2 ^ 52 <= E1 /\ 2 ^ 46 <= E2
    /\ 0 <= m2
    /\ - N <= 2 * (N * m1 - A * E1) <= N
    /\ - E1 <= 2 * (E1 * m2 - 100 * m1 * E2) <= E1.
Proof.
  intros HA HN Hb. unfold div.
  destruct (Z.eqb_spec N 0); [lia|]. destruct (Z.eqb_spec A 0); [lia|].
  rewrite !Z.abs_eq by lia. rewrite !Z.sgn_pos by lia. rewrite !Z.mul_1_l.
  assert (He : binade A N <= -52).
  { pose proof (binade_le A N). pose proof (Z.log2_le_mono A N ltac:(lia)). lia. }
  rewrite round53_small by lia. rewrite !Z.mul_1_l.
  set (e1 := binade A N) in *. set (E1 := 2 ^ (- e1)).
  set (m1 := nearestEven (A * E1) N).
  assert (Q1 : 2 ^ 52 <= E1) by (apply Z.pow_le_mono_r; lia).
  pose proof (nearestEven_error (A * E1) N ltac:(lia)) as R1. fold m1 in R1.
  assert (L1 : 1 <= m1) by (apply nearestEven_lower; nia).
  assert (U1 : m1 <= E1) by (apply nearestEven_upper; nia).
  unfold mul. destruct (Z.eqb_spec (m1 * 100) 0); [lia|].
  destruct (Z.leb_spec 0 e1); [lia|].
  rewrite (Z.abs_eq (m1 * 100)) by lia. rewrite Z.sgn_pos by lia.
  fold E1.
  assert (He2 : binade (m1 * 100) E1 <= -46).
  { pose proof (binade_le (m1 * 100) E1) as B.
    unfold E1 in B at 2. rewrite Z.log2_pow2 in B by lia.
    assert (Z.log2 (m1 * 100) < 7 - e1).
    { apply Z.log2_lt_pow2; [lia|].
      replace (7 - e1) with (7 + - e1) by lia.
      rewrite Z.pow_add_r by lia. fold E1. change (2 ^ 7) with 128. nia. }
    lia. }
  rewrite round53_small by lia. rewrite Z.mul_1_l.
  set (e2 := binade (m1 * 100) E1) in *. set (E2 := 2 ^ (- e2)).
  set (m2 := nearestEven (m1 * 100 * E2) E1).
  assert (Q2 : 2 ^ 46 <= E2) by (apply Z.pow_le_mono_r; lia).
  pose proof (nearestEven_error (m1 * 100 * E2) E1 ltac:(lia)) as R2.
  fold m2 in R2.
  exists m1, E1, m2, E2, e2.
  split; [reflexivity|]. split; [lia|]. split; [reflexivity|].
  split; [exact Q1|]. split; [exact Q2|].
  assert (0 <= m1 * 100 * E2) by (repeat apply Z.mul_nonneg_nonneg; lia).
  split; [apply nearestEven_lower; lia|].
  split; [exact R1 | lia].
Qed.

(** The percentage is within one half of the exact one. *)
Lemma altPercent_nearest (a n : nat) :
  (0 < n)%nat -> (a <= n)%nat -> Z.of_nat n < 2 ^ 40 ->
  exists p,
    altPercent a n = Finite p 0
    /\ - Z.of_nat n <= 2 * (Z.of_nat n * p - 100 * Z.of_nat a) <= Z.of_nat n.
Proof.
  intros Hn Ha Hb. unfold altPercent.
  destruct (Z.eq_dec (Z.of_nat a) 0) as [E|E].
  { rewrite E. exists 0. split; [|lia].
    unfold div. destruct (Z.eqb_spec (Z.of_nat n) 0); [lia | reflexivity]. }
  set (A := Z.of_nat a) in *. set (N := Z.of_nat n) in *.
  destruct (percent_mantissa A N) as
    [m1 [E1 [m2 [E2 [e2 [M [He2 [HE2 [Q1 [Q2 [P2 [R1 R2]]]]]]]]]]]]; try lia.
  rewrite M. cbn [round]. eexists. split; [reflexivity|].
  unfold roundHalfUp. destruct (Z.leb_spec 0 e2); [lia|].
  replace (1 - e2) with (1 + - e2) by lia.
  rewrite Z.pow_add_r by lia. change (2 ^ 1) with 2. rewrite <- HE2.
  set (p := (2 * m2 + E2) / (2 * E2)).
  pose proof (Z.mul_div_le (2 * m2 + E2) (2 * E2) ltac:(lia)) as D1.
  pose proof (Z.mul_succ_div_gt (2 * m2 + E2) (2 * E2) ltac:(lia)) as D2.
  fold p in D1, D2.
  change (2 ^ 52) with 4503599627370496 in Q1.
  change (2 ^ 46) with 70368744177664 in Q2.
  change (2 ^ 40) with 1099511627776 in Hb.
  assert (K : 100 * N * E2 + N * E1 < E1 * E2).
  { assert (4503599627370496 * E2 <= E1 * E2)
      by (apply Z.mul_le_mono_nonneg_r; lia).
    assert (E1 * 70368744177664 <= E1 * E2)
      by (apply Z.mul_le_mono_nonneg_l; lia).
    assert (N * E2 <= 1099511627776 * E2)
      by (apply Z.mul_le_mono_nonneg_r; lia).
    assert (N * E1 <= 1099511627776 * E1)
      by (apply Z.mul_le_mono_nonneg_r; lia).
    lia. }
  assert (S1 : 2 * N * E1 * E2 * p <= 2 * N * E1 * m2 + N * E1 * E2).
  { assert (0 <= N * E1) by (apply Z.mul_nonneg_nonneg; lia).
    assert (N * E1 * (2 * E2 * p) <= N * E1 * (2 * m2 + E2))
      by (apply Z.mul_le_mono_nonneg_l; lia).
    lia. }
  assert (S1' : 2 * N * E1 * m2 + N * E1 * E2 < 2 * N * E1 * E2 * p + 2 * N * E1 * E2).
  { assert (0 < N * E1) by (apply Z.mul_pos_pos; lia).
    assert (N * E1 * (2 * m2 + E2) < N * E1 * (2 * E2 * Z.succ p))
      by (apply Z.mul_lt_mono_pos_l; lia).
    lia. }
  assert (S2 : - (N * E1) <= 2 * N * E1 * m2 - 200 * N * m1 * E2 <= N * E1).
  { assert (N * - E1 <= N * (2 * (E1 * m2 - 100 * m1 * E2)) <= N * E1)
      by (split; apply Z.mul_le_mono_nonneg_l; lia).
    lia. }
  assert (S3 : - (100 * N * E2)
               <= 200 * N * m1 * E2 - 200 * A * E1 * E2 <= 100 * N * E2).
  { assert (100 * E2 * - N <= 100 * E2 * (2 * (N * m1 - A * E1)) <= 100 * E2 * N)
      by (split; apply Z.mul_le_mono_nonneg_l; lia).
    lia. }
  assert (T1 : E1 * E2 * (2 * N * p - 200 * A - N) < E1 * E2) by lia.
  assert (T2 : E1 * E2 * (200 * A - 2 * N * p - N) < E1 * E2) by lia.
  assert (P : 0 < E1 * E2) by (apply Z.mul_pos_pos; lia).
  assert (X1 : 2 * N * p - 200 * A - N < 1)
    by (apply (Z.mul_lt_mono_pos_l (E1 * E2)); lia).
  assert (X2 : 200 * A - 2 * N * p - N < 1)
    by (apply (Z.mul_lt_mono_pos_l (E1 * E2)); lia).
  lia.
Qed.

End AltPercent.

(** X18. The percentage of the alt texts is the exact percentage rounded
    to a nearest integer: it differs from 100 * imagesWithAlt / imageCount
    by one half at most.  On a tie the binary64 operations can round down
    where [Math.round] of the exact value would round up: 29 of 200
    pictures are shown as 14%. *)
Theorem alt_percent_is_a_nearest_integer :
  forall (q : cheerio),
    let n := imageCount_of q in
    let a := imagesWithAlt_of q in
    (0 < n)%nat -> Z.of_nat n < 2 ^ 40 ->
    (exists p,
        altPercent a n = Finite p 0
        /\ - Z.of_nat n <= 2 * (Z.of_nat n * p - 100 * Z.of_nat a) <= Z.of_nat n)
    /\ altPercent 29 200 = Finite 14 0.
Proof.
  intros q n a Hn Hb. split; [|vm_compute; reflexivity].
  apply altPercent_nearest; [exact Hn | apply imagesWithAlt_le_imageCount | exact Hb].
Qed.

(** Six pictures, one alt text kept: 17 for 16.67. *)
Lemma alt_percent_is_a_nearest_integer_witness :
  exists p,
    altPercent (imagesWithAlt_of gallery) (imageCount_of gallery) = Finite p 0
    /\ -6 <= 2 * (6 * p - 100) <= 6.
Proof.
  destruct (alt_percent_is_a_nearest_integer gallery) as [[p [H B]] _].
  - vm_compute. lia.
  - vm_compute. reflexivity.
  - exists p. split; [exact H|]. vm_compute in B. exact B.
Defined.

(** ** The reservations *)

Lemma reservation_says (q : cheerio) (bodyText url : string) (loadTime : Z) :
  ~ In reservationMissing (texts (seoChecks q (seo initial)))
  /\ ~ In reservationMissing (texts (contentChecks q bodyText (content initial)))
  /\ (In reservationMissing (texts (usabilityChecks q bodyText (usability initial)))
      <-> hasReservation_of q bodyText = false)
  /\ ~ In reservationMissing
         (texts (technicalChecks q url loadTime (technical initial))).
Proof.
  split; [|split; [|split]].
  - unfold seoChecks, checkOgTags, checkCanonical, checkH1, checkDescription,
      checkTitle, reservationMissing.
    split_ifs; says.
  - unfold contentChecks, checkImages, checkPhone, checkAddress, checkHours,
      checkMenu, altWarning, reservationMissing.
    split_ifs; says.
  - unfold usabilityChecks, checkGoogleMaps, checkClickablePhone,
      checkSocialLinks, checkReservation, checkOrdering, reservationMissing.
    destruct (hasReservation_of q bodyText); split_ifs; says.
  - unfold technicalChecks, checkLoadTime, checkStructuredData, checkFavicon,
      checkHttps, checkViewport, slowLoad, reservationMissing.
    split_ifs; says.
Qed.

(** X19. The letters "reserv" anywhere in the text of the page count as
    a reservation system, as in "all rights reserved": the check then
    adds 5 to the score and pushes nothing, so that the usability score
    of the report is 5 and the points of the ordering, the social links,
    the clickable phone and the map, and "No reservation system
    detected" is not given. *)
Theorem reserved_counts_as_reservation :
  forall (q : cheerio) (pre post url : string) (loadTime : Z),
    let bodyText := (pre ++ "reserv" ++ post)%string in
    let g := gradeWebsite q bodyText url loadTime in
    hasReservation_of q bodyText = true
    /\ (forall b,
          let b' := checkReservation (hasReservation_of q bodyText) b in
          score b' = (score b + 5)%nat
          /\ maxScore b' = maxScore b
          /\ issues b' = issues b)
    /\ cs_score (bd_usability (g_breakdown g))
       = ((if hasOrdering_of q bodyText then 8 else 0)
          + 5
          + (if hasSocialLinks_of q then 4 else 0)
          + (if hasClickablePhone_of q then 4 else 0)
          + (if hasGoogleMaps_of q then 4 else 0))%nat
    /\ ~ In reservationMissing (reportTexts g).
Proof.
  intros q pre post url loadTime bodyText g.
  assert (P : hasReservation_of q bodyText = true).
  { unfold hasReservation_of, bodyText. now rewrite includes_app. }
  split; [exact P|].
  split; [intros b b'; subst b'; rewrite P; now repeat split|].
  split.
  { subst g.
    cbn [gradeWebsite g_breakdown bd_usability summary cs_score evaluate usability].
    rewrite usability_score, P. reflexivity. }
  subst g. rewrite reportTexts_In. cbn [evaluate seo content usability technical].
  destruct (reservation_says q bodyText url loadTime) as [S [C [U T]]].
  intros [H|[H|[H|H]]]; [now apply S | now apply C | | now apply T].
  apply U in H. congruence.
Qed.

(** ** A long title *)

Lemma long_title_says (q : cheerio) :
  (60 < String.length (title_text q))%nat ->
  In (titleLength (String.length (title_text q)))
    (texts (seoChecks q (seo initial))).
Proof.
  intros L. unfold seoChecks, checkTitle.
  destruct (Nat.leb_spec (String.length (title_text q)) 60); [lia|].
  rewrite andb_false_r.
  destruct (Nat.ltb_spec 0 (String.length (title_text q))); [|lia].
  unfold checkOgTags, checkCanonical, checkH1, checkDescription, titleLength.
  split_ifs; show_texts; auto.
Qed.

(** X20. The title is cut at the length the SEO check allows.  In a
    response 200 for a page whose title has more than 60 characters, the
    title is the first 60 characters and three dots, and the issues have
    the warning of the title length, with the full length of the
    title. *)
Theorem cut_title_comes_with_the_warning :
  forall (w : world) (url : jsval) (r : report) (t : list event),
    run (postGrade w url) = (Ok {| status := 200; body := ReportBody r |}, t) ->
    exists s q body_text loadTime,
      url = JsString s
      /\ axios_get w (normalized s) = Loaded q body_text loadTime
      /\ ((60 < String.length (title_text q))%nat ->
          r_title r = (JsString.substring (title_text q) 0 60 ++ "...")%string
          /\ In (titleLength (String.length (title_text q)))
               (map i_text (r_issues r))).
Proof.
  intros w url r t R.
  destruct (postGrade_200 _ _ _ _ R) as [s [q [body_text [loadTime [-> [V [F S]]]]]]].
  destruct (scan_loaded w _ _ _ _ F) as [ai [t' [_ S']]].
  rewrite S' in S. inversion S. subst. cbn [r_title r_issues].
  exists s, q, body_text, loadTime.
  split; [reflexivity|]. split; [exact F|].
  intros L. split.
  - now destruct (shownTitle_long _ L).
  - pose proof (reportTexts_In q (JsString.toLowerCase body_text) (normalized s)
                  loadTime (titleLength (String.length (title_text q)))) as RT.
    unfold reportTexts in RT. apply RT. left.
    cbn [evaluate seo]. now apply long_title_says.
Qed.

(** The title of 61 characters. *)
Lemma cut_title_comes_with_the_warning_witness :
  exists r t,
    run (postGrade wordy (JsString "roma.example"))
    = (Ok {| status := 200; body := ReportBody r |}, t)
    /\ In "Title length (61 chars) should be 30-60 characters"%string
         (map i_text (r_issues r)).
Proof.
  assert (E : exists r t,
             run (postGrade wordy (JsString "roma.example"))
             = (Ok {| status := 200; body := ReportBody r |}, t)).
  { eexists _, _. vm_compute. reflexivity. }
  destruct E as [r [t E]]. exists r, t. split; [exact E|].
  destruct (cut_title_comes_with_the_warning _ _ _ _ E)
    as [s [q [body_text [loadTime [U [F H]]]]]].
  inversion U. subst s. vm_compute in F. inversion F. subst.
  apply H. vm_compute. lia.
Defined.
